(** * Abode: curation, acquisition and interactive session

    A shallow embedding of the three scripts of the repository
    ([image_remover.py], [style_image_downloader.py], [streamlit_app.py])
    and the properties of their specification.

    Python [str] values are modelled by [string]; the text handled here
    (model replies, file names, search keywords) is taken to be ASCII, so
    that [str.upper], [str.lower] and [str.strip] act on the letters
    [a-z]/[A-Z] and on the ASCII white space only.  Python [int] is [Z];
    lengths and indices that the code obtains from [len] are [nat]. *)

From Stdlib Require Import ZArith Lia Ascii String List Permutation.
From stdpp Require Import base option list gmap strings fin_maps.

Local Open Scope string_scope.
Local Open Scope Z_scope.
Local Open Scope stdpp_scope.
Local Open Scope list_scope.

(** ** The fragment of Python's [str] and [base64] the scripts use *)

Module Py.

Definition nl : string := String (ascii_of_nat 10) EmptyString.

(** [str.isspace] on ASCII: TAB, LF, VT, FF, CR, FS, GS, RS, US, SPACE. *)
Definition is_space (c : ascii) : bool :=
  let n := nat_of_ascii c in
  ((9 <=? n)%nat && (n <=? 13)%nat) || ((28 <=? n)%nat && (n <=? 32)%nat).

Definition upper_char (c : ascii) : ascii :=
  let n := nat_of_ascii c in
  if ((97 <=? n)%nat && (n <=? 122)%nat)%bool then ascii_of_nat (n - 32) else c.

Definition lower_char (c : ascii) : ascii :=
  let n := nat_of_ascii c in
  if ((65 <=? n)%nat && (n <=? 90)%nat)%bool then ascii_of_nat (n + 32) else c.

Fixpoint map_chars (f : ascii -> ascii) (s : string) : string :=
  match s with
  | EmptyString => EmptyString
  | String c r => String (f c) (map_chars f r)
  end.

Definition upper : string -> string := map_chars upper_char.
Definition lower : string -> string := map_chars lower_char.

Fixpoint lstrip (s : string) : string :=
  match s with
  | String c r => if is_space c then lstrip r else s
  | EmptyString => EmptyString
  end.

(** [rstrip] keeps a character when it is not white space or when
    something survives to its right. *)
Fixpoint rstrip (s : string) : string :=
  match s with
  | EmptyString => EmptyString
  | String c r =>
      match rstrip r with
      | EmptyString => if is_space c then EmptyString else String c EmptyString
      | r' => String c r'
      end
  end.

Definition strip (s : string) : string := rstrip (lstrip s).

(** [s.startswith(p)] *)
Fixpoint startswith (p s : string) : bool :=
  match p, s with
  | EmptyString, _ => true
  | String a p', String b s' => if Ascii.eqb a b then startswith p' s' else false
  | String _ _, EmptyString => false
  end.

Definition rev_string (s : string) : string :=
  string_of_list_ascii (rev (list_ascii_of_string s)).

(** [s.endswith(p)] *)
Definition endswith (p s : string) : bool :=
  startswith (rev_string p) (rev_string s).

(** [s.find(p)], as an option: [None] is Python's [-1]. *)
Fixpoint find_from (p s : string) (i : nat) : option nat :=
  if startswith p s then Some i
  else match s with
       | EmptyString => None
       | String _ r => find_from p r (S i)
       end.

Definition find (p s : string) : option nat := find_from p s 0.

(** [p in s] *)
Definition contains (p s : string) : bool :=
  match find p s with Some _ => true | None => false end.

Fixpoint drop_chars (n : nat) (s : string) : string :=
  match n, s with
  | O, _ => s
  | S n', String _ r => drop_chars n' r
  | S _, EmptyString => EmptyString
  end.

Fixpoint take_chars (n : nat) (s : string) : string :=
  match n, s with
  | O, _ => EmptyString
  | S n', String c r => String c (take_chars n' r)
  | S _, EmptyString => EmptyString
  end.

(** [s[i:]] and [s[i:j]] for non-negative [i], [j]. *)
Definition slice_from (i : nat) (s : string) : string := drop_chars i s.
Definition slice (i j : nat) (s : string) : string :=
  take_chars (j - i) (drop_chars i s).

(** [s.split(sep)] for a one-character separator: the pieces between
    separators, never an empty list. *)
Fixpoint split_char (sep : ascii) (s : string) : list string :=
  match s with
  | EmptyString => [EmptyString]
  | String c r =>
      if Ascii.eqb c sep then EmptyString :: split_char sep r
      else match split_char sep r with
           | h :: t => String c h :: t
           | [] => [String c EmptyString]
           end
  end.

Definition split_lines (s : string) : list string :=
  split_char (ascii_of_nat 10) s.

(** [sep.join(l)] *)
Fixpoint join (sep : string) (l : list string) : string :=
  match l with
  | [] => EmptyString
  | [x] => x
  | x :: r => x +:+ sep +:+ join sep r
  end.

(** [s.replace(c, t)] for a one-character [c]. *)
Fixpoint replace_char (c : ascii) (t : string) (s : string) : string :=
  match s with
  | EmptyString => EmptyString
  | String a r =>
      if Ascii.eqb a c then t +:+ replace_char c t r
      else String a (replace_char c t r)
  end.

Definition digit (n : nat) : ascii := ascii_of_nat (48 + n).

Fixpoint digits_fuel (fuel : nat) (n : nat) (acc : string) : string :=
  match fuel with
  | O => acc
  | S f =>
      let acc' := String (digit (n mod 10)) acc in
      if (n <? 10)%nat then acc' else digits_fuel f (n / 10) acc'
  end.

(** [str(n)] for a natural number and for an integer. *)
Definition str_of_nat (n : nat) : string := digits_fuel (S n) n EmptyString.
Definition str_of_Z (z : Z) : string :=
  if z <? 0 then String "-" (str_of_nat (Z.to_nat (- z)))
  else str_of_nat (Z.to_nat z).

(** [base64.b64encode(data).decode('utf-8')] *)
Definition b64_alphabet : string :=
  "ABCDEFGHIJKLMNOPQRSTUVWXYZabcdefghijklmnopqrstuvwxyz0123456789+/".

Definition b64_char (n : N) : ascii :=
  match String.get (N.to_nat n) b64_alphabet with
  | Some c => c
  | None => "="%char
  end.

Fixpoint b64encode (data : list Byte.byte) : string :=
  match data with
  | [] => EmptyString
  | [a] =>
      let x := Byte.to_N a in
      String (b64_char (N.shiftr x 2))
        (String (b64_char (N.shiftl (N.land x 3) 4)) "==")
  | [a; b] =>
      let x := Byte.to_N a in
      let y := Byte.to_N b in
      String (b64_char (N.shiftr x 2))
        (String (b64_char (N.lor (N.shiftl (N.land x 3) 4) (N.shiftr y 4)))
           (String (b64_char (N.shiftl (N.land y 15) 2)) "="))
  | a :: b :: c :: r =>
      let x := Byte.to_N a in
      let y := Byte.to_N b in
      let z := Byte.to_N c in
      String (b64_char (N.shiftr x 2))
        (String (b64_char (N.lor (N.shiftl (N.land x 3) 4) (N.shiftr y 4)))
           (String (b64_char (N.lor (N.shiftl (N.land y 15) 2) (N.shiftr z 6)))
              (String (b64_char (N.land z 63)) (b64encode r))))
  end.

(** [name.rfind('.')] *)
Fixpoint rfind_char (c : ascii) (s : string) (i : nat) : option nat :=
  match s with
  | EmptyString => None
  | String a r =>
      match rfind_char c r (S i) with
      | Some j => Some j
      | None => if Ascii.eqb a c then Some i else None
      end
  end.

(** [pathlib]'s [PurePath.suffix] of a file name: the part from the last
    dot on, when that dot is neither the first nor the last character. *)
Definition suffix (name : string) : string :=
  match rfind_char "." name 0 with
  | Some i =>
      if ((0 <? i)%nat && (i <? String.length name - 1)%nat)%bool
      then drop_chars i name else EmptyString
  | None => EmptyString
  end.

(** [PurePath.with_suffix] on the file name. *)
Definition with_suffix (sfx : string) (name : string) : string :=
  take_chars (String.length name - String.length (suffix name)) name +:+ sfx.

(** [l[:k]] for a Python integer [k], negative [k] counting from the end. *)
Definition slice_upto {A} (k : Z) (l : list A) : list A :=
  if k <? 0 then take (length l - Z.to_nat (- k)) l else take (Z.to_nat k) l.

Definition quote : string := String (ascii_of_nat 34) EmptyString.

End Py.

(** ** The chat endpoint, as the scripts see it *)

Module OpenAI.

Inductive part :=
| Text (text : string)
| ImageUrl (url : string).

Inductive message :=
| System (content : string)
| User (content : string)
| UserParts (content : list part)
| Assistant (content : string).

Record request := Request {
  model : string;
  messages : list message;
  max_tokens : Z
}.

(** [client.chat.completions.create] either raises or yields
    [response.choices[0].message.content]. *)
Inductive reply :=
| Raises (e : string)
| NoContent                      (* the content is [None] *)
| Content (text : string).

(** The service is not a function of the request alone: the answer to
    the [k]-th call of a run is [c k request]. *)
Definition client := nat -> request -> reply.

Definition data_url (encoded : string) : string :=
  "data:image/jpeg;base64," +:+ encoded.

(** The text of the [AttributeError] of a method call on [None]. *)
Definition none_has_no (method : string) : string :=
  "'NoneType' object has no attribute '" +:+ method +:+ "'".

End OpenAI.

(** ** Image curation ([image_remover.py]) *)

Module Remover.
Import OpenAI.

(** A file below [BASE_DIR]: style directory and file name. *)
Definition path : Type := string * string.

(** The files below [BASE_DIR], with their bytes, and the number of calls
    made to the service so far.  The results directory and the summary
    file that the run writes lie outside this tree; the summary is the
    value [process_directories] returns. *)
Record world := World {
  files : gmap (string * string) (list Byte.byte);
  api_calls : nat
}.

Definition encode_image (w : world) (image_path : path) : option string :=
  match files w !! image_path with
  | Some data => Some (Py.b64encode data)
  | None => None
  end.

Definition system_message : string :=
  Py.join Py.nl [
    "You are an expert interior designer evaluating images for an interior design AI assistant.";
    "Your task is to determine if an image is a high-quality, relevant interior design reference image.";
    EmptyString;
    "Evaluate the image on these criteria:";
    "1. Does it clearly show a room interior?";
    "2. Is it relevant to interior design (shows furniture, decor, layout)?";
    "3. Is it high quality enough to be useful as a reference?";
    "4. Does it appear to be a professionally designed space?";
    EmptyString;
    "Reply with ONLY ONE of these values:";
    "- " +:+ Py.quote +:+ "YES" +:+ Py.quote +:+ " - If the image is a good, relevant interior design reference";
    "- " +:+ Py.quote +:+ "NO" +:+ Py.quote +:+ " - If the image is not relevant, unclear, or too low quality";
    EmptyString ].

Definition first_messages (encoded_image : string) : list message :=
  [ System system_message;
    UserParts [
      Text "Evaluate if this image is a good, relevant interior design reference picture. Answer with ONLY 'YES' or 'NO'.";
      ImageUrl (data_url encoded_image) ] ].

Definition call (c : client) (w : world) (r : request) : reply * world :=
  (c (api_calls w) r, World (files w) (S (api_calls w))).

(** [evaluate_image]: the verdict, its reason, and the world after the
    calls that were made. *)
Definition evaluate_image (c : client) (w : world) (image_path : path)
  : (bool * string) * world :=
  match encode_image w image_path with
  | None => ((false, "Failed to encode image"), w)
  | Some EmptyString => ((false, "Failed to encode image"), w)
  | Some encoded_image =>
      let messages := first_messages encoded_image in
      match call c w (Request "gpt-4o" messages 50) with
      | (Raises e, w1) => ((false, "API error: " +:+ e), w1)
      | (NoContent, w1) => ((false, "API error: " +:+ none_has_no "strip"), w1)
      | (Content text, w1) =>
          let response_text := Py.upper (Py.strip text) in
          if Py.contains "YES" response_text then
            ((true, "Good quality interior design image"), w1)
          else if Py.contains "NO" response_text then
            let messages' :=
              messages ++
              [ Assistant response_text;
                User "Why is this image not suitable? Give a brief reason in one sentence." ] in
            match call c w1 (Request "gpt-4o" messages' 100) with
            | (Raises e, w2) => ((false, "API error: " +:+ e), w2)
            | (NoContent, w2) => ((false, "API error: " +:+ none_has_no "strip"), w2)
            | (Content detail, w2) => ((false, Py.strip detail), w2)
            end
          else ((false, "Unclear evaluation: " +:+ response_text), w1)
      end
  end.

Record style_stats := StyleStats {
  s_total : Z; s_kept : Z; s_removed : Z; s_errors : Z
}.

Record stats := Stats {
  total_processed : Z;
  kept : Z;
  removed : Z;
  errors : Z;
  by_style : gmap string style_stats
}.

Definition empty_stats : stats := Stats 0 0 0 0 ∅.

(** [stats["by_style"][style_name][field] += 1]; the entry is created
    before the images of the style are visited. *)
Definition bump (f : style_stats -> style_stats) (style_name : string)
    (st : stats) : stats :=
  Stats (total_processed st) (kept st) (removed st) (errors st)
        (alter f style_name (by_style st)).

Definition count_total (style_name : string) (st : stats) : stats :=
  let st' := Stats (total_processed st + 1) (kept st) (removed st) (errors st)
                   (by_style st) in
  bump (fun s => StyleStats (s_total s + 1) (s_kept s) (s_removed s) (s_errors s))
       style_name st'.

Definition count_kept (style_name : string) (st : stats) : stats :=
  let st' := Stats (total_processed st) (kept st + 1) (removed st) (errors st)
                   (by_style st) in
  bump (fun s => StyleStats (s_total s) (s_kept s + 1) (s_removed s) (s_errors s))
       style_name st'.

Definition count_removed (style_name : string) (st : stats) : stats :=
  let st' := Stats (total_processed st) (kept st) (removed st + 1) (errors st)
                   (by_style st) in
  bump (fun s => StyleStats (s_total s) (s_kept s) (s_removed s + 1) (s_errors s))
       style_name st'.

Definition count_error (style_name : string) (st : stats) : stats :=
  let st' := Stats (total_processed st) (kept st) (removed st) (errors st + 1)
                   (by_style st) in
  bump (fun s => StyleStats (s_total s) (s_kept s) (s_removed s) (s_errors s + 1))
       style_name st'.

Definition metadata_file (image_file : path) : path :=
  (image_file.1, Py.with_suffix ".txt" image_file.2).

(** [Path.unlink]: [None] stands for the [FileNotFoundError]. *)
Definition unlink (p : path) (w : world) : option world :=
  match files w !! p with
  | Some _ => Some (World (delete p (files w)) (api_calls w))
  | None => None
  end.

(** The deletion of a rejected image (lines 227-238). *)
Definition delete_rejected (style_name : string) (image_file : path)
    (ws : world * stats) : world * stats :=
  let '(w, st) := ws in
  match unlink image_file w with
  | None => (w, count_error style_name st)
  | Some w1 =>
      match files w1 !! metadata_file image_file with
      | Some _ =>
          match unlink (metadata_file image_file) w1 with
          | Some w2 => (w2, st)
          | None => (w1, count_error style_name st)
          end
      | None => (w1, st)
      end
  end.

(** The body of the loop over the images of one style (lines 198-243).
    [evaluate_image] catches what it raises, so the handler of the outer
    [try] is never entered. *)
Definition process_image (c : client) (dry_run : bool) (style_name : string)
    (ws : world * stats) (image_file : path) : world * stats :=
  let '(w, st) := ws in
  let st := count_total style_name st in
  let '((is_good_image, reason), w) := evaluate_image c w image_file in
  if is_good_image then (w, count_kept style_name st)
  else
    let st := count_removed style_name st in
    if dry_run then (w, st)
    else delete_rejected style_name image_file (w, st).

(** [style_dir.glob("*" + ext)]: the files of the directory whose name
    ends with [ext]. *)
Definition glob (style_dir ext : string) (w : world) : list path :=
  filter (fun p : path => p.1 = style_dir ∧ Py.endswith ext p.2 = true)
         (map fst (map_to_list (files w))).

Definition image_files_of (style_dir : string) (w : world) : list path :=
  let image_files :=
    glob style_dir ".jpg" w ++ glob style_dir ".jpeg" w ++ glob style_dir ".png" w in
  filter (fun f : path => Py.endswith ".txt" f.2 = false) image_files.

(** [if limit and total_processed + len(image_files) > limit] *)
Definition apply_limit (limit : option Z) (st : stats) (image_files : list path)
  : list path :=
  match limit with
  | Some l =>
      if (negb (l =? 0) && (l <? total_processed st + Z.of_nat (length image_files)))%bool
      then Py.slice_upto (l - total_processed st) image_files
      else image_files
  | None => image_files
  end.

Definition process_style (c : client) (dry_run : bool) (limit : option Z)
    (ws : world * stats) (style_name : string) : world * stats :=
  let '(w, st) := ws in
  let st := Stats (total_processed st) (kept st) (removed st) (errors st)
                  (<[style_name := StyleStats 0 0 0 0]> (by_style st)) in
  let image_files := apply_limit limit st (image_files_of style_name w) in
  fold_left (process_image c dry_run style_name) image_files (w, st).

(** The images of a pass over a list, each paired with the world it is
    processed in. *)
Fixpoint visits (c : client) (dry_run : bool) (style_name : string)
    (image_files : list path) (ws : world * stats) : list (path * world) :=
  match image_files with
  | [] => []
  | image_file :: rest =>
      (image_file, ws.1)
      :: visits c dry_run style_name rest (process_image c dry_run style_name ws image_file)
  end.

(** What the run finds outside the tree of images. *)
Record env := Env {
  api_key : option string;        (* os.getenv("OPENAI_API_KEY") *)
  base_dir_exists : bool;         (* BASE_DIR.exists() *)
  style_dirs : list string        (* the directories of BASE_DIR, as iterated *)
}.

(** [process_directories]: the summary that is written to the results
    file ([None] when the run gives up before the loop) and the world
    it leaves.  The world is the tree under [room_styles] and the count
    of calls; the directory [image_evaluation_results], which the code
    creates before it looks for [room_styles], and the results file in
    it lie outside that tree and are no part of the world. *)
Definition process_directories (e : env) (c : client) (dry_run : bool)
    (limit : option Z) (w : world) : option stats * world :=
  match api_key e with
  | None => (None, w)
  | Some EmptyString => (None, w)
  | Some _ =>
      if negb (base_dir_exists e) then (None, w)
      else
        let '(w', st) :=
          fold_left (process_style c dry_run limit) (style_dirs e) (w, empty_stats) in
        (Some st, w')
  end.

(** [main]: [--delete] switches the dry run off. *)
Definition main (e : env) (c : client) (delete_flag : bool) (limit : option Z)
    (w : world) : option stats * world :=
  process_directories e c (negb delete_flag) limit w.

End Remover.

(** ** Image acquisition ([style_image_downloader.py]) *)

Module Downloader.

Definition IMAGES_PER_STYLE : Z := 70.
Definition MIN_IMAGE_SIZE : Z := 400.

(** One entry of the photo list of a search response.  [api_width] and
    [api_height] are the dimensions the search metadata announces; the
    script never reads them. *)
Record photo := Photo {
  src_large : option string;       (* photo["src"]["large"], when present *)
  photographer : option string;
  photo_id : option Z;
  photo_url : option string;
  api_width : Z;
  api_height : Z
}.

(** What [session.get] returns: the status, the body read as the JSON of
    a search ([None]: [response.json()] raises) and the body read as an
    image ([None]: [Image.open] raises), with its decoded size. *)
Record response := Response {
  status_code : Z;
  json_photos : option (list photo);
  image_size : option (Z * Z)
}.

(** The [k]-th request of a run; [None]: [session.get] raises. *)
Definition network := nat -> string -> option response.

Inductive file :=
| ImageFile (width height : Z)
| TextFile (content : string).

Inductive result (A : Type) :=
| Returns (a : A)
| Raised (e : string).
Arguments Returns {A} a.
Arguments Raised {A} e.

Record style := Style {
  name : string;
  search_keywords : option (list string)
}.

(** A saved image that meets the threshold; a sidecar always does. *)
Definition large_enough (f : file) : Prop :=
  match f with
  | ImageFile width height => MIN_IMAGE_SIZE <= width /\ MIN_IMAGE_SIZE <= height
  | TextFile _ => True
  end.

(** Every file of [fs'] was in [fs] as it is, or meets the threshold. *)
Definition only_large_added (fs fs' : gmap (string * string) file) : Prop :=
  forall p f, fs' !! p = Some f -> fs !! p = Some f \/ large_enough f.

Section WithRandom.
Context {rng : Type}.
(** [random.shuffle] on the photo list. *)
Variable shuffle : rng -> list photo -> list photo * rng.
Variable net : network.
Variable PEXELS_API_KEY : option string.

Record state := State {
  files : gmap (string * string) file;
  http_calls : nat;
  gen : rng;
  total_downloaded : Z
}.

Definition get (url : string) (s : state) : option response * state :=
  (net (http_calls s) url,
   State (files s) (S (http_calls s)) (gen s) (total_downloaded s)).

Definition or_unknown (o : option string) : string :=
  match o with Some s => s | None => "Unknown" end.

Definition id_text (o : option Z) : string :=
  match o with Some i => Py.str_of_Z i | None => "unknown" end.

Definition metadata_text (p : photo) (width height : Z) : string :=
  "Photo by: " +:+ or_unknown (photographer p) +:+ Py.nl +:+
  "Source: Pexels (ID: " +:+ id_text (photo_id p) +:+ ")" +:+ Py.nl +:+
  "URL: " +:+ or_unknown (photo_url p) +:+ Py.nl +:+
  "Size: " +:+ Py.str_of_Z width +:+ "x" +:+ Py.str_of_Z height +:+ Py.nl.

Definition file_stem (keyword : string) (p : photo) : string :=
  Py.replace_char " " "_" keyword +:+ "_" +:+ id_text (photo_id p).

(** Lines 331-349: the decoded size decides.  The style directory is
    taken to exist and to be writable. *)
Definition save_if_large (style_dir keyword : string) (p : photo)
    (width height : Z) (s : state) : state :=
  if ((MIN_IMAGE_SIZE <=? width) && (MIN_IMAGE_SIZE <=? height))%bool then
    let img_path := (style_dir, file_stem keyword p +:+ ".jpg") in
    let meta_path := (style_dir, file_stem keyword p +:+ ".txt") in
    State (<[meta_path := TextFile (metadata_text p width height)]>
             (<[img_path := ImageFile width height]> (files s)))
          (http_calls s) (gen s) (total_downloaded s + 1)
  else s.

(** Lines 315-351: one photo; whatever is raised is logged and the
    photo is skipped. *)
Definition download_photo (style_dir keyword : string) (s : state)
    (p : photo) : state :=
  match src_large p with
  | None => s
  | Some image_url =>
      match get image_url s with
      | (None, s1) => s1
      | (Some img_response, s1) =>
          if status_code img_response =? 200 then
            match image_size img_response with
            | None => s1
            | Some (width, height) =>
                save_if_large style_dir keyword p width height s1
            end
          else s1
      end
  end.

(** Lines 311-351, with the [break] on the per-style quota. *)
Fixpoint download_photos (style_dir keyword : string) (max_images : Z)
    (photos : list photo) (s : state) : state :=
  match photos with
  | [] => s
  | p :: rest =>
      if max_images <=? total_downloaded s then s
      else download_photos style_dir keyword max_images rest
             (download_photo style_dir keyword s p)
  end.

Definition search_url (search_query : string) : string :=
  "https://api.pexels.com/v1/search?query=" +:+
  Py.replace_char " " "%20" search_query +:+
  "&per_page=30&orientation=landscape".

(** Lines 275-358: the queries of one keyword. *)
Fixpoint run_queries (style_dir keyword : string)
    (max_images images_per_keyword : Z) (queries : list string)
    (s : state) : state :=
  match queries with
  | [] => s
  | search_query :: rest =>
      if images_per_keyword <=? total_downloaded s then s
      else
        let continue := run_queries style_dir keyword max_images images_per_keyword rest in
        match get (search_url search_query) s with
        | (None, s1) => continue s1
        | (Some r, s1) =>
            if negb (status_code r =? 200) then continue s1
            else match json_photos r with
                 | None => continue s1
                 | Some [] => continue s1
                 | Some photos =>
                     let '(photos, g) := shuffle (gen s1) photos in
                     let s2 := State (files s1) (http_calls s1) g (total_downloaded s1) in
                     let remaining := images_per_keyword - total_downloaded s2 in
                     let photos := Py.slice_upto remaining photos in
                     let s3 := download_photos style_dir keyword max_images photos s2 in
                     if 0 <? total_downloaded s3 then s3 else continue s3
                 end
        end
  end.

Definition search_queries (style_name keyword : string) : list string :=
  [ keyword +:+ " " +:+ style_name +:+ " interior";
    style_name +:+ " " +:+ keyword +:+ " room";
    keyword +:+ " interior design " +:+ style_name ].

Definition run_keyword (style_name style_dir : string)
    (max_images images_per_keyword : Z) (s : state) (keyword : string) : state :=
  run_queries style_dir keyword max_images images_per_keyword
    (search_queries style_name keyword) s.

Definition test_url : string :=
  "https://api.pexels.com/v1/search?query=test&per_page=1".

(** [download_pexels_images(style, max_images)]: the number of images
    saved, or the exception that leaves the function. *)
Definition download_pexels_images (st : style) (max_images : Z) (s : state)
  : result Z * state :=
  match search_keywords st with
  | None | Some [] => (Returns 0, s)
  | Some keywords =>
      let style_name := name st in
      let style_dir := Py.lower (Py.replace_char " " "_" style_name) in
      let images_per_keyword := max_images / Z.of_nat (length keywords) in
      let s := State (files s) (http_calls s) (gen s) 0 in
      match PEXELS_API_KEY with
      | None | Some EmptyString =>
          (Raised "Pexels API key is required to download images", s)
      | Some key =>
          if String.eqb key "your_pexels_api_key_here" then
            (Raised "Pexels API key is required to download images", s)
          else
            match get test_url s with
            | (None, s1) => (Raised "session.get", s1)
            | (Some test_response, s1) =>
                if negb (status_code test_response =? 200) then
                  (Raised "Invalid Pexels API key. Please check your .env file.", s1)
                else
                  let s2 :=
                    fold_left (run_keyword style_name style_dir max_images images_per_keyword)
                              keywords s1 in
                  (Returns (total_downloaded s2), s2)
            end
      end
  end.

End WithRandom.

Arguments State {rng} _ _ _ _.

End Downloader.

(** ** The interactive session ([streamlit_app.py]) *)

Module App.
Import OpenAI.

Record style := Style {
  name : string;
  description : option string;     (* style.get("description", "") *)
  image_paths : list string
}.

Inductive result (A : Type) :=
| Returns (a : A)
| Raised (e : string).
Arguments Returns {A} a.
Arguments Raised {A} e.

(** *** Response segmentation (lines 218-299) *)

(** [part.strip().upper().startswith(prefix) and ":" in part] *)
Definition is_marker (prefix part : string) : bool :=
  Py.startswith prefix (Py.upper (Py.strip part)) && Py.contains ":" part.

(** [if current_option: options.append(current_option.strip())] *)
Definition flush (current_option : string) (options : list string) : list string :=
  match current_option with
  | EmptyString => options
  | _ => options ++ [Py.strip current_option]
  end.

Definition split_step (prefix : string) (acc : list string * string)
    (part : string) : list string * string :=
  let '(options, current_option) := acc in
  if is_marker prefix part then (flush current_option options, part)
  else (options, current_option +:+ Py.nl +:+ part).

(** The loop over the lines, shared by the [OPTION] and the
    [DESIGN OPTION] branch. *)
Definition split_by_marker (prefix response_text : string) : list string :=
  let '(options, current_option) :=
    fold_left (split_step prefix) (Py.split_lines response_text) ([], EmptyString) in
  flush current_option options.

(** [f"{i}."] for [i] in [range(1, num_options + 1)], when it occurs. *)
Definition numbered_parts (num_options : Z) (response_text : string) : list string :=
  filter (fun p => Py.contains p response_text = true)
         (map (fun i => Py.str_of_nat i +:+ ".") (seq 1 (Z.to_nat num_options))).

Fixpoint split_numbered (response_text : string) (parts : list string) : list string :=
  match parts with
  | [] => []
  | [p] =>
      match Py.find p response_text with
      | Some start_idx => [Py.slice_from start_idx response_text]
      | None => []
      end
  | p :: (q :: _) as rest =>
      match Py.find p response_text, Py.find q response_text with
      | Some start_idx, Some end_idx =>
          Py.slice start_idx end_idx response_text :: split_numbered response_text rest
      | _, _ => split_numbered response_text rest
      end
  end.

(** The three strategies and the fallback: the segments before padding. *)
Definition segments (num_options : Z) (response_text : string) : list string :=
  if Py.contains "OPTION 1" (Py.upper response_text) then
    split_by_marker "OPTION " response_text
  else if Py.contains "DESIGN OPTION 1" (Py.upper response_text) then
    split_by_marker "DESIGN OPTION " response_text
  else if Py.contains "1." response_text && Py.contains "2." response_text then
    split_numbered response_text (numbered_parts num_options response_text)
  else [response_text].

Definition variation (first : string) (options : list string) : string :=
  "Design Variation " +:+ Py.str_of_nat (length options + 1) +:+ ":" +:+ Py.nl +:+ first.

(** [k] rounds of the [while len(options) < num_options] loop. *)
Fixpoint pad_loop (k : nat) (first : string) (options : list string) : list string :=
  match k with
  | O => options
  | S k' => pad_loop k' first (options ++ [variation first options])
  end.

(** The padding; [options[0]] raises on an empty list. *)
Definition pad (num_options : Z) (options : list string) : result (list string) :=
  if Z.of_nat (length options) <? num_options then
    match options with
    | [] => Raised "list index out of range"
    | first :: _ =>
        Returns (pad_loop (Z.to_nat num_options - length options) first options)
    end
  else Returns options.

Definition truncate (num_options : Z) (options : list string) : list string :=
  if num_options <? Z.of_nat (length options)
  then Py.slice_upto num_options options else options.

Definition parse_options (num_options : Z) (response_text : string)
  : result (list string) :=
  match pad num_options (segments num_options response_text) with
  | Returns options => Returns (truncate num_options options)
  | Raised e => Raised e
  end.

(** *** [generate_design_options] *)

Definition system_message : string :=
  Py.join Py.nl [
    "You are an expert interior designer with extensive knowledge of furniture styles, color theory, and spatial arrangement.";
    "Your task is to analyze a user's empty room photo and their style preferences, then provide several DIFFERENT design options.";
    EmptyString;
    "The user has indicated style preferences by liking and disliking example room images.";
    "Use these preferences to understand their taste, but create DIVERSE and DISTINCT design options.";
    EmptyString;
    "For each design option, you should provide:";
    "1. A TITLE for the design concept (e.g., " +:+ Py.quote +:+ "Modern Minimalist Oasis" +:+ Py.quote
      +:+ ", " +:+ Py.quote +:+ "Cozy Industrial Loft" +:+ Py.quote +:+ ")";
    "2. A BRIEF DESCRIPTION of the overall design approach (1-2 sentences)";
    "3. SPECIFIC RECOMMENDATIONS for furniture, colors, and decor items";
    EmptyString;
    "Ensure each design option is truly different from the others - vary the colors, furniture styles, layouts, and overall mood." ].

(** What a run of the script finds around it. *)
Record services := Services {
  read_file : string -> result (list Byte.byte);
    (* open(path, "rb").read(): the bytes, or [str(e)] of what is raised *)
  chat : request -> reply                          (* the one call of a generation *)
}.

(** [encode_image] of the application: no handler of its own, so what
    [open] or [read] raises leaves the function as it is. *)
Definition encode_image (sv : services) (image_path : string) : result string :=
  match read_file sv image_path with
  | Returns data => Returns (Py.b64encode data)
  | Raised e => Raised e
  end.

Fixpoint image_parts (sv : services) (paths : list string) : result (list part) :=
  match paths with
  | [] => Returns []
  | p :: rest =>
      match encode_image sv p with
      | Raised e => Raised e
      | Returns encoded_image =>
          match image_parts sv rest with
          | Raised e => Raised e
          | Returns ps => Returns (ImageUrl (data_url encoded_image) :: ps)
          end
      end
  end.

Definition request_text (room_type room_size : string) (num_options : Z) : string :=
  "I need " +:+ Py.str_of_Z num_options +:+ " DIFFERENT design options for my " +:+ room_type +:+
  (match room_size with
   | EmptyString => EmptyString
   | _ => " with dimensions: " +:+ room_size
   end) +:+
  ". Please create " +:+ Py.str_of_Z num_options +:+
  " distinct approaches, each with its own title, brief description, and specific furniture/decor recommendations. " +:+
  "Below is a photo of my empty room, followed by example room images I liked and disliked.".

(** The messages of the request (lines 143-196); reading a reference
    image may raise. *)
Definition build_messages (sv : services) (liked_images disliked_images : list string)
    (uploaded_room_image room_type room_size : string) (num_options : Z)
  : result (list message) :=
  let content :=
    [ Text (request_text room_type room_size num_options);
      ImageUrl (data_url uploaded_room_image);
      Text "ROOM IMAGES I LIKED:" ] in
  match image_parts sv liked_images with
  | Raised e => Raised e
  | Returns liked =>
      let content := content ++ liked in
      match disliked_images with
      | [] => Returns [ System system_message; UserParts content ]
      | _ =>
          match image_parts sv disliked_images with
          | Raised e => Raised e
          | Returns disliked =>
              Returns [ System system_message;
                        UserParts (content ++ Text "ROOM IMAGES I DISLIKED:" :: disliked) ]
          end
      end
  end.

(** The body of the [try] (lines 129-299). *)
Definition generate_body (sv : services) (liked_images disliked_images : list string)
    (uploaded_room_image room_type room_size : string) (num_options : Z)
  : result (list string) :=
  match build_messages sv liked_images disliked_images uploaded_room_image
          room_type room_size num_options with
  | Raised e => Raised e
  | Returns messages =>
      match chat sv (Request "gpt-4o" messages 3000) with
      | Raises e => Raised e
      | NoContent => Raised (none_has_no "upper")
      | Content response_text => parse_options num_options response_text
      end
  end.

Definition generate_design_options (sv : services)
    (liked_images disliked_images : list string)
    (uploaded_room_image room_type room_size : string) (num_options : Z)
  : list string :=
  match generate_body sv liked_images disliked_images uploaded_room_image
          room_type room_size num_options with
  | Returns options => options
  | Raised e => [ "Error generating design: " +:+ e ]
  end.

(** *** [select_random_images] and the flow of [main] *)

Inductive value :=
| VInt (z : Z)
| VStr (s : string)
| VList (l : list string)
| VInfo (m : gmap string (string * string)).

(** [st.session_state]: a dictionary from keys to values. *)
Abbreviation session_state := (gmap string value).

(** How a run of the script ends, or goes on. *)
Inductive outcome (A : Type) :=
| Next (a : A) (ss : session_state)      (* the script goes on *)
| Rerun (ss : session_state)             (* st.rerun() *)
| Stop (ss : session_state)              (* return from main *)
| Error (e : string) (ss : session_state).   (* an exception ends the run *)
Arguments Next {A} a ss.
Arguments Rerun {A} ss.
Arguments Stop {A} ss.
Arguments Error {A} e ss.

Definition script (A : Type) : Type := session_state -> outcome A.

#[global] Instance script_ret : MRet script := fun A a ss => Next a ss.
#[global] Instance script_bind : MBind script := fun A B f m ss =>
  match m ss with
  | Next a ss' => f a ss'
  | Rerun ss' => Rerun ss'
  | Stop ss' => Stop ss'
  | Error e ss' => Error e ss'
  end.

Definition state_of {A} (o : outcome A) : session_state :=
  match o with
  | Next _ ss | Rerun ss | Stop ss | Error _ ss => ss
  end.

Definition rerun {A} : script A := fun ss => Rerun ss.
Definition stop {A} : script A := fun ss => Stop ss.
Definition raise {A} (e : string) : script A := fun ss => Error e ss.

(** [key in st.session_state], [st.session_state.key],
    [st.session_state.key = v], [del st.session_state[key]]. *)
Definition has_key (key : string) : script bool :=
  fun ss => Next (bool_decide (is_Some (ss !! key))) ss.
Definition get_attr (key : string) : script value :=
  fun ss => match ss !! key with
            | Some v => Next v ss
            | None => Error ("AttributeError: " +:+ key) ss
            end.
Definition set_attr (key : string) (v : value) : script unit :=
  fun ss => Next tt (<[key := v]> ss).
Definition del_key (key : string) : script unit :=
  fun ss => match ss !! key with
            | Some _ => Next tt (delete key ss)
            | None => Error ("KeyError: " +:+ key) ss
            end.

(** Reads at the type the script uses the value at. *)
Definition get_int (key : string) : script Z :=
  v ← get_attr key; match v with VInt z => mret z | _ => raise "TypeError" end.
Definition get_str (key : string) : script string :=
  v ← get_attr key; match v with VStr s => mret s | _ => raise "TypeError" end.
Definition get_list (key : string) : script (list string) :=
  v ← get_attr key; match v with VList l => mret l | _ => raise "TypeError" end.
Definition get_info (key : string) : script (gmap string (string * string)) :=
  v ← get_attr key; match v with VInfo m => mret m | _ => raise "TypeError" end.

(** [l[i]] for a Python integer [i]. *)
Definition index (l : list string) (i : Z) : script string :=
  let j := if i <? 0 then Z.of_nat (length l) + i else i in
  if j <? 0 then raise "IndexError"
  else match l !! Z.to_nat j with
       | Some x => mret x
       | None => raise "IndexError"
       end.

Inductive button :=
| Like | Dislike | ResetStyles | ContinueToUpload
| BackToPreferences | GenerateOptions | BackToUpload | StartOver.

#[global] Instance button_eq_dec : EqDecision button.
Proof. solve_decision. Defined.

(** The widgets of one run: the button that was pressed, if any, and
    the inputs of the upload step. *)
Record widgets := Widgets {
  clicked : option button;
  uploaded_file : option (list Byte.byte);
  room_type : string;
  room_size : string
}.

Definition pressed (w : widgets) (b : button) : bool :=
  bool_decide (clicked w = Some b).

Definition load_image_from_upload (uploaded : option (list Byte.byte)) : option string :=
  match uploaded with
  | Some bytes_data => Some (Py.b64encode bytes_data)
  | None => None
  end.

Section WithRandom.
Context {rng : Type}.
(** [random.shuffle] *)
Variable shuffle : forall A : Type, rng -> list A -> list A * rng.

Definition add_image (num_images : Z) (st : style)
    (acc : list string * gmap string (string * string)) (img : string)
  : list string * gmap string (string * string) :=
  let '(all_images, style_info) := acc in
  if Z.of_nat (length all_images) <? num_images then
    (all_images ++ [img],
     <[img := (name st, default EmptyString (description st))]> style_info)
  else acc.

(** What one style contributes: up to two of its shuffled images. *)
Definition selected_of (style_images : list string) : list string :=
  take (Nat.min 2 (length style_images)) style_images.

Fixpoint select_loop (num_images : Z) (styles : list style) (g : rng)
    (acc : list string * gmap string (string * string))
  : (list string * gmap string (string * string)) * rng :=
  match styles with
  | [] => (acc, g)
  | st :: rest =>
      if num_images <=? Z.of_nat (length acc.1) then (acc, g)
      else
        match image_paths st with
        | [] => select_loop num_images rest g acc
        | style_images =>
            let '(style_images, g) := shuffle _ g style_images in
            select_loop num_images rest g
              (fold_left (add_image num_images st) (selected_of style_images) acc)
        end
  end.

Definition select_random_images (styles : list style) (num_images : Z) (g : rng)
  : (list string * gmap string (string * string)) * rng :=
  let '(styles, g) := shuffle _ g styles in
  select_loop num_images styles g ([], ∅).

Record env := Env {
  api_key : option string;             (* os.getenv("OPENAI_API_KEY") *)
  styles : list style;                 (* load_styles() *)
  gen : rng;
  image_opens : list Byte.byte -> bool;  (* Image.open succeeds *)
  sv : services
}.

(** The style names of a summary: [style_info[img]["name"]] for each
    image, when the list is not empty. *)
Definition style_names (imgs : list string) : script unit :=
  match imgs with
  | [] => mret tt
  | _ =>
      info ← get_info "style_info";
      if forallb (fun img => bool_decide (is_Some (info !! img))) imgs
      then mret tt else raise "KeyError"
  end.

Definition init_selection (e : env) : script unit :=
  has ← has_key "random_images";
  if has : bool then mret tt
  else
    let '((random_images, style_info), _) :=
      select_random_images (styles e) 5 (gen e) in
    set_attr "random_images" (VList random_images);;
    set_attr "style_info" (VInfo style_info);;
    set_attr "current_index" (VInt 0);;
    set_attr "liked_images" (VList []);;
    set_attr "disliked_images" (VList []).

Definition vote (key : string) (current_img : string) : script unit :=
  l ← get_list key;
  set_attr key (VList (l ++ [current_img]));;
  i ← get_int "current_index";
  set_attr "current_index" (VInt (i + 1));;
  rerun.

Definition reset_keys : list string :=
  ["random_images"; "style_info"; "current_index"; "liked_images"; "disliked_images"].

Definition reset_styles : script unit :=
  fold_right (fun key rest =>
                has ← has_key key;
                (if has : bool then del_key key else mret tt);; rest)
             rerun reset_keys.

Definition continue_to_upload : script unit :=
  liked ← get_list "liked_images";
  match liked with
  | [] => mret tt                          (* the warning *)
  | _ => set_attr "step" (VInt 2);; rerun
  end.

(** Step 1 (lines 332-411). *)
Definition step1 (e : env) (w : widgets) : script unit :=
  match styles e with
  | [] => stop
  | _ =>
      init_selection e;;
      current_index ← get_int "current_index";
      random_images ← get_list "random_images";
      if current_index <? Z.of_nat (length random_images) then
        current_img ← index random_images current_index;
        info ← get_info "style_info";
        (match info !! current_img with
         | Some _ => mret tt
         | None => raise "KeyError"
         end);;
        (if pressed w Like then vote "liked_images" current_img else mret tt);;
        (if pressed w Dislike then vote "disliked_images" current_img else mret tt)
      else
        liked ← get_list "liked_images"; style_names liked;;
        disliked ← get_list "disliked_images"; style_names disliked;;
        (if pressed w ResetStyles then reset_styles else mret tt);;
        (if pressed w ContinueToUpload then continue_to_upload else mret tt)
  end.

(** Step 2 (lines 414-460). *)
Definition step2 (e : env) (w : widgets) : script unit :=
  liked ← get_list "liked_images"; style_names liked;;
  match uploaded_file w with
  | None => mret tt
  | Some data =>
      if image_opens e data then
        if pressed w GenerateOptions then
          match load_image_from_upload (Some data) with
          | Some (String _ _ as encoded_image) =>
              set_attr "room_type" (VStr (room_type w));;
              set_attr "room_size" (VStr (room_size w));;
              set_attr "room_image" (VStr encoded_image);;
              set_attr "step" (VInt 3);;
              rerun
          | _ => mret tt
          end
        else mret tt
      else raise "cannot identify image file"
  end.

(** [for key in st.session_state.keys(): del st.session_state[key]] *)
Definition clear_all : script unit :=
  fun ss => Next tt (fold_left (fun m key => delete key m) (map fst (map_to_list ss)) ss).

(** Lines 470-479: the options are generated once. *)
Definition ensure_design_options (e : env) : script unit :=
  has ← has_key "design_options";
  if has : bool then mret tt
  else
    liked ← get_list "liked_images";
    disliked ← get_list "disliked_images";
    room_image ← get_str "room_image";
    room_type ← get_str "room_type";
    room_size ← get_str "room_size";
    set_attr "design_options"
      (VList (generate_design_options (sv e) liked disliked
                room_image room_type room_size 5)).

(** Lines 482-503: the tabs, the room, and the button to start over. *)
Definition show_results (w : widgets) : script unit :=
  design_options ← get_list "design_options";
  (match design_options with
   | [] => raise "st.tabs needs at least one tab"
   | _ => mret tt
   end);;
  _ ← get_str "room_image";
  if pressed w StartOver then clear_all;; rerun else mret tt.

(** Step 3 (lines 463-503). *)
Definition step3 (e : env) (w : widgets) : script unit :=
  ensure_design_options e;; show_results w.

(** One run of [main] (lines 306-503). *)
Definition main (e : env) (w : widgets) : script unit :=
  match api_key e with
  | None | Some EmptyString => stop
  | Some _ =>
      has ← has_key "step";
      (if has : bool then mret tt else set_attr "step" (VInt 1));;
      step ← get_attr "step";
      match step with
      | VInt 1 => step1 e w
      | VInt 2 => step2 e w
      | VInt 3 => step3 e w
      | _ => mret tt
      end
  end.

(** The [on_click] callbacks of the two back buttons run before the
    script; a button can be pressed only where the last run drew it. *)
Definition on_click (w : widgets) (ss : session_state) : session_state :=
  match clicked w, ss !! "step" with
  | Some BackToPreferences, Some (VInt 2) => <["step" := VInt 1]> ss
  | Some BackToUpload, Some (VInt 3) => <["step" := VInt 2]> ss
  | _, _ => ss
  end.

Definition no_click (w : widgets) : widgets :=
  Widgets None (uploaded_file w) (room_type w) (room_size w).

(** One interaction: the callbacks, then the run and the run that
    [st.rerun()] asks for, in which no button is pressed. *)
Definition settle (e e' : env) (w : widgets) (ss : session_state) : session_state :=
  match main e w ss with
  | Rerun ss' => state_of (main e' (no_click w) ss')
  | o => state_of o
  end.

Definition interact (e e' : env) (w : widgets) (ss : session_state) : session_state :=
  settle e e' w (on_click w ss).

(** The states a browser session can be in. *)
Inductive reachable : session_state -> Prop :=
| reach_new : reachable ∅
| reach_interact e e' w ss :
    reachable ss -> reachable (interact e e' w ss).

End WithRandom.

Definition step_of (ss : session_state) : option Z :=
  match ss !! "step" with Some (VInt z) => Some z | _ => None end.

Definition list_of (key : string) (ss : session_state) : option (list string) :=
  match ss !! key with Some (VList l) => Some l | _ => None end.

Definition str_of (key : string) (ss : session_state) : option string :=
  match ss !! key with Some (VStr s) => Some s | _ => None end.

End App.

(** * The shape of a well-formed reply *)

Module Reply.
Import App.

(** A marker line and the lines that follow it, up to the next marker. *)
Definition block : Type := string * list string.

Definition block_lines (b : block) : list string := b.1 :: b.2.

(** The segment a block is expected to become. *)
Definition block_text (b : block) : string :=
  Py.strip (Py.join Py.nl (block_lines b)).

(** The first line is a marker line, the other lines are not. *)
Definition well_formed (prefix : string) (b : block) : Prop :=
  is_marker prefix b.1 = true /\ Forall (fun l => is_marker prefix l = false) b.2.

(** The text of the [i]-th option (counting from 0) when it is a
    variation of the first segment. *)
Definition variation_at (first : string) (i : nat) : string :=
  "Design Variation " +:+ Py.str_of_nat (i + 1) +:+ ":" +:+ Py.nl +:+ first.

(** The segments, padded with variations of the first one up to
    [n] and cut down to [n]. *)
Definition padded (n : nat) (segs : list string) : list string :=
  take n (segs ++ map (variation_at (default EmptyString (head segs)))
                      (seq (length segs) (n - length segs))).

End Reply.

(** * What holds while the example images are selected *)

Module Selected.
Import App.

(** The entry of an image names a style the image belongs to. *)
Definition entry_ok (styles0 : list style) (info : gmap string (string * string))
    (img : string) : Prop :=
  exists st, st ∈ styles0 /\ img ∈ image_paths st
             /\ info !! img = Some (name st, default EmptyString (description st)).

(** The images so far are within the count and all have their entry. *)
Definition inv (num_images : Z) (styles0 : list style)
    (acc : list string * gmap string (string * string)) : Prop :=
  Z.of_nat (length acc.1) <= Z.max 0 num_images
  /\ forall img, img ∈ acc.1 -> entry_ok styles0 acc.2 img.

(** What one style contributed: at most two of its images. *)
Definition pick_ok (pk : style * list string) : Prop :=
  (length pk.2 <= 2)%nat /\ pk.2 ⊆+ image_paths pk.1.

End Selected.

(** * What holds in every state of a session *)

Module Flow.
Import App.

(** There is a liked list that is not empty, and a disliked list. *)
Definition prefs_ok (ss : session_state) : Prop :=
  (exists l, l <> [] /\ ss !! "liked_images" = Some (VList l))
  /\ (exists d, ss !! "disliked_images" = Some (VList d)).

(** The room of the upload step is stored, its image not empty. *)
Definition room_ok (ss : session_state) : Prop :=
  (exists enc, enc <> EmptyString /\ ss !! "room_image" = Some (VStr enc))
  /\ (exists t, ss !! "room_type" = Some (VStr t))
  /\ (exists z, ss !! "room_size" = Some (VStr z)).

(** The options, once generated, are a list that is not empty. *)
Definition options_ok (ss : session_state) : Prop :=
  ss !! "design_options" = None
  \/ exists l, l <> [] /\ ss !! "design_options" = Some (VList l).

Definition invariant (ss : session_state) : Prop :=
  options_ok ss
  /\ match ss !! "step" with
     | None | Some (VInt 1) => True
     | Some (VInt 2) => prefs_ok ss
     | Some (VInt 3) => prefs_ok ss /\ room_ok ss
     | Some _ => False
     end.

(** The states agree outside the keys of [K]. *)
Definition agree_off (K : list string) (ss ss' : session_state) : Prop :=
  forall k, k ∉ K -> ss' !! k = ss !! k.

(** The run does not go on after the script. *)
Definition ends {A} (o : outcome A) : Prop :=
  match o with Next _ _ => False | _ => True end.

(** The API key is set. *)
Definition configured {rng} (e : env (rng := rng)) : Prop :=
  exists a k, api_key e = Some (String a k).

End Flow.

(** * Sample inputs *)

Module Samples.

(** A style directory with one image and its sidecar; a service that
    is down; a service that accepts; a service that rejects. *)
Definition img : Remover.path := ("modern", "sofa_1.jpg").
Definition sidecar : Remover.path := ("modern", "sofa_1.txt").

Definition tree : gmap (string * string) (list Byte.byte) :=
  <[img := [Byte.xff; Byte.xd8; Byte.xff]]> (<[sidecar := [Byte.x50]]> ∅).

Definition world0 : Remover.world := Remover.World tree 0.

Definition curation_env : Remover.env :=
  Remover.Env (Some "sk-test") true ["modern"].

Definition down : OpenAI.client := fun _ _ => OpenAI.Raises "Connection error.".
Definition accepting : OpenAI.client := fun _ _ => OpenAI.Content "YES".
Definition rejecting : OpenAI.client := fun _ _ => OpenAI.Content "No.".

(** A style with two keywords; a photo service that answers every
    search with thirty photos and serves every photo as an 800x600
    image; a shuffle that leaves the order alone. *)
Definition two_keywords : Downloader.style :=
  Downloader.Style "Modern" (Some ["sofa"; "lamp"]).

Definition photo_of (k i : nat) : Downloader.photo :=
  Downloader.Photo (Some "https://images.pexels.com/photos/large.jpg")
    (Some "Ann") (Some (Z.of_nat (100 * k + i))) None 1920 1280.

Definition generous : Downloader.network := fun k url =>
  if Py.startswith "https://api.pexels.com/v1/search" url
  then Some (Downloader.Response 200 (Some (map (photo_of k) (seq 1 30))) None)
  else Some (Downloader.Response 200 None (Some (800, 600))).

Definition keep_order (g : unit) (l : list Downloader.photo)
  : list Downloader.photo * unit := (l, g).

Definition fresh : Downloader.state (rng := unit) := Downloader.State ∅ 0 tt 0.

(** A photo announced as 1920x1280 whose bytes decode to 300x200. *)
Definition thumbnail : Downloader.network := fun _ _ =>
  Some (Downloader.Response 200 None (Some (300, 200))).

(** Replies of the design model: five options from the first line on,
    and the same five options after a line of introduction. *)
Definition five_blocks : list Reply.block :=
  [ ("OPTION 1: Nordic Calm", ["Pale oak and linen."]);
    ("OPTION 2: Urban Loft", ["Steel, brick and leather."]);
    ("Option 3: Garden Room", ["Rattan and plants."; EmptyString]);
    ("OPTION 4: Art Deco", []);
    ("OPTION 5: Japandi", ["Low furniture."]) ].

Definition five_options : string :=
  Py.join Py.nl (concat (map Reply.block_lines five_blocks)).

Definition with_preamble : string :=
  "Here are five options:" +:+ Py.nl +:+ five_options.

Definition plain_reply : string := "A calm room with pale oak and linen.".

(** Services for a generation: every reference image can be read and
    the model answers with the five options. *)
Definition designer : App.services :=
  App.Services (fun _ => App.Returns [Byte.xff; Byte.xd8])
    (fun _ => OpenAI.Content five_options).

Definition offline : App.services :=
  App.Services (fun _ => App.Returns [Byte.xff; Byte.xd8])
    (fun _ => OpenAI.Raises "Request timed out.").

(** Three styles on disk and a shuffle that leaves every list as it is. *)
Definition styles : list App.style :=
  [ App.Style "Nordic" (Some "Pale wood.") ["nordic/a.jpg"; "nordic/b.jpg"; "nordic/c.jpg"];
    App.Style "Loft" None ["loft/a.jpg"];
    App.Style "Deco" (Some "Brass and velvet.") ["deco/a.jpg"; "deco/b.jpg"] ].

Definition in_order (A : Type) (g : unit) (l : list A) : list A * unit := (l, g).

(** A session: the first run draws five images; the user likes the
    first and dislikes the others, continues, uploads a room and asks
    for the options. *)
Definition session_env : App.env (rng := unit) :=
  App.Env (Some "sk-test") styles tt (fun _ => true) designer.

Definition press (b : App.button) : App.widgets :=
  App.Widgets (Some b) None "Bedroom" EmptyString.

Definition upload_and_generate : App.widgets :=
  App.Widgets (Some App.GenerateOptions) (Some [Byte.xff; Byte.xd8; Byte.xff])
    "Bedroom" "4m x 5m".

Definition idle : App.widgets := App.Widgets None None "Bedroom" EmptyString.

Definition act (w : App.widgets) (ss : gmap string App.value) : gmap string App.value :=
  App.interact in_order session_env session_env w ss.

Definition at_start : gmap string App.value := act idle ∅.

Definition all_voted : gmap string App.value :=
  act (press App.Dislike) (act (press App.Dislike) (act (press App.Dislike)
    (act (press App.Dislike) (act (press App.Like) at_start)))).

Definition all_disliked : gmap string App.value :=
  act (press App.Dislike) (act (press App.Dislike) (act (press App.Dislike)
    (act (press App.Dislike) (act (press App.Dislike) at_start)))).

Definition at_upload : gmap string App.value := act (press App.ContinueToUpload) all_voted.

Definition at_results : gmap string App.value := act upload_and_generate at_upload.

End Samples.

(** * What a curation run does to the tree and to its counters *)

Module Curated.
Import Remover.

(** A name that one of the three patterns of the listing matches. *)
Definition is_image_name (name : string) : bool :=
  Py.endswith ".jpg" name || Py.endswith ".jpeg" name || Py.endswith ".png" name.

(** From [fs] to [fs'] files are only deleted, and each deleted file is
    an image of [fs] (a file of the tree with the name of an image)
    that is gone in [fs'], or the sidecar of such an image; the bytes
    of the files that stay are the same. *)
Definition only_images_deleted (fs fs' : gmap (string * string) (list Byte.byte)) : Prop :=
  forall p : path,
    fs' !! p = fs !! p
    \/ (fs' !! p = None
        /\ exists img : path,
             is_Some (fs !! img) /\ is_image_name img.2 = true
             /\ fs' !! img = None
             /\ (p = img \/ p = metadata_file img)).

(** The counters of a run that started with [calls0] calls made. *)
Definition accounted (calls0 : nat) (ws : world * stats) : Prop :=
  total_processed ws.2 = kept ws.2 + removed ws.2
  /\ 0 <= kept ws.2
  /\ 0 <= errors ws.2 <= removed ws.2
  /\ Z.of_nat calls0 + kept ws.2 <= Z.of_nat (api_calls ws.1)
     <= Z.of_nat calls0 + 2 * total_processed ws.2.

(** The counters of one style. *)
Definition style_accounted (ss : style_stats) : Prop :=
  s_total ss = s_kept ss + s_removed ss
  /\ 0 <= s_kept ss
  /\ 0 <= s_errors ss <= s_removed ss.

End Curated.

(** * What a download leaves in the tree *)

Module Acquired.
Import Downloader.

(** Every image of [fs'] is an image of [fs] whose sidecar is as it was,
    or has a sidecar that gives the attribution of a photo and the
    decoded size of the image. *)
Definition sidecars_follow (fs fs' : gmap (string * string) file) : Prop :=
  forall dir stem width height,
    fs' !! (dir, stem +:+ ".jpg") = Some (ImageFile width height) ->
    (fs !! (dir, stem +:+ ".jpg") = Some (ImageFile width height)
     /\ fs' !! (dir, stem +:+ ".txt") = fs !! (dir, stem +:+ ".txt"))
    \/ exists p, fs' !! (dir, stem +:+ ".txt")
                 = Some (TextFile (metadata_text p width height)).

(** Every path is as it was, or holds a [.jpg] or [.txt] file of the
    directory [style_dir]. *)
Definition writes_within (style_dir : string)
    (fs fs' : gmap (string * string) file) : Prop :=
  forall p : string * string,
    fs' !! p = fs !! p
    \/ (p.1 = style_dir /\ is_Some (fs' !! p)
        /\ (Py.endswith ".jpg" p.2 = true \/ Py.endswith ".txt" p.2 = true)).

End Acquired.

(** * Replies with numbered items *)

Module Numbered.

(** The markers occur in the text in the order of the list: each one
    is first found no later than the next. *)
Fixpoint ascending (text : string) (parts : list string) : Prop :=
  match parts with
  | p :: (q :: _) as rest =>
      (forall i j, Py.find p text = Some i -> Py.find q text = Some j -> (i <= j)%nat)
      /\ ascending text rest
  | _ => True
  end.

End Numbered.

(** * What the styles can supply *)

Module Supply.
Import App.

(** The number of images the selection can draw: two from each style,
    or the one image of a style that has no more. *)
Definition supply (styles : list style) : nat :=
  sum_list_with (fun st => Nat.min 2 (length (image_paths st))) styles.

(** All image paths of the styles, style after style. *)
Definition all_paths (styles : list style) : list string :=
  concat (map image_paths styles).

End Supply.

(** * What holds of the votes in every state of a session *)

Module Voting.
Import App.

(** The five keys of the selection are set: the index is within the
    images, every image has its style, and the liked and the disliked
    images together are the images before the index. *)
Definition selected (ss : session_state) (imgs : list string)
    (info : gmap string (string * string)) (ci : Z) (liked disliked : list string) : Prop :=
  ss !! "random_images" = Some (VList imgs)
  /\ ss !! "style_info" = Some (VInfo info)
  /\ ss !! "current_index" = Some (VInt ci)
  /\ ss !! "liked_images" = Some (VList liked)
  /\ ss !! "disliked_images" = Some (VList disliked)
  /\ 0 <= ci <= Z.of_nat (length imgs)
  /\ (forall img, img ∈ imgs -> is_Some (info !! img))
  /\ liked ++ disliked ≡ₚ take (Z.to_nat ci) imgs.

(** None of the five keys is set. *)
Definition unselected (ss : session_state) : Prop :=
  forall k, k ∈ reset_keys -> ss !! k = None.

Definition selection_ok (ss : session_state) : Prop :=
  unselected ss
  \/ exists imgs info ci liked disliked, selected ss imgs info ci liked disliked.

Definition sound (ss : session_state) : Prop :=
  Flow.invariant ss /\ selection_ok ss.

(** The run ends with an exception other than the one for an upload
    that is no image. *)
Definition crashes {A} (o : outcome A) : Prop :=
  match o with
  | Error e _ => e <> "cannot identify image file"
  | _ => False
  end.

(** The states agree on the keys of [K]. *)
Definition agree_on (K : list string) (ss ss' : session_state) : Prop :=
  forall k, k ∈ K -> ss' !! k = ss !! k.

End Voting.

(** * The styles on disk ([load_styles] of [streamlit_app.py]) *)

Module Catalog.
Import App.

(** [str.isupper] or [str.islower] of one ASCII character. *)
Definition is_cased (c : ascii) : bool :=
  let n := nat_of_ascii c in
  ((65 <=? n)%nat && (n <=? 90)%nat) || ((97 <=? n)%nat && (n <=? 122)%nat).


(** [str.title] on ASCII text: a cased character is put in upper case
    after an uncased one and at the start, in lower case after a cased
    one. *)
Fixpoint title_from (previous_is_cased : bool) (s : string) : string :=
  match s with
  | EmptyString => EmptyString
  | String c r =>
      String (if is_cased c
              then if previous_is_cased then Py.lower_char c else Py.upper_char c
              else c)
             (title_from (is_cased c) r)
  end.

Definition title (s : string) : string := title_from false s.

(** What [load_styles] finds under [room_styles]. *)
Record disk := Disk {
  base_dir_exists : bool;                          (* BASE_DIR.exists() *)
  style_dirs : result (list string);               (* the directories, as iterated *)
  description_txt : string -> option (result string);
                                                   (* description.txt: absent, or read *)
  listdir : string -> result (list string)         (* os.listdir(style_dir) *)
}.

(** [f.lower().endswith((".jpg", ".jpeg", ".png")) and not f.endswith(".txt")] *)
Definition is_image_file (f : string) : bool :=
  (Py.endswith ".jpg" (Py.lower f) || Py.endswith ".jpeg" (Py.lower f)
   || Py.endswith ".png" (Py.lower f))
  && negb (Py.endswith ".txt" f).

(** [str(style_dir / f)] *)
Definition image_path (style_dir f : string) : string :=
  "room_styles/" +:+ style_dir +:+ "/" +:+ f.

Definition display_name (style_dir : string) : string :=
  title (Py.replace_char "_" " " style_dir).

(** The body of the loop (lines 51-70): the style of one directory,
    when it has images. *)
Definition load_style (d : disk) (style_dir : string) : result (option style) :=
  let style_name := display_name style_dir in
  match description_txt d style_dir with
  | Some (Raised e) => Raised e
  | found =>
      let description :=
        match found with Some (Returns text) => text | _ => EmptyString end in
      match listdir d style_dir with
      | Raised e => Raised e
      | Returns files =>
          match map (image_path style_dir) (filter (fun f => is_image_file f = true) files)
          with
          | [] => Returns None
          | image_files => Returns (Some (Style style_name (Some description) image_files))
          end
      end
  end.

Fixpoint load_loop (d : disk) (dirs : list string) : result (list style) :=
  match dirs with
  | [] => Returns []
  | style_dir :: rest =>
      match load_style d style_dir with
      | Raised e => Raised e
      | Returns found =>
          match load_loop d rest with
          | Raised e => Raised e
          | Returns styles =>
              Returns (match found with Some st => st :: styles | None => styles end)
          end
      end
  end.

(** [load_styles]: whatever is raised gives the empty list. *)
Definition load_styles (d : disk) : list style :=
  if negb (base_dir_exists d) then []
  else match style_dirs d with
       | Raised _ => []
       | Returns dirs =>
           match load_loop d dirs with
           | Raised _ => []
           | Returns styles => styles
           end
       end.



(** The style was read from a directory of the disk: its name, its
    images. *)
Definition read_from (d : disk) (st : style) : Prop :=
  exists dirs style_dir files,
    style_dirs d = Returns dirs /\ style_dir ∈ dirs
    /\ listdir d style_dir = Returns files
    /\ name st = display_name style_dir
    /\ image_paths st
       = map (image_path style_dir) (filter (fun f => is_image_file f = true) files)
    /\ image_paths st <> [].

End Catalog.

(** * More sample inputs *)

Module MoreSamples.

(** A style directory with three images, a sidecar and its description. *)
Definition gallery : gmap (string * string) (list Byte.byte) :=
  <[("modern", "sofa_1.jpg") := [Byte.xff; Byte.xd8]]>
  (<[("modern", "sofa_1.txt") := [Byte.x50]]>
  (<[("modern", "lamp_2.jpeg") := [Byte.xff; Byte.xd8]]>
  (<[("modern", "rug_3.png") := [Byte.x89; Byte.x50]]>
  (<[("modern", "description.txt") := [Byte.x53]]> ∅)))).

Definition gallery_world : Remover.world := Remover.World gallery 0.

(** Two style directories, one of them without images. *)
Definition two_directories : Catalog.disk :=
  Catalog.Disk true (App.Returns ["mid_century"; "drafts"])
    (fun style_dir =>
       if String.eqb style_dir "mid_century"
       then Some (App.Returns "Teak and clean lines.") else None)
    (fun style_dir =>
       App.Returns
         (if String.eqb style_dir "mid_century"
          then ["sofa_1.jpg"; "sofa_1.txt"; "Lamp.PNG"; "description.txt"]
          else ["notes.txt"])).

End MoreSamples.

(** * Properties *)

(** ** Facts about the string functions *)

Module PyFacts.

Lemma app_nil_l (s : string) : EmptyString +:+ s = s.
Proof. reflexivity. Qed.

Lemma app_cons (a : ascii) (s t : string) : String a s +:+ t = String a (s +:+ t).
Proof. reflexivity. Qed.

Lemma app_assoc (s1 s2 s3 : string) : (s1 +:+ s2) +:+ s3 = s1 +:+ s2 +:+ s3.
Proof.
  induction s1 as [|a s1 IH]; [reflexivity|].
  rewrite !app_cons, IH. reflexivity.
Qed.

Lemma app_nonempty_r (s t : string) : t <> EmptyString -> s +:+ t <> EmptyString.
Proof. destruct s; [intros H; exact H | rewrite app_cons; discriminate]. Qed.

Lemma startswith_app (p s : string) : Py.startswith p (p +:+ s) = true.
Proof.
  induction p as [|a p IH]; [reflexivity|].
  rewrite app_cons. cbn [Py.startswith]. rewrite Ascii.eqb_refl. exact IH.
Qed.

Lemma startswith_empty (p : string) :
  p <> EmptyString -> Py.startswith p EmptyString = false.
Proof. destruct p; [congruence|reflexivity]. Qed.

Lemma split_char_nonempty (sep : ascii) (s : string) : Py.split_char sep s <> [].
Proof.
  induction s as [|c s IH]; cbn [Py.split_char]; [discriminate|].
  destruct (Ascii.eqb c sep); [discriminate|].
  destruct (Py.split_char sep s); discriminate.
Qed.

Lemma contains_find (p s : string) :
  Py.contains p s = true -> exists i, Py.find p s = Some i.
Proof. unfold Py.contains. destruct (Py.find p s) as [i|]; [eauto|discriminate]. Qed.

Lemma slice_upto_length_nat {A} (k : Z) (l : list A) :
  0 <= k -> length (Py.slice_upto k l) = Nat.min (Z.to_nat k) (length l).
Proof.
  intros Hk. unfold Py.slice_upto.
  destruct (k <? 0) eqn:E; [apply Z.ltb_lt in E; lia|].
  apply length_take.
Qed.

Lemma list_ascii_app (s t : string) :
  list_ascii_of_string (s +:+ t) = list_ascii_of_string s ++ list_ascii_of_string t.
Proof.
  induction s as [|a s IH]; [reflexivity|].
  rewrite app_cons. cbn [list_ascii_of_string]. rewrite IH. reflexivity.
Qed.

Lemma string_of_list_app (l k : list ascii) :
  string_of_list_ascii (l ++ k) = string_of_list_ascii l +:+ string_of_list_ascii k.
Proof.
  induction l as [|a l IH]; [reflexivity|].
  cbn [app string_of_list_ascii]. rewrite IH, app_cons. reflexivity.
Qed.

Lemma rev_string_app (s t : string) :
  Py.rev_string (s +:+ t) = Py.rev_string t +:+ Py.rev_string s.
Proof.
  unfold Py.rev_string. rewrite list_ascii_app, rev_app_distr. apply string_of_list_app.
Qed.

Lemma endswith_app (p s : string) : Py.endswith p (s +:+ p) = true.
Proof. unfold Py.endswith. rewrite rev_string_app. apply startswith_app. Qed.

(** The sidecar of a file has a name that ends with [.txt]. *)
Lemma with_suffix_txt (name : string) :
  Py.endswith ".txt" (Py.with_suffix ".txt" name) = true.
Proof. unfold Py.with_suffix. apply endswith_app. Qed.

(** A name has one ending: the three image patterns exclude each other. *)
Lemma endswith_jpg_jpeg (name : string) :
  Py.endswith ".jpg" name = true -> Py.endswith ".jpeg" name = false.
Proof.
  unfold Py.endswith. change (Py.rev_string ".jpg") with "gpj.".
  change (Py.rev_string ".jpeg") with "gepj.".
  destruct (Py.rev_string name) as [|a [|b r]]; cbn [Py.startswith]; intros H;
    try reflexivity.
  - destruct (Ascii.eqb "g" a); reflexivity.
  - destruct (Ascii.eqb "g" a); [|reflexivity].
    destruct (Ascii.eqb_spec "p" b) as [<-|]; [reflexivity|discriminate].
Qed.

Lemma endswith_jpg_png (name : string) :
  Py.endswith ".jpg" name = true -> Py.endswith ".png" name = false.
Proof.
  unfold Py.endswith. change (Py.rev_string ".jpg") with "gpj.".
  change (Py.rev_string ".png") with "gnp.".
  destruct (Py.rev_string name) as [|a [|b r]]; cbn [Py.startswith]; intros H;
    try reflexivity.
  - destruct (Ascii.eqb "g" a); reflexivity.
  - destruct (Ascii.eqb "g" a); [|reflexivity].
    destruct (Ascii.eqb_spec "p" b) as [<-|]; [reflexivity|discriminate].
Qed.

Lemma endswith_jpeg_png (name : string) :
  Py.endswith ".jpeg" name = true -> Py.endswith ".png" name = false.
Proof.
  unfold Py.endswith. change (Py.rev_string ".jpeg") with "gepj.".
  change (Py.rev_string ".png") with "gnp.".
  destruct (Py.rev_string name) as [|a [|b r]]; cbn [Py.startswith]; intros H;
    try reflexivity.
  - destruct (Ascii.eqb "g" a); reflexivity.
  - destruct (Ascii.eqb "g" a); [|reflexivity].
    destruct (Ascii.eqb_spec "e" b) as [<-|]; [reflexivity|discriminate].
Qed.

Lemma rstrip_app_keep (s t : string) :
  Py.rstrip t <> EmptyString -> Py.rstrip (s +:+ t) = s +:+ Py.rstrip t.
Proof.
  intros Ht. induction s as [|a s IH]; [reflexivity|].
  rewrite !app_cons. cbn [Py.rstrip]. rewrite IH.
  pose proof (app_nonempty_r s _ Ht) as Hne.
  destruct (s +:+ Py.rstrip t); [congruence|reflexivity].
Qed.

Lemma rstrip_keeps (c : ascii) (s : string) :
  Py.is_space c = false -> Py.rstrip (String c s) <> EmptyString.
Proof.
  intros Hc. cbn [Py.rstrip]. rewrite Hc. destruct (Py.rstrip s); discriminate.
Qed.

Lemma map_chars_app f (s t : string) :
  Py.map_chars f (s +:+ t) = Py.map_chars f s +:+ Py.map_chars f t.
Proof.
  induction s as [|a s IH]; [reflexivity|].
  rewrite app_cons. cbn [Py.map_chars]. rewrite IH, app_cons. reflexivity.
Qed.

Lemma find_from_app (q s1 s2 : string) : forall i,
  exists j, Py.find_from q (s1 +:+ q +:+ s2) i = Some j.
Proof.
  induction s1 as [|a s1 IH]; intros i.
  - rewrite app_nil_l. exists i.
    destruct (q +:+ s2) eqn:E; cbn [Py.find_from]; rewrite <- E, startswith_app; reflexivity.
  - rewrite app_cons. cbn [Py.find_from].
    destruct (Py.startswith q _); [eauto|apply IH].
Qed.

Lemma contains_app (q s1 s2 : string) : Py.contains q (s1 +:+ q +:+ s2) = true.
Proof.
  unfold Py.contains, Py.find. destruct (find_from_app q s1 s2 0) as [j ->]. reflexivity.
Qed.

End PyFacts.

(** ** Curation *)

Module CurationProps.
Import OpenAI Remover.

Lemma call_files c w r : files (call c w r).2 = files w.
Proof. reflexivity. Qed.

(** Evaluating an image only talks to the service. *)
Lemma evaluate_image_files c w img :
  files (evaluate_image c w img).2 = files w.
Proof.
  unfold evaluate_image.
  destruct (encode_image w img) as [[|a enc]|]; try reflexivity.
  cbn [call]. destruct (c (api_calls w) _); try reflexivity.
  destruct (Py.contains "YES" _); [reflexivity|].
  destruct (Py.contains "NO" _); [|reflexivity].
  cbn [call]. destruct (c _ _); reflexivity.
Qed.

Lemma process_image_dry_run c style_name w st img :
  files (process_image c true style_name (w, st) img).1 = files w.
Proof.
  unfold process_image.
  pose proof (evaluate_image_files c w img) as H.
  destruct (evaluate_image c w img) as [[good reason] w1]. simpl in H.
  destruct good; simpl; exact H.
Qed.

Lemma process_images_dry_run c style_name imgs : forall ws,
  files (fold_left (process_image c true style_name) imgs ws).1 = files ws.1.
Proof.
  induction imgs as [|img imgs IH]; intros [w st]; [reflexivity|].
  cbn [fold_left]. rewrite IH.
  destruct (process_image c true style_name (w, st) img) as [w1 st1] eqn:E.
  change w1 with (w1, st1).1. rewrite <- E. apply process_image_dry_run.
Qed.

Lemma process_style_dry_run c limit style_name ws :
  files (process_style c true limit ws style_name).1 = files ws.1.
Proof.
  destruct ws as [w st]. unfold process_style.
  rewrite process_images_dry_run. reflexivity.
Qed.

Lemma process_styles_dry_run c limit dirs : forall ws,
  files (fold_left (process_style c true limit) dirs ws).1 = files ws.1.
Proof.
  induction dirs as [|d dirs IH]; intros ws; [reflexivity|].
  cbn [fold_left]. rewrite IH. apply process_style_dry_run.
Qed.

(** C1. In a dry run (the [--delete] flag absent) the run leaves every
    file where it is, whatever the classifier answers: the tree of
    images after the run is the tree before it, so neither an image
    nor a metadata sidecar has been unlinked. *)
Theorem dry_run_deletes_nothing e c limit w :
  files (main e c false limit w).2 = files w
  /\ forall style_name st img,
       files (process_image c true style_name (w, st) img).1 = files w.
Proof.
  split; [|intros; apply process_image_dry_run].
  unfold main, process_directories. cbn [negb].
  destruct (api_key e) as [[|a k]|]; try reflexivity.
  destruct (base_dir_exists e); cbn [negb]; [|reflexivity].
  pose proof (process_styles_dry_run c limit (style_dirs e) (w, empty_stats)) as H.
  destruct (fold_left _ _ _) as [w' st']. exact H.
Qed.

Lemma delete_rejected_files style_name img w st :
  is_Some (files w !! img) ->
  files (delete_rejected style_name img (w, st)).1
  = delete (metadata_file img) (delete img (files w)).
Proof.
  intros [data Hdata]. unfold delete_rejected, unlink. rewrite Hdata.
  cbn [files api_calls].
  destruct (delete img (files w) !! metadata_file img) eqn:Hmeta; cbn [fst files].
  - reflexivity.
  - symmetry. apply delete_id. exact Hmeta.
Qed.

(** C3. In destructive mode, for an image that is on disk when it is
    processed: when the classifier rejects it, the image and its
    sidecar are gone afterwards and every other file is as it was;
    when the classifier accepts it, the tree is unchanged, so neither
    the image nor its sidecar has been deleted. *)
Theorem destructive_run_deletes_rejected_only c style_name w st img :
  is_Some (files w !! img) ->
  let verdict := (evaluate_image c w img).1.1 in
  let w' := (process_image c false style_name (w, st) img).1 in
  (verdict = false ->
     files w' !! img = None /\ files w' !! metadata_file img = None
     /\ files w' = delete (metadata_file img) (delete img (files w)))
  /\ (verdict = true -> files w' = files w).
Proof.
  intros Hex. cbn zeta. unfold process_image.
  pose proof (evaluate_image_files c w img) as Hf.
  destruct (evaluate_image c w img) as [[good reason] w1]. cbn [fst snd] in *.
  destruct good.
  - split; [discriminate|]. intros _. exact Hf.
  - split; [|discriminate]. intros _.
    rewrite delete_rejected_files by (rewrite Hf; exact Hex).
    rewrite Hf. split; [|split; [|reflexivity]].
    + destruct (decide (metadata_file img = img)) as [->|Hne].
      * apply lookup_delete_eq.
      * rewrite lookup_delete_ne by exact Hne. apply lookup_delete_eq.
    + apply lookup_delete_eq.
Qed.

Lemma destructive_run_deletes_rejected_only_witness :
  is_Some (files Samples.world0 !! Samples.img)
  /\ (evaluate_image Samples.rejecting Samples.world0 Samples.img).1.1 = false
  /\ files (process_image Samples.rejecting false "modern"
              (Samples.world0, empty_stats) Samples.img).1 !! Samples.sidecar = None
  /\ files (process_image Samples.accepting false "modern"
              (Samples.world0, empty_stats) Samples.img).1 = files Samples.world0.
Proof.
  assert (Hex : is_Some (files Samples.world0 !! Samples.img))
    by (vm_compute; eauto).
  split; [exact Hex|]. split; [vm_compute; reflexivity|].
  split.
  - apply (proj1 (destructive_run_deletes_rejected_only
                    Samples.rejecting "modern" Samples.world0 empty_stats Samples.img Hex)).
    vm_compute; reflexivity.
  - apply (proj2 (destructive_run_deletes_rejected_only
                    Samples.accepting "modern" Samples.world0 empty_stats Samples.img Hex)).
    vm_compute; reflexivity.
Defined.

Lemma b64encode_nonempty data : data <> [] -> Py.b64encode data <> EmptyString.
Proof. destruct data as [|a [|b [|d r]]]; [congruence| | |]; discriminate. Qed.

(** What the code does with an image whose first call raises, in
    destructive mode: one call and no second one, the verdict of a
    rejection, the [removed] counter, and the file gone. *)
Lemma api_failure_is_a_rejection c w st style_name img data e :
  files w !! img = Some data -> data <> [] ->
  c (api_calls w) (Request "gpt-4o" (first_messages (Py.b64encode data)) 50) = Raises e ->
  evaluate_image c w img
  = ((false, "API error: " +:+ e), World (files w) (S (api_calls w)))
  /\ let ws' := process_image c false style_name (w, st) img in
     files ws'.1 !! img = None
     /\ api_calls ws'.1 = S (api_calls w)
     /\ removed ws'.2 = removed st + 1
     /\ kept ws'.2 = kept st
     /\ errors ws'.2 = errors st.
Proof.
  intros Hdata Hne Hc.
  assert (Hev : evaluate_image c w img
                = ((false, "API error: " +:+ e), World (files w) (S (api_calls w)))).
  { unfold evaluate_image, encode_image. rewrite Hdata.
    pose proof (b64encode_nonempty data Hne) as Hb.
    destruct (Py.b64encode data) as [|a enc] eqn:Hb64; [congruence|].
    unfold call. rewrite Hc. reflexivity. }
  split; [exact Hev|]. cbn zeta.
  unfold process_image. rewrite Hev.
  unfold delete_rejected, unlink. cbn [files api_calls]. rewrite Hdata.
  cbn [files api_calls].
  destruct (delete img (files w) !! metadata_file img) eqn:Hm; cbn.
  - repeat split; try lia.
    destruct (decide (metadata_file img = img)) as [Heq|Hneq].
    + rewrite Heq. apply lookup_delete_eq.
    + rewrite lookup_delete_ne by exact Hneq. apply lookup_delete_eq.
  - repeat split; try lia. apply lookup_delete_eq.
Qed.

(** C2, at an input. A destructive run over one image and its sidecar
    while the service is down: the call is made once, the image is
    counted as removed (one removed, no error, none kept), and the
    image and its sidecar are deleted.  The specification has the
    image counted as an error and left on disk. *)
Theorem api_failure_deletes_the_image :
  let r := main Samples.curation_env Samples.down true None Samples.world0 in
  (total_processed <$> r.1) = Some 1
  /\ (kept <$> r.1) = Some 0
  /\ (removed <$> r.1) = Some 1
  /\ (errors <$> r.1) = Some 0
  /\ api_calls r.2 = 1%nat
  /\ files r.2 !! Samples.img = None
  /\ files r.2 !! Samples.sidecar = None.
Proof. vm_compute. repeat split; reflexivity. Qed.

(** *** Every image of a pass is on disk when its turn comes *)

Lemma process_image_files c dry_run style_name w st img :
  is_Some (files w !! img) ->
  files (process_image c dry_run style_name (w, st) img).1 = files w
  \/ files (process_image c dry_run style_name (w, st) img).1
     = delete (metadata_file img) (delete img (files w)).
Proof.
  intros Hex. unfold process_image.
  pose proof (evaluate_image_files c w img) as Hf.
  destruct (evaluate_image c w img) as [[good reason] w1]. cbn [fst snd] in *.
  destruct good; [left; exact Hf|].
  destruct dry_run; [left; exact Hf|]. right.
  rewrite delete_rejected_files by (rewrite Hf; exact Hex). rewrite Hf. reflexivity.
Qed.

Lemma glob_spec style_dir ext w (p : path) :
  p ∈ glob style_dir ext w
  <-> (p.1 = style_dir /\ Py.endswith ext p.2 = true) /\ is_Some (files w !! p).
Proof.
  unfold glob. rewrite list_elem_of_filter. apply and_iff_compat_l.
  rewrite list_elem_of_In, in_map_iff. split.
  - intros ([k v] & <- & Hin). apply list_elem_of_In, elem_of_map_to_list in Hin.
    cbn. eauto.
  - intros [v Hv]. exists (p, v). split; [reflexivity|].
    apply list_elem_of_In, elem_of_map_to_list. exact Hv.
Qed.

Lemma keys_NoDup (w : world) : NoDup (map fst (map_to_list (files w))).
Proof. exact (NoDup_fst_map_to_list (files w)). Qed.

Lemma glob_NoDup style_dir ext w : NoDup (glob style_dir ext w).
Proof. unfold glob. apply NoDup_filter, keys_NoDup. Qed.

Lemma image_files_of_spec style_dir w (p : path) :
  p ∈ image_files_of style_dir w ->
  is_Some (files w !! p) /\ Py.endswith ".txt" p.2 = false.
Proof.
  unfold image_files_of. rewrite list_elem_of_filter, !elem_of_app, !glob_spec. tauto.
Qed.

Lemma image_files_of_NoDup style_dir w : NoDup (image_files_of style_dir w).
Proof.
  unfold image_files_of. apply NoDup_filter.
  apply NoDup_app. split; [apply glob_NoDup|]. split.
  - intros p Hjpg Hrest. apply glob_spec in Hjpg as [[_ Hjpg] _].
    apply elem_of_app in Hrest as [H|H]; apply glob_spec in H as [[_ H] _].
    + rewrite (PyFacts.endswith_jpg_jpeg _ Hjpg) in H. discriminate.
    + rewrite (PyFacts.endswith_jpg_png _ Hjpg) in H. discriminate.
  - apply NoDup_app. split; [apply glob_NoDup|]. split; [|apply glob_NoDup].
    intros p Hjpeg Hpng. apply glob_spec in Hjpeg as [[_ Hjpeg] _].
    apply glob_spec in Hpng as [[_ Hpng] _].
    rewrite (PyFacts.endswith_jpeg_png _ Hjpeg) in Hpng. discriminate.
Qed.

Lemma apply_limit_sublist limit st (l : list path) : apply_limit limit st l `sublist_of` l.
Proof.
  unfold apply_limit. destruct limit as [k|]; [|reflexivity].
  destruct (_ && _); [|reflexivity].
  unfold Py.slice_upto. destruct (_ <? 0); apply sublist_take.
Qed.

Lemma visits_on_disk c dry_run style_name imgs : forall ws,
  NoDup imgs ->
  (forall img, img ∈ imgs ->
     is_Some (files ws.1 !! img) /\ Py.endswith ".txt" img.2 = false) ->
  Forall (fun v : path * world => is_Some (files v.2 !! v.1))
         (visits c dry_run style_name imgs ws).
Proof.
  induction imgs as [|img imgs IH]; intros [w st] Hnd Hall; cbn [visits]; [constructor|].
  apply NoDup_cons in Hnd as [Hnotin Hnd].
  destruct (Hall img) as [Hex Htxt]; [left|].
  constructor; [exact Hex|].
  destruct (process_image c dry_run style_name (w, st) img) as [w' st'] eqn:E.
  apply IH; [exact Hnd|]. intros img' Hin.
  destruct (Hall img') as [Hex' Htxt']; [right; exact Hin|].
  split; [|exact Htxt']. cbn [fst] in *.
  pose proof (process_image_files c dry_run style_name w st img Hex) as Hf.
  rewrite E in Hf. cbn [fst] in Hf.
  destruct Hf as [->| ->]; [exact Hex'|].
  rewrite lookup_delete_ne, lookup_delete_ne; [exact Hex'| |];
    [intros <-; contradiction|].
  intros Heq. rewrite <- Heq in Htxt'. unfold metadata_file in Htxt'. cbn [snd] in Htxt'.
  rewrite PyFacts.with_suffix_txt in Htxt'. discriminate.
Qed.

(** In a pass over a style directory, whatever the mode and the limit,
    each image is on disk when it is processed: the list holds no image
    twice, and a sidecar that an earlier rejection deleted is no image of
    the list. *)
Lemma processed_images_are_on_disk c dry_run limit style_name w st :
  Forall (fun v : path * world => is_Some (files v.2 !! v.1))
         (visits c dry_run style_name
            (apply_limit limit st (image_files_of style_name w)) (w, st)).
Proof.
  pose proof (apply_limit_sublist limit st (image_files_of style_name w)) as Hsub.
  apply visits_on_disk.
  - eapply sublist_NoDup; [apply image_files_of_NoDup|exact Hsub].
  - intros img Hin. apply (image_files_of_spec style_name).
    eapply sublist_subseteq; [exact Hsub|exact Hin].
Qed.

(** [visits] pairs an image with the world the loop has reached before
    it: the world after the images that precede it. *)
Lemma visits_snoc c dry_run style_name imgs img : forall ws,
  visits c dry_run style_name (imgs ++ [img]) ws
  = visits c dry_run style_name imgs ws
    ++ [(img, (fold_left (process_image c dry_run style_name) imgs ws).1)].
Proof.
  induction imgs as [|i imgs IH]; intros ws; [reflexivity|].
  cbn [app visits fold_left]. rewrite IH. reflexivity.
Qed.

End CurationProps.

(** ** Acquisition *)

Module AcquisitionProps.
Import Downloader.

Section WithRandom.
Context {rng : Type}.
Variable shuffle : rng -> list photo -> list photo * rng.
Variable net : network.

Lemma save_if_large_small style_dir keyword p width height (s : state (rng := rng)) :
  width < MIN_IMAGE_SIZE \/ height < MIN_IMAGE_SIZE ->
  save_if_large style_dir keyword p width height s = s.
Proof.
  intros H. unfold save_if_large.
  destruct (MIN_IMAGE_SIZE <=? width) eqn:Hw; [|reflexivity].
  destruct (MIN_IMAGE_SIZE <=? height) eqn:Hh; [|reflexivity].
  apply Z.leb_le in Hw, Hh. lia.
Qed.

(** When a photo changes the tree, its bytes were fetched with
    status 200 and decoded to a size that meets the threshold. *)
Lemma download_photo_writes style_dir keyword (s : state (rng := rng)) p :
  files (download_photo net style_dir keyword s p) <> files s ->
  exists url r width height,
    src_large p = Some url /\ net (http_calls s) url = Some r
    /\ status_code r = 200 /\ image_size r = Some (width, height)
    /\ MIN_IMAGE_SIZE <= width /\ MIN_IMAGE_SIZE <= height.
Proof.
  unfold download_photo, get.
  destruct (src_large p) as [url|]; [|congruence].
  destruct (net (http_calls s) url) as [r|] eqn:Hr; [|cbn; congruence].
  destruct (status_code r =? 200) eqn:Hst; [|cbn; congruence].
  destruct (image_size r) as [[width height]|] eqn:Hsz; [|cbn; congruence].
  unfold save_if_large.
  destruct (MIN_IMAGE_SIZE <=? width) eqn:Hw; [|cbn; congruence].
  destruct (MIN_IMAGE_SIZE <=? height) eqn:Hh; [|cbn; congruence].
  intros _. exists url, r, width, height.
  apply Z.eqb_eq in Hst. apply Z.leb_le in Hw, Hh. repeat split; assumption.
Qed.

End WithRandom.

(** C6. A photo whose downloaded bytes decode to a width or a height
    below 400 pixels leaves the style directory as it was, with
    neither an image nor a sidecar written and the count of saved
    images unchanged, whatever size the search metadata announced;
    and a photo that does change the directory was decoded to a width
    and a height of at least 400. *)
Theorem small_images_are_rejected {rng : Type} (net : network)
    (style_dir keyword : string) (s : state (rng := rng)) (p : photo) :
  (forall url r width height,
      src_large p = Some url -> net (http_calls s) url = Some r ->
      image_size r = Some (width, height) ->
      width < 400 \/ height < 400 ->
      files (download_photo net style_dir keyword s p) = files s
      /\ total_downloaded (download_photo net style_dir keyword s p)
         = total_downloaded s)
  /\ (files (download_photo net style_dir keyword s p) <> files s ->
      exists url r width height,
        src_large p = Some url /\ net (http_calls s) url = Some r
        /\ image_size r = Some (width, height)
        /\ 400 <= width /\ 400 <= height).
Proof.
  split.
  - intros url r width height Hsrc Hnet Hsz Hsmall.
    unfold download_photo, get. rewrite Hsrc, Hnet.
    destruct (status_code r =? 200); [|split; reflexivity].
    rewrite Hsz. rewrite save_if_large_small by exact Hsmall.
    split; reflexivity.
  - intros Hch. destruct (download_photo_writes net style_dir keyword s p Hch)
      as (url & r & width & height & H1 & H2 & _ & H3 & H4 & H5).
    exists url, r, width, height. repeat split; assumption.
Qed.

Lemma small_images_are_rejected_witness :
  files (download_photo Samples.thumbnail "modern" "sofa" Samples.fresh
           (Samples.photo_of 0 1)) = files Samples.fresh
  /\ total_downloaded (download_photo Samples.thumbnail "modern" "sofa" Samples.fresh
                         (Samples.photo_of 0 1)) = 0.
Proof.
  apply (proj1 (small_images_are_rejected Samples.thumbnail "modern" "sofa"
                  Samples.fresh (Samples.photo_of 0 1))
           "https://images.pexels.com/photos/large.jpg"
           (Response 200 None (Some (300, 200))) 300 200);
    [reflexivity | reflexivity | reflexivity | lia].
Defined.

(** *** The count of a style never passes the share of one keyword *)

Section Bound.
Context {rng : Type}.
Variable shuffle : rng -> list photo -> list photo * rng.
Variable net : network.

Lemma download_photo_total style_dir keyword (s : state (rng := rng)) p :
  total_downloaded s <= total_downloaded (download_photo net style_dir keyword s p)
  <= total_downloaded s + 1.
Proof.
  unfold download_photo, get.
  destruct (src_large p); [|lia].
  destruct (net _ _) as [r|]; cbn; [|lia].
  destruct (status_code r =? 200); cbn; [|lia].
  destruct (image_size r) as [[width height]|]; cbn; [|lia].
  unfold save_if_large. destruct (_ && _); cbn; lia.
Qed.

Lemma download_photos_total style_dir keyword max_images photos :
  forall s : state (rng := rng),
    total_downloaded s
    <= total_downloaded (download_photos net style_dir keyword max_images photos s)
    <= total_downloaded s + Z.of_nat (length photos).
Proof.
  induction photos as [|p photos IH]; intros s; cbn [download_photos length].
  - lia.
  - destruct (max_images <=? total_downloaded s); [lia|].
    pose proof (download_photo_total style_dir keyword s p).
    pose proof (IH (download_photo net style_dir keyword s p)). lia.
Qed.

Lemma slice_upto_length {A} (k : Z) (l : list A) :
  0 <= k -> Z.of_nat (length (Py.slice_upto k l)) <= k.
Proof.
  intros Hk. unfold Py.slice_upto.
  destruct (k <? 0) eqn:E; [apply Z.ltb_lt in E; lia|].
  rewrite length_take. lia.
Qed.

Lemma run_queries_total style_dir keyword max_images ipk queries :
  forall s : state (rng := rng),
    total_downloaded s <= Z.max 0 ipk ->
    total_downloaded
      (run_queries shuffle net style_dir keyword max_images ipk queries s)
    <= Z.max 0 ipk.
Proof.
  induction queries as [|q queries IH]; intros s Hs; cbn [run_queries]; [exact Hs|].
  destruct (ipk <=? total_downloaded s) eqn:Hbreak; [exact Hs|].
  apply Z.leb_gt in Hbreak.
  unfold get. cbn [fst snd].
  destruct (net (http_calls s) (search_url q)) as [r|]; [|apply IH; exact Hs].
  destruct (negb (status_code r =? 200)); [apply IH; exact Hs|].
  destruct (json_photos r) as [[|p photos]|]; try (apply IH; exact Hs).
  cbn [gen files http_calls total_downloaded].
  destruct (shuffle (gen s) (p :: photos)) as [shuffled g].
  cbn [total_downloaded].
  set (s2 := State (files s) (S (http_calls s)) g (total_downloaded s)).
  pose proof (download_photos_total style_dir keyword max_images
                (Py.slice_upto (ipk - total_downloaded s) shuffled) s2) as Hd.
  pose proof (slice_upto_length (ipk - total_downloaded s) shuffled) as Hl.
  change (total_downloaded s2) with (total_downloaded s) in Hd.
  destruct (0 <? total_downloaded (download_photos _ _ _ _ _ s2)).
  - lia.
  - apply IH. lia.
Qed.

Lemma run_keywords_total style_name style_dir max_images ipk keywords :
  forall s : state (rng := rng),
    total_downloaded s <= Z.max 0 ipk ->
    total_downloaded
      (fold_left (run_keyword shuffle net style_name style_dir max_images ipk)
                 keywords s)
    <= Z.max 0 ipk.
Proof.
  induction keywords as [|k keywords IH]; intros s Hs; cbn [fold_left]; [exact Hs|].
  apply IH. unfold run_keyword. apply run_queries_total. exact Hs.
Qed.

(** X7.  Whatever the searches return, the count a style ends with is at
    most [max_images // len(search_keywords)]: the loop compares the
    count of the whole style with the share of one keyword. *)
Lemma downloads_bounded_by_keyword_share key st max_images
    (s : state (rng := rng)) n keywords :
  search_keywords st = Some keywords ->
  (download_pexels_images shuffle net key st max_images s).1 = Returns n ->
  n <= Z.max 0 (max_images / Z.of_nat (length keywords)).
Proof.
  intros Hk. unfold download_pexels_images. rewrite Hk.
  destruct keywords as [|k0 keywords]; [cbn [fst]; intros [= <-]; apply Z.le_max_l|].
  destruct key as [[|a key]|]; try (cbn; discriminate).
  destruct (String.eqb _ _); [cbn; discriminate|].
  unfold get. cbn [fst snd http_calls files gen total_downloaded].
  destruct (net _ test_url) as [r|]; [|cbn; discriminate].
  destruct (negb (status_code r =? 200)); [cbn; discriminate|].
  cbn [fst]. intros [= <-].
  apply (run_keywords_total _ _ _ _ (k0 :: keywords)).
  cbn [total_downloaded]. apply Z.le_max_l.
Qed.

End Bound.

(** *** Whatever a run adds to the tree meets the threshold *)

Section Added.
Context {rng : Type}.
Variable shuffle : rng -> list photo -> list photo * rng.
Variable net : network.

Lemma only_large_added_refl fs : only_large_added fs fs.
Proof. intros p f H. left. exact H. Qed.

Lemma only_large_added_trans fs1 fs2 fs3 :
  only_large_added fs1 fs2 -> only_large_added fs2 fs3 -> only_large_added fs1 fs3.
Proof.
  intros H12 H23 p f H. destruct (H23 p f H) as [H2|Hl]; [apply H12; exact H2|right; exact Hl].
Qed.

Lemma save_if_large_added style_dir keyword p width height (s : state (rng := rng)) :
  only_large_added (files s) (files (save_if_large style_dir keyword p width height s)).
Proof.
  unfold save_if_large.
  destruct (MIN_IMAGE_SIZE <=? width) eqn:Hw; [|apply only_large_added_refl].
  destruct (MIN_IMAGE_SIZE <=? height) eqn:Hh; [|apply only_large_added_refl].
  apply Z.leb_le in Hw, Hh. cbn [andb files]. intros q f Hq.
  destruct (decide ((style_dir, file_stem keyword p +:+ ".txt") = q)) as [<-|Hne1].
  - rewrite lookup_insert_eq in Hq. injection Hq as <-. right. exact I.
  - rewrite lookup_insert_ne in Hq by exact Hne1.
    destruct (decide ((style_dir, file_stem keyword p +:+ ".jpg") = q)) as [<-|Hne2].
    + rewrite lookup_insert_eq in Hq. injection Hq as <-. right. split; assumption.
    + rewrite lookup_insert_ne in Hq by exact Hne2. left. exact Hq.
Qed.

Lemma download_photo_added style_dir keyword (s : state (rng := rng)) p :
  only_large_added (files s) (files (download_photo net style_dir keyword s p)).
Proof.
  unfold download_photo, get.
  destruct (src_large p); [|apply only_large_added_refl].
  destruct (net _ _) as [r|]; [|apply only_large_added_refl].
  destruct (status_code r =? 200); [|apply only_large_added_refl].
  destruct (image_size r) as [[width height]|]; [|apply only_large_added_refl].
  apply (save_if_large_added style_dir keyword p width height
           (State (files s) (S (http_calls s)) (gen s) (total_downloaded s))).
Qed.

Lemma download_photos_added style_dir keyword max_images photos :
  forall s : state (rng := rng),
    only_large_added (files s)
      (files (download_photos net style_dir keyword max_images photos s)).
Proof.
  induction photos as [|p photos IH]; intros s; cbn [download_photos];
    [apply only_large_added_refl|].
  destruct (max_images <=? total_downloaded s); [apply only_large_added_refl|].
  eapply only_large_added_trans; [apply download_photo_added|apply IH].
Qed.

Lemma run_queries_added style_dir keyword max_images ipk queries :
  forall s : state (rng := rng),
    only_large_added (files s)
      (files (run_queries shuffle net style_dir keyword max_images ipk queries s)).
Proof.
  induction queries as [|q queries IH]; intros s; cbn [run_queries];
    [apply only_large_added_refl|].
  destruct (ipk <=? total_downloaded s); [apply only_large_added_refl|].
  unfold get. cbn [fst snd].
  destruct (net (http_calls s) (search_url q)) as [r|]; [|apply (IH (State _ _ _ _))].
  destruct (negb (status_code r =? 200)); [apply (IH (State _ _ _ _))|].
  destruct (json_photos r) as [[|p photos]|]; try apply (IH (State _ _ _ _)).
  cbn [gen files http_calls total_downloaded].
  destruct (shuffle (gen s) (p :: photos)) as [shuffled g].
  cbn [total_downloaded].
  set (s2 := State (files s) (S (http_calls s)) g (total_downloaded s)).
  pose proof (download_photos_added style_dir keyword max_images
                (Py.slice_upto (ipk - total_downloaded s) shuffled) s2) as Hd.
  destruct (0 <? total_downloaded (download_photos _ _ _ _ _ s2)); [exact Hd|].
  eapply only_large_added_trans; [exact Hd|apply IH].
Qed.

Lemma run_keywords_added style_name style_dir max_images ipk keywords :
  forall s : state (rng := rng),
    only_large_added (files s)
      (files (fold_left (run_keyword shuffle net style_name style_dir max_images ipk)
                keywords s)).
Proof.
  induction keywords as [|k keywords IH]; intros s; cbn [fold_left];
    [apply only_large_added_refl|].
  eapply only_large_added_trans; [|apply IH]. apply run_queries_added.
Qed.

(** X8.  Over a whole call of [download_pexels_images]: every image file
    found in the tree afterwards that was not there before, as it is,
    has a decoded width and height of at least 400. *)
Lemma run_saves_large_images_only key st max_images (s : state (rng := rng)) :
  only_large_added (files s)
    (files (download_pexels_images shuffle net key st max_images s).2).
Proof.
  unfold download_pexels_images.
  destruct (search_keywords st) as [[|k0 keywords]|]; try apply only_large_added_refl.
  destruct key as [[|a key]|]; try apply only_large_added_refl.
  destruct (String.eqb _ _); [apply only_large_added_refl|].
  unfold get. cbn [fst snd http_calls files gen total_downloaded].
  destruct (net _ test_url) as [r|]; [|apply only_large_added_refl].
  destruct (negb (status_code r =? 200)); [apply only_large_added_refl|].
  cbn [snd].
  apply (run_keywords_added _ _ _ _ (k0 :: keywords) (State (files s) _ _ _)).
Qed.

End Added.

(** C5, at an input. A style with two keywords and the default quota
    of 70, against a service that answers each of the six searches
    with thirty photos, all of them large enough: the run saves 35
    images, the share of one keyword, and not 70. *)
Theorem quota_is_cut_to_one_keyword_share :
  (download_pexels_images Samples.keep_order Samples.generous (Some "pexels-key")
     Samples.two_keywords IMAGES_PER_STYLE Samples.fresh).1 = Returns 35.
Proof. vm_compute. reflexivity. Qed.

End AcquisitionProps.

(** ** Segmentation and generation *)

Module SegmentationProps.
Import OpenAI App.

(** A marker line is not empty. *)
Lemma is_marker_nonempty prefix part :
  prefix <> EmptyString -> is_marker prefix part = true -> part <> EmptyString.
Proof.
  intros Hp H ->. unfold is_marker in H. cbn in H.
  rewrite PyFacts.startswith_empty in H by exact Hp. discriminate.
Qed.

Lemma split_step_current prefix acc part :
  prefix <> EmptyString -> (split_step prefix acc part).2 <> EmptyString.
Proof.
  intros Hp. destruct acc as [options current]. unfold split_step.
  destruct (is_marker prefix part) eqn:E; cbn [snd].
  - eapply is_marker_nonempty; eauto.
  - apply PyFacts.app_nonempty_r. discriminate.
Qed.

Lemma fold_split_step_current prefix parts : forall acc,
  prefix <> EmptyString -> parts <> [] ->
  (fold_left (split_step prefix) parts acc).2 <> EmptyString.
Proof.
  induction parts as [|p parts IH]; intros acc Hp Hne; [congruence|].
  cbn [fold_left]. destruct parts as [|q parts].
  - apply split_step_current. exact Hp.
  - apply IH; [exact Hp|discriminate].
Qed.

Lemma flush_nonempty current options :
  current <> EmptyString -> flush current options <> [].
Proof.
  intros H. unfold flush. destruct current; [congruence|].
  destruct options; discriminate.
Qed.

(** A line that starts with [OPTION ], a number and a colon is a
    marker line of the first strategy. *)
Lemma option_marker_line (n title : string) :
  is_marker "OPTION " ("OPTION " +:+ n +:+ ":" +:+ title) = true.
Proof.
  unfold is_marker. apply andb_true_intro. split.
  - unfold Py.strip.
    change (Py.lstrip ("OPTION " +:+ n +:+ ":" +:+ title))
      with ("OPTION " +:+ n +:+ ":" +:+ title).
    rewrite PyFacts.rstrip_app_keep.
    + unfold Py.upper. rewrite PyFacts.map_chars_app.
      apply (PyFacts.startswith_app "OPTION ").
    + rewrite PyFacts.rstrip_app_keep; [apply PyFacts.app_nonempty_r|];
        apply (PyFacts.rstrip_keeps ":" title); reflexivity.
  - apply (PyFacts.contains_app ":" ("OPTION " +:+ n) title).
Qed.

(** The line loop always ends with at least one segment. *)
Lemma split_by_marker_nonempty prefix text :
  prefix <> EmptyString -> split_by_marker prefix text <> [].
Proof.
  intros Hp. unfold split_by_marker.
  pose proof (fold_split_step_current prefix (Py.split_lines text) ([], EmptyString)
                Hp (PyFacts.split_char_nonempty _ text)) as H.
  destruct (fold_left _ _ _) as [options current].
  apply flush_nonempty. exact H.
Qed.

Lemma split_numbered_length text parts :
  Forall (fun p => Py.contains p text = true) parts ->
  length (split_numbered text parts) = length parts.
Proof.
  induction 1 as [|p parts Hp Hall IH]; [reflexivity|].
  destruct parts as [|q parts].
  - cbn. destruct (PyFacts.contains_find _ _ Hp) as [i ->]. reflexivity.
  - change (split_numbered text (p :: q :: parts))
      with (match Py.find p text, Py.find q text with
            | Some start_idx, Some end_idx =>
                Py.slice start_idx end_idx text :: split_numbered text (q :: parts)
            | _, _ => split_numbered text (q :: parts)
            end).
    destruct (PyFacts.contains_find _ _ Hp) as [i ->].
    inversion Hall as [|? ? Hq _]; subst.
    destruct (PyFacts.contains_find _ _ Hq) as [j ->].
    cbn [length]. rewrite IH. reflexivity.
Qed.

Lemma numbered_parts_nonempty num_options text :
  1 <= num_options -> Py.contains "1." text = true ->
  numbered_parts num_options text <> [].
Proof.
  intros Hn H1. unfold numbered_parts.
  destruct (Z.to_nat num_options) as [|n] eqn:E; [lia|].
  cbn [seq map]. change (Py.str_of_nat 1 +:+ ".") with "1.".
  rewrite filter_cons_True by exact H1. discriminate.
Qed.

Lemma numbered_parts_found num_options text :
  Forall (fun p => Py.contains p text = true) (numbered_parts num_options text).
Proof.
  unfold numbered_parts. apply Forall_forall. intros p Hp.
  apply list_elem_of_filter in Hp. tauto.
Qed.

(** With a count of at least one, every strategy yields a segment. *)
Lemma segments_nonempty num_options text :
  1 <= num_options -> segments num_options text <> [].
Proof.
  intros Hn. unfold segments.
  destruct (Py.contains "OPTION 1" _); [apply split_by_marker_nonempty; discriminate|].
  destruct (Py.contains "DESIGN OPTION 1" _);
    [apply split_by_marker_nonempty; discriminate|].
  destruct (Py.contains "1." text) eqn:H1; cbn [andb]; [|discriminate].
  destruct (Py.contains "2." text); [|discriminate].
  intros Hnil.
  pose proof (split_numbered_length text _ (numbered_parts_found num_options text)) as Hl.
  rewrite Hnil in Hl. cbn in Hl.
  apply (numbered_parts_nonempty num_options text Hn H1).
  destruct (numbered_parts num_options text); [reflexivity|discriminate].
Qed.

Lemma pad_loop_length k first : forall options,
  length (pad_loop k first options) = (length options + k)%nat.
Proof.
  induction k as [|k IH]; intros options; cbn [pad_loop]; [lia|].
  rewrite IH, length_app. cbn. lia.
Qed.

(** The segments survive the padding in their places. *)
Lemma pad_loop_prefix k first : forall options,
  options `prefix_of` pad_loop k first options.
Proof.
  induction k as [|k IH]; intros options; cbn [pad_loop]; [reflexivity|].
  etrans; [|apply IH]. apply prefix_app_r. reflexivity.
Qed.

(** Padding and truncation: the requested count comes out, for every
    count that is not negative, unless [options[0]] raises. *)
Lemma parse_options_length num_options text :
  0 <= num_options ->
  (1 <= num_options -> segments num_options text <> []) ->
  exists options,
    parse_options num_options text = Returns options
    /\ Z.of_nat (length options) = num_options.
Proof.
  intros H0 Hne. unfold parse_options, pad.
  destruct (Z.of_nat (length (segments num_options text)) <? num_options) eqn:Hlt.
  - apply Z.ltb_lt in Hlt.
    destruct (segments num_options text) as [|first rest] eqn:Hs.
    + exfalso. apply Hne; [cbn in Hlt; lia|reflexivity].
    + eexists. split; [reflexivity|].
      unfold truncate. rewrite pad_loop_length. cbn [length] in *.
      destruct (_ <? _) eqn:Ht; [apply Z.ltb_lt in Ht; lia|].
      rewrite pad_loop_length. cbn [length]. lia.
  - apply Z.ltb_ge in Hlt. eexists. split; [reflexivity|].
    unfold truncate. destruct (_ <? _) eqn:Ht.
    + rewrite PyFacts.slice_upto_length_nat by exact H0. lia.
    + apply Z.ltb_ge in Ht. lia.
Qed.

Import Reply.

(** Lines that are no markers are appended to the current segment. *)
Lemma fold_body prefix body : forall options current,
  Forall (fun l => is_marker prefix l = false) body ->
  fold_left (split_step prefix) body (options, current)
  = (options, fold_left (fun c l => c +:+ Py.nl +:+ l) body current).
Proof.
  induction body as [|l body IH]; intros options current Hb; [reflexivity|].
  inversion Hb as [|? ? Hl Hrest]; subst.
  cbn [fold_left]. unfold split_step at 2. rewrite Hl. apply IH. exact Hrest.
Qed.

Lemma join_fold body : forall m,
  fold_left (fun c l => c +:+ Py.nl +:+ l) body m = Py.join Py.nl (m :: body).
Proof.
  induction body as [|l body IH]; intros m; [reflexivity|].
  cbn [fold_left]. rewrite IH.
  destruct body as [|x body]; [reflexivity|].
  change (Py.join Py.nl ((m +:+ Py.nl +:+ l) :: x :: body))
    with ((m +:+ Py.nl +:+ l) +:+ Py.nl +:+ Py.join Py.nl (x :: body)).
  change (Py.join Py.nl (m :: l :: x :: body))
    with (m +:+ Py.nl +:+ l +:+ Py.nl +:+ Py.join Py.nl (x :: body)).
  rewrite !PyFacts.app_assoc. reflexivity.
Qed.

Lemma join_block_nonempty prefix (b : block) :
  prefix <> EmptyString -> well_formed prefix b ->
  Py.join Py.nl (block_lines b) <> EmptyString.
Proof.
  intros Hp [Hm _]. pose proof (is_marker_nonempty _ _ Hp Hm) as Hne.
  destruct b as [m body]. cbn in *. destruct m as [|a m]; [congruence|].
  destruct body; [discriminate|]. rewrite PyFacts.app_cons. discriminate.
Qed.

(** One block: the segment before it is closed, the block becomes the
    current segment. *)
Lemma fold_block prefix (b : block) options current :
  well_formed prefix b ->
  fold_left (split_step prefix) (block_lines b) (options, current)
  = (flush current options, Py.join Py.nl (block_lines b)).
Proof.
  intros [Hm Hb]. destruct b as [m body]. cbn [fst snd] in *.
  unfold block_lines. cbn [fst snd fold_left].
  unfold split_step at 2. rewrite Hm.
  rewrite fold_body by exact Hb. rewrite join_fold. reflexivity.
Qed.

Lemma flush_cons a current options :
  flush (String a current) options = options ++ [Py.strip (String a current)].
Proof. reflexivity. Qed.

Lemma fold_blocks prefix blocks : forall options current,
  prefix <> EmptyString -> current <> EmptyString ->
  Forall (well_formed prefix) blocks ->
  (let '(o, c) := fold_left (split_step prefix)
                    (concat (map block_lines blocks)) (options, current) in
   flush c o)
  = options ++ [Py.strip current] ++ map block_text blocks.
Proof.
  induction blocks as [|b blocks IH]; intros options current Hp Hc Hwf.
  - cbn. destruct current; [congruence|]. reflexivity.
  - inversion Hwf as [|? ? Hb Hrest]; subst.
    cbn [map concat]. rewrite fold_left_app, fold_block by exact Hb.
    pose proof (IH (flush current options) (Py.join Py.nl (block_lines b)) Hp
                  (join_block_nonempty _ _ Hp Hb) Hrest) as H.
    cbn zeta in H. rewrite H.
    destruct current; [congruence|]. rewrite flush_cons.
    change (block_text b) with (Py.strip (Py.join Py.nl (block_lines b))).
    rewrite <- app_assoc. reflexivity.
Qed.

(** A reply made of blocks only is split into its blocks. *)
Lemma split_by_marker_blocks prefix text blocks :
  prefix <> EmptyString ->
  Py.split_lines text = concat (map block_lines blocks) ->
  Forall (well_formed prefix) blocks ->
  split_by_marker prefix text = map block_text blocks.
Proof.
  intros Hp Hlines Hwf. unfold split_by_marker. rewrite Hlines.
  destruct blocks as [|b blocks].
  - exfalso. apply (PyFacts.split_char_nonempty (ascii_of_nat 10) text). exact Hlines.
  - inversion Hwf as [|? ? Hb Hrest]; subst.
    cbn [map concat]. rewrite fold_left_app, fold_block by exact Hb.
    pose proof (fold_blocks prefix blocks (flush EmptyString [])
                  (Py.join Py.nl (block_lines b)) Hp
                  (join_block_nonempty _ _ Hp Hb) Hrest) as H.
    cbn zeta in H. rewrite H. reflexivity.
Qed.

Lemma pad_loop_spec k first : forall options,
  pad_loop k first options
  = options ++ map (variation_at first) (seq (length options) k).
Proof.
  induction k as [|k IH]; intros options; cbn [pad_loop seq map].
  - rewrite app_nil_r. reflexivity.
  - rewrite IH, length_app, <- app_assoc. cbn [length app].
    replace (length options + 1)%nat with (S (length options)) by lia.
    reflexivity.
Qed.

(** What comes out for a count of at least one: the segments, padded
    with variations of the first one and cut to the count. *)
Lemma parse_options_spec num_options text :
  1 <= num_options ->
  parse_options num_options text
  = Returns (padded (Z.to_nat num_options) (segments num_options text)).
Proof.
  intros Hn. pose proof (segments_nonempty num_options text Hn) as Hne.
  unfold parse_options, pad, padded, truncate.
  destruct (segments num_options text) as [|first rest]; [congruence|].
  cbn [head default].
  destruct (Z.of_nat (length (first :: rest)) <? num_options) eqn:Hlt.
  - apply Z.ltb_lt in Hlt. rewrite pad_loop_spec.
    destruct (_ <? _) eqn:Ht.
    + apply Z.ltb_lt in Ht. rewrite length_app, length_map, length_seq in Ht. lia.
    + rewrite take_ge; [reflexivity|].
      rewrite length_app, length_map, length_seq. lia.
  - apply Z.ltb_ge in Hlt.
    replace (Z.to_nat num_options - length (first :: rest))%nat with 0%nat by lia.
    cbn [seq map]. rewrite app_nil_r.
    destruct (_ <? _) eqn:Ht.
    + unfold Py.slice_upto. destruct (num_options <? 0) eqn:E;
        [apply Z.ltb_lt in E; lia|reflexivity].
    + apply Z.ltb_ge in Ht. rewrite take_ge by lia. reflexivity.
Qed.

(** Where the segmentation does what is described.  For a requested
    count of 5:
    a reply whose lines, from the first line on, are five blocks, each
    a line-initial [OPTION n:] marker line followed by lines that are
    no markers, is returned as exactly these five blocks, stripped, in
    the order of the markers;
    a reply with none of the three marker patterns makes exactly one
    segment before padding, the reply itself;
    and for every reply the result is the list of segments, padded
    with [Design Variation] copies of the first segment and cut to
    five, which has exactly 5 elements. *)
Theorem segmentation_of_five_options :
  (forall text blocks,
      Py.contains "OPTION 1" (Py.upper text) = true ->
      Py.split_lines text = concat (map block_lines blocks) ->
      Forall (well_formed "OPTION ") blocks ->
      length blocks = 5%nat ->
      segments 5 text = map block_text blocks
      /\ parse_options 5 text = Returns (map block_text blocks))
  /\ (forall text,
      Py.contains "OPTION 1" (Py.upper text) = false ->
      Py.contains "DESIGN OPTION 1" (Py.upper text) = false ->
      Py.contains "1." text && Py.contains "2." text = false ->
      segments 5 text = [text])
  /\ (forall text,
      exists options,
        parse_options 5 text = Returns options
        /\ options = padded 5 (segments 5 text)
        /\ length options = 5%nat).
Proof.
  split; [|split].
  - intros text blocks H1 Hlines Hwf Hlen.
    assert (Hs : segments 5 text = map block_text blocks).
    { unfold segments. rewrite H1.
      apply split_by_marker_blocks; [discriminate|exact Hlines|exact Hwf]. }
    split; [exact Hs|].
    rewrite parse_options_spec by lia. rewrite Hs. unfold padded.
    rewrite length_map, Hlen. cbn [Nat.sub seq map Z.to_nat Pos.to_nat Pos.iter_op].
    rewrite app_nil_r, take_ge by (rewrite length_map; lia). reflexivity.
  - intros text H1 H2 H3. unfold segments. rewrite H1, H2, H3. reflexivity.
  - intros text. exists (padded 5 (segments 5 text)).
    split; [apply (parse_options_spec 5 text); lia|]. split; [reflexivity|].
    destruct (parse_options_length 5 text) as (options & Hp & Hl);
      [lia|apply segments_nonempty|].
    rewrite (parse_options_spec 5 text) in Hp by lia.
    injection Hp as <-. exact (Nat2Z.inj _ 5%nat Hl).
Qed.

Lemma segmentation_of_five_options_witness :
  parse_options 5 Samples.five_options
  = Returns (map block_text Samples.five_blocks)
  /\ segments 5 Samples.plain_reply = [Samples.plain_reply].
Proof.
  split.
  - apply (proj1 segmentation_of_five_options Samples.five_options Samples.five_blocks).
    + vm_compute. reflexivity.
    + vm_compute. reflexivity.
    + repeat constructor.
    + reflexivity.
  - apply (proj1 (proj2 segmentation_of_five_options) Samples.plain_reply);
      vm_compute; reflexivity.
Defined.

(** C4, at an input.  A reply with exactly five well-formed
    line-initial [OPTION n:] markers after one line of introduction:
    the introduction is a segment of its own, six segments are found,
    and the five that are returned are the introduction and the first
    four options.  The returned segments are not the five options: the
    first does not begin with the first marker, and the fifth option is
    not returned.  The specification has the five options returned, in
    the order of their markers. *)
Lemma preamble_takes_the_place_of_an_option :
  filter (fun l => is_marker "OPTION " l = true) (Py.split_lines Samples.with_preamble)
  = map fst Samples.five_blocks
  /\ length (segments 5 Samples.with_preamble) = 6%nat
  /\ exists options,
       parse_options 5 Samples.with_preamble = Returns options
       /\ options = "Here are five options:" :: take 4 (map block_text Samples.five_blocks)
       /\ options <> map block_text Samples.five_blocks
       /\ ~ Forall2 (fun marker option => Py.startswith marker option = true)
                    (map fst Samples.five_blocks) options.
Proof.
  split; [vm_compute; reflexivity|].
  split; [vm_compute; reflexivity|].
  eexists. split; [vm_compute; reflexivity|].
  split; [vm_compute; reflexivity|].
  split; [vm_compute; discriminate|].
  intros H. inversion H as [|marker option markers options Hhead _]; subst.
  vm_compute in Hhead. discriminate.
Qed.

(** With a count of at least one the parse never raises, and the body
    of the [try], when it returns, returns that many strings. *)
Lemma generate_body_length sv liked disliked room room_type room_size num_options options :
  1 <= num_options ->
  generate_body sv liked disliked room room_type room_size num_options = Returns options ->
  Z.of_nat (length options) = num_options.
Proof.
  intros Hn. unfold generate_body.
  destruct (build_messages _ _ _ _ _ _ _); [|discriminate].
  destruct (chat sv _) as [e| |text]; try discriminate.
  destruct (parse_options_length num_options text) as (o & Hp & Hl);
    [lia|intros _; apply segments_nonempty; exact Hn|].
  rewrite Hp. congruence.
Qed.

(** The result of a generation has at least one element. *)
Lemma generate_design_options_nonempty sv liked disliked room room_type room_size
    num_options :
  1 <= num_options ->
  generate_design_options sv liked disliked room room_type room_size num_options <> [].
Proof.
  intros Hn. unfold generate_design_options.
  destruct (generate_body _ _ _ _ _ _ _) as [options|e] eqn:E; [|discriminate].
  pose proof (generate_body_length _ _ _ _ _ _ _ _ Hn E) as Hl.
  destruct options; [cbn in Hl; lia|discriminate].
Qed.

(** C10, as the code has it.  For a requested count of at least one,
    [generate_design_options] returns a list that is never empty:
    when the messages are built and the call answers with a text, the
    result is the padded and cut list of segments, which has exactly
    [num_options] elements; when the body ends without an exception
    the result has exactly [num_options] elements; and when an
    exception leaves the body the result is the one-element list of
    [Error generating design: ] followed by the text of the
    exception. *)
Theorem generate_design_options_never_empty sv liked disliked room room_type room_size
    num_options :
  1 <= num_options ->
  let body := generate_body sv liked disliked room room_type room_size num_options in
  let out := generate_design_options sv liked disliked room room_type room_size
               num_options in
  out <> []
  /\ (forall messages text,
        build_messages sv liked disliked room room_type room_size num_options
        = Returns messages ->
        chat sv (Request "gpt-4o" messages 3000) = Content text ->
        out = padded (Z.to_nat num_options) (segments num_options text)
        /\ Z.of_nat (length out) = num_options)
  /\ (forall options, body = Returns options ->
        out = options /\ Z.of_nat (length options) = num_options)
  /\ (forall e, body = Raised e ->
        out = ["Error generating design: " +:+ e]
        /\ Forall (fun o => Py.startswith "Error generating design:" o = true) out).
Proof.
  intros Hn. cbn zeta.
  split; [apply generate_design_options_nonempty; exact Hn|].
  unfold generate_design_options. split; [|split].
  - intros messages text Hm Hc.
    assert (Hb : generate_body sv liked disliked room room_type room_size num_options
                 = Returns (padded (Z.to_nat num_options) (segments num_options text))).
    { unfold generate_body. rewrite Hm, Hc. apply parse_options_spec. exact Hn. }
    rewrite Hb. split; [reflexivity|]. eapply generate_body_length; eauto.
  - intros options E. rewrite E. split; [reflexivity|].
    eapply generate_body_length; eauto.
  - intros e E. rewrite E. split; [reflexivity|].
    constructor; [|constructor].
    apply (PyFacts.startswith_app "Error generating design:" (" " +:+ e)).
Qed.

Lemma generate_design_options_never_empty_witness :
  generate_design_options Samples.designer ["modern/sofa_1.jpg"] [] "cm9vbQ==" "Bedroom"
    EmptyString 5 <> []
  /\ generate_design_options Samples.offline ["modern/sofa_1.jpg"] [] "cm9vbQ==" "Bedroom"
       EmptyString 5 = ["Error generating design: Request timed out."].
Proof.
  split.
  - apply (generate_design_options_never_empty Samples.designer ["modern/sofa_1.jpg"] []
             "cm9vbQ==" "Bedroom" EmptyString 5). lia.
  - apply (generate_design_options_never_empty Samples.offline ["modern/sofa_1.jpg"] []
             "cm9vbQ==" "Bedroom" EmptyString 5); [lia|]. vm_compute. reflexivity.
Defined.

(** C10, where the property as specified fails.  With a requested count of 0 and a
    call that succeeds, the segments are cut to none and the function
    returns the empty list. *)
Lemma no_options_requested_none_returned :
  generate_body Samples.designer ["modern/sofa_1.jpg"] [] "cm9vbQ==" "Bedroom"
    EmptyString 0 = Returns []
  /\ generate_design_options Samples.designer ["modern/sofa_1.jpg"] [] "cm9vbQ=="
       "Bedroom" EmptyString 0 = [].
Proof. split; vm_compute; reflexivity. Qed.

End SegmentationProps.

(** ** The selection of example images *)

Module SelectionProps.
Import App Selected.

Section WithRandom.
Context {rng : Type}.
Variable shuffle : forall A : Type, rng -> list A -> list A * rng.
Hypothesis shuffle_perm : forall A g (l : list A), (shuffle A g l).1 ≡ₚ l.

Lemma add_image_inv num_images styles0 st acc img :
  st ∈ styles0 -> img ∈ image_paths st ->
  inv num_images styles0 acc -> inv num_images styles0 (add_image num_images st acc img).
Proof.
  intros Hst Himg [Hlen Hinfo]. destruct acc as [all_images info].
  unfold add_image. destruct (_ <? _) eqn:Hlt; [|split; assumption].
  apply Z.ltb_lt in Hlt. unfold inv. cbn [fst snd] in *. split.
  - rewrite length_app. cbn [length]. lia.
  - intros img' Hin. apply elem_of_app in Hin as [Hin|Hin].
    + destruct (decide (img = img')) as [<-|Hne].
      * exists st. rewrite lookup_insert_eq. auto.
      * destruct (Hinfo img' Hin) as (st' & H1 & H2 & H3).
        exists st'. rewrite lookup_insert_ne by exact Hne. auto.
    + apply list_elem_of_singleton in Hin as ->.
      exists st. rewrite lookup_insert_eq. auto.
Qed.

Lemma fold_add_image_inv num_images styles0 st selected : forall acc,
  st ∈ styles0 -> Forall (fun img => img ∈ image_paths st) selected ->
  inv num_images styles0 acc ->
  inv num_images styles0 (fold_left (add_image num_images st) selected acc).
Proof.
  induction selected as [|img selected IH]; intros acc Hst Hsel Hinv; [exact Hinv|].
  inversion Hsel; subst. cbn [fold_left].
  apply IH; [assumption..|]. apply add_image_inv; assumption.
Qed.

(** What a style adds is a part of what was selected from it. *)
Lemma fold_add_image_shape num_images st selected : forall acc,
  exists c, (fold_left (add_image num_images st) selected acc).1 = acc.1 ++ c
            /\ c `sublist_of` selected.
Proof.
  induction selected as [|img selected IH]; intros acc.
  - exists []. rewrite app_nil_r. split; [reflexivity|constructor].
  - cbn [fold_left]. destruct (IH (add_image num_images st acc img)) as (c & Hc & Hsub).
    destruct acc as [all_images info]. unfold add_image in Hc |- *.
    destruct (_ <? _); cbn [fst] in *.
    + exists (img :: c). rewrite Hc, <- app_assoc. split; [reflexivity|].
      apply sublist_skip. exact Hsub.
    + exists c. split; [exact Hc|]. apply sublist_cons. exact Hsub.
Qed.

Lemma selected_of_length l : (length (selected_of l) <= 2)%nat.
Proof. unfold selected_of. rewrite length_take. lia. Qed.

Lemma select_loop_inv num_images styles0 styles : forall g acc,
  Forall (fun st => st ∈ styles0) styles ->
  inv num_images styles0 acc ->
  inv num_images styles0 (select_loop shuffle num_images styles g acc).1.
Proof.
  induction styles as [|st styles IH]; intros g acc Hall Hinv; [exact Hinv|].
  inversion Hall as [|? ? Hst Hrest]; subst. cbn [select_loop].
  destruct (_ <=? _); [exact Hinv|].
  destruct (image_paths st) as [|i0 paths] eqn:Hpaths; [apply IH; assumption|].
  pose proof (shuffle_perm string g (i0 :: paths)) as Hperm.
  destruct (shuffle string g (i0 :: paths)) as [shuffled g']. cbn [fst] in Hperm.
  apply IH; [assumption|]. apply fold_add_image_inv; [assumption| |assumption].
  apply Forall_forall. intros img Hin. rewrite Hpaths, <- Hperm.
  unfold selected_of in Hin. apply elem_of_take in Hin as (i & Hi & _).
  eapply list_elem_of_lookup_2. exact Hi.
Qed.

Lemma select_loop_picks num_images styles : forall g acc,
  exists picks : list (style * list string),
    (select_loop shuffle num_images styles g acc).1.1 = acc.1 ++ concat (map snd picks)
    /\ map fst picks `sublist_of` styles
    /\ Forall pick_ok picks.
Proof.
  induction styles as [|st styles IH]; intros g acc; cbn [select_loop].
  - exists []. cbn. rewrite app_nil_r. repeat split; constructor.
  - destruct (_ <=? _).
    { exists []. cbn. rewrite app_nil_r. repeat split; [apply sublist_nil_l|constructor]. }
    destruct (image_paths st) as [|i0 paths] eqn:Hpaths.
    { destruct (IH g acc) as (picks & H1 & H2 & H3).
      exists picks. repeat split; [exact H1|apply sublist_cons; exact H2|exact H3]. }
    pose proof (shuffle_perm string g (i0 :: paths)) as Hperm.
    destruct (shuffle string g (i0 :: paths)) as [shuffled g']. cbn [fst] in Hperm.
    destruct (fold_add_image_shape num_images st (selected_of shuffled) acc)
      as (c & Hc & Hsub).
    destruct (IH g' (fold_left (add_image num_images st) (selected_of shuffled) acc))
      as (picks & H1 & H2 & H3).
    exists ((st, c) :: picks). cbn [map fst snd concat].
    split; [rewrite H1, Hc, <- app_assoc; reflexivity|].
    split; [apply sublist_skip; exact H2|].
    constructor; [|exact H3]. split; cbn [fst snd].
    + pose proof (sublist_length _ _ Hsub). pose proof (selected_of_length shuffled). lia.
    + rewrite Hpaths, <- Hperm. etrans; [apply sublist_submseteq; exact Hsub|].
      apply submseteq_take.
Qed.

End WithRandom.

(** C9. For every list of styles and every count that is not
    negative, with a shuffle that permutes its list:
    [select_random_images] returns at most [num_images] paths; the
    paths are the contributions of distinct entries of the style list,
    each contribution at most two images of its style; and
    [style_info] has, for every returned path, the name and the
    description of a style of the list that holds the path. *)
Theorem select_random_images_bounded {rng : Type}
    (shuffle : forall A : Type, rng -> list A -> list A * rng)
    (styles : list style) (num_images : Z) (g : rng) :
  (forall A g (l : list A), (shuffle A g l).1 ≡ₚ l) ->
  0 <= num_images ->
  let all_images := (select_random_images shuffle styles num_images g).1.1 in
  let style_info := (select_random_images shuffle styles num_images g).1.2 in
  Z.of_nat (length all_images) <= num_images
  /\ (exists picks : list (style * list string),
        all_images = concat (map snd picks)
        /\ map fst picks ⊆+ styles
        /\ Forall (fun pk => (length pk.2 <= 2)%nat /\ pk.2 ⊆+ image_paths pk.1) picks)
  /\ (forall img, img ∈ all_images ->
        exists st, st ∈ styles /\ img ∈ image_paths st
                   /\ style_info !! img
                      = Some (name st, default EmptyString (description st))).
Proof.
  intros Hperm Hnum. cbn zeta. unfold select_random_images.
  pose proof (Hperm style g styles) as Hstyles.
  destruct (shuffle style g styles) as [shuffled g']. cbn [fst] in Hstyles.
  assert (Hinv : inv num_images shuffled
                   (select_loop shuffle num_images shuffled g' ([], ∅)).1).
  { apply select_loop_inv; [exact Hperm|apply Forall_forall; auto|].
    split; [cbn; lia|]. intros img Hin. cbn in Hin. inversion Hin. }
  destruct (select_loop_picks shuffle Hperm num_images shuffled g' ([], ∅))
    as (picks & H1 & H2 & H3).
  destruct Hinv as [Hlen Hinfo].
  split; [lia|]. split.
  - exists picks. split; [exact H1|]. split; [|exact H3].
    rewrite <- Hstyles. apply sublist_submseteq. exact H2.
  - intros img Hin. destruct (Hinfo img Hin) as (st & Hst & Hi & Hl).
    exists st. rewrite <- Hstyles. auto.
Qed.

Lemma select_random_images_bounded_witness :
  Z.of_nat (length (select_random_images Samples.in_order Samples.styles 5 tt).1.1) <= 5.
Proof.
  refine (proj1 (select_random_images_bounded Samples.in_order Samples.styles 5 tt _ _)).
  - intros A g l. reflexivity.
  - lia.
Defined.

End SelectionProps.

(** ** The flow of the session *)

Module SessionProps.
Import OpenAI App Flow.

Section WithRandom.
Context {rng : Type}.
Variable shuffle : forall A : Type, rng -> list A -> list A * rng.

Lemma bind_unfold {A B} (m : script A) (k : A -> script B) ss :
  (m ≫= k) ss = match m ss with
                | Next a ss' => k a ss'
                | Rerun ss' => Rerun ss'
                | Stop ss' => Stop ss'
                | Error e ss' => Error e ss'
                end.
Proof. reflexivity. Qed.

Lemma get_list_unfold key ss :
  get_list key ss = match ss !! key with
                    | Some (VList l) => Next l ss
                    | Some _ => Error "TypeError" ss
                    | None => Error ("AttributeError: " +:+ key) ss
                    end.
Proof. unfold get_list. rewrite bind_unfold. unfold get_attr.
  destruct (ss !! key) as [[]|]; reflexivity. Qed.

Lemma style_names_state imgs ss :
  state_of (style_names imgs ss) = ss.
Proof.
  unfold style_names. destruct imgs; [reflexivity|].
  rewrite bind_unfold. unfold get_info. rewrite bind_unfold. unfold get_attr.
  destruct (ss !! "style_info") as [[]|]; try reflexivity.
  cbn. destruct (_ && _); reflexivity.
Qed.

(** Step 2: nothing changes, or the room is stored and the flow moves
    to step 3. *)
Lemma step2_spec (e : @env rng) w ss :
  state_of (step2 e w ss) = ss
  \/ exists data,
       uploaded_file w = Some data /\ image_opens e data = true
       /\ clicked w = Some GenerateOptions
       /\ Py.b64encode data <> EmptyString
       /\ (exists l, ss !! "liked_images" = Some (VList l))
       /\ step2 e w ss
          = Rerun (<["step" := VInt 3]>
                     (<["room_image" := VStr (Py.b64encode data)]>
                        (<["room_size" := VStr (room_size w)]>
                           (<["room_type" := VStr (room_type w)]> ss)))).
Proof.
  unfold step2. rewrite bind_unfold, get_list_unfold.
  destruct (ss !! "liked_images") as [[| |l|]|] eqn:Hl; try (left; reflexivity).
  rewrite bind_unfold.
  pose proof (style_names_state l ss) as Hs.
  destruct (style_names l ss) as [[] ss1|ss1|ss1|err ss1]; cbn in Hs; subst ss1;
    try (left; reflexivity).
  destruct (uploaded_file w) as [data|] eqn:Hu; [|left; reflexivity].
  destruct (image_opens e data) eqn:Ho; [|left; reflexivity].
  unfold pressed. case_bool_decide as Hc; [|left; reflexivity].
  cbn [load_image_from_upload].
  destruct (Py.b64encode data) as [|a enc] eqn:Hb; [left; reflexivity|].
  right. exists data. rewrite Hb. repeat split; try assumption; try discriminate.
  - eauto.
Qed.

Lemma agree_off_refl K ss : agree_off K ss ss.
Proof. intros k _. reflexivity. Qed.

Lemma agree_off_trans K ss1 ss2 ss3 :
  agree_off K ss1 ss2 -> agree_off K ss2 ss3 -> agree_off K ss1 ss3.
Proof. intros H1 H2 k Hk. rewrite H2, H1 by exact Hk. reflexivity. Qed.

Lemma agree_off_insert K ss k v : k ∈ K -> agree_off K ss (<[k := v]> ss).
Proof.
  intros Hk k' Hk'. apply lookup_insert_ne. intros ->. contradiction.
Qed.

Lemma agree_off_delete K ss k : k ∈ K -> agree_off K ss (delete k ss).
Proof.
  intros Hk k' Hk'. apply lookup_delete_ne. intros ->. contradiction.
Qed.

Ltac in_keys :=
  unfold reset_keys; repeat first [apply list_elem_of_here | apply list_elem_of_further].

Lemma get_int_unfold key ss :
  get_int key ss = match ss !! key with
                   | Some (VInt z) => Next z ss
                   | Some _ => Error "TypeError" ss
                   | None => Error ("AttributeError: " +:+ key) ss
                   end.
Proof. unfold get_int. rewrite bind_unfold. unfold get_attr.
  destruct (ss !! key) as [[]|]; reflexivity. Qed.

Lemma get_str_unfold key ss :
  get_str key ss = match ss !! key with
                   | Some (VStr z) => Next z ss
                   | Some _ => Error "TypeError" ss
                   | None => Error ("AttributeError: " +:+ key) ss
                   end.
Proof. unfold get_str. rewrite bind_unfold. unfold get_attr.
  destruct (ss !! key) as [[]|]; reflexivity. Qed.

Lemma get_info_unfold key ss :
  get_info key ss = match ss !! key with
                   | Some (VInfo z) => Next z ss
                   | Some _ => Error "TypeError" ss
                   | None => Error ("AttributeError: " +:+ key) ss
                   end.
Proof. unfold get_info. rewrite bind_unfold. unfold get_attr.
  destruct (ss !! key) as [[]|]; reflexivity. Qed.

Lemma init_selection_spec (e : @env rng) ss :
  exists ss1, init_selection shuffle e ss = Next tt ss1
              /\ agree_off reset_keys ss ss1
              /\ (ss1 !! "liked_images" = ss !! "liked_images"
                  \/ ss1 !! "liked_images" = Some (VList [])).
Proof.
  unfold init_selection. rewrite bind_unfold. unfold has_key.
  case_bool_decide as Hh.
  - exists ss. split; [reflexivity|]. split; [apply agree_off_refl|left; reflexivity].
  - destruct (select_random_images shuffle (styles e) 5 (gen e)) as [[imgs info] g].
    eexists. split; [reflexivity|]. split.
    + repeat (eapply agree_off_trans; [|apply agree_off_insert; in_keys]).
      apply agree_off_refl.
    + right. rewrite lookup_insert_ne by discriminate. apply lookup_insert_eq.
Qed.

Lemma vote_spec key img ss o :
  key ∈ reset_keys -> vote key img ss = o ->
  ends o /\ agree_off reset_keys ss (state_of o).
Proof.
  intros Hk Ho. unfold vote in Ho. rewrite bind_unfold, get_list_unfold in Ho.
  destruct (ss !! key) as [[| |l|]|];
    try (subst o; split; [exact I|apply agree_off_refl]).
  rewrite bind_unfold in Ho. unfold set_attr at 1 in Ho.
  rewrite bind_unfold, get_int_unfold in Ho.
  set (ss1 := <[key := VList (l ++ [img])]> ss) in *.
  assert (H1 : agree_off reset_keys ss ss1) by (apply agree_off_insert; exact Hk).
  destruct (ss1 !! "current_index") as [[i| | |]|];
    try (subst o; split; [exact I|exact H1]).
  subst o. split; [exact I|]. cbn.
  eapply agree_off_trans; [exact H1|]. apply agree_off_insert. in_keys.
Qed.

Lemma reset_one key (rest : script unit) ss :
  (has ← has_key key; (if has : bool then del_key key else mret tt);; rest) ss
  = rest (delete key ss).
Proof.
  rewrite bind_unfold. unfold has_key. rewrite bind_unfold.
  case_bool_decide as Hh.
  - unfold del_key. destruct Hh as [v Hv]. rewrite Hv. reflexivity.
  - rewrite delete_id; [reflexivity|].
    destruct (ss !! key) eqn:E; [exfalso; apply Hh; eauto|reflexivity].
Qed.

Lemma reset_styles_spec ss :
  exists ss', reset_styles ss = Rerun ss' /\ agree_off reset_keys ss ss'.
Proof.
  unfold reset_styles, reset_keys. cbn [fold_right].
  rewrite !reset_one. eexists. split; [reflexivity|].
  repeat (eapply agree_off_trans; [|apply agree_off_delete; in_keys]).
  apply agree_off_refl.
Qed.


Lemma continue_to_upload_spec ss :
  (state_of (continue_to_upload ss) = ss)
  \/ (exists l, l <> [] /\ ss !! "liked_images" = Some (VList l)
                /\ continue_to_upload ss = Rerun (<["step" := VInt 2]> ss)).
Proof.
  unfold continue_to_upload. rewrite bind_unfold, get_list_unfold.
  destruct (ss !! "liked_images") as [[| |l|]|]; try (left; reflexivity).
  destruct l as [|x l]; [left; reflexivity|].
  right. exists (x :: l). repeat split. discriminate.
Qed.

(** Step 1: either only keys of the selection have changed, or the
    flow moves to step 2 with a liked list that is not empty. *)
Lemma step1_spec (e : @env rng) w ss :
  agree_off reset_keys ss (state_of (step1 shuffle e w ss))
  \/ (exists ss1 l d,
        agree_off reset_keys ss ss1
        /\ l <> [] /\ ss !! "liked_images" = Some (VList l)
        /\ ss1 !! "liked_images" = Some (VList l)
        /\ ss1 !! "disliked_images" = Some (VList d)
        /\ clicked w = Some ContinueToUpload
        /\ step1 shuffle e w ss = Rerun (<["step" := VInt 2]> ss1)).
Proof.
  unfold step1. destruct (styles e) as [|st0 sts]; [left; apply agree_off_refl|].
  rewrite bind_unfold.
  destruct (init_selection_spec e ss) as (ss1 & -> & Hag & Hliked).
  rewrite bind_unfold, get_int_unfold.
  destruct (ss1 !! "current_index") as [[ci| | |]|]; try (left; exact Hag).
  rewrite bind_unfold, get_list_unfold.
  destruct (ss1 !! "random_images") as [[| |imgs|]|]; try (left; exact Hag).
  destruct (ci <? Z.of_nat (length imgs)).
  - left. rewrite bind_unfold. unfold index.
    destruct (_ <? 0); [exact Hag|].
    destruct (imgs !! _) as [img|]; [|exact Hag].
    cbn [mret script_ret]. rewrite bind_unfold, get_info_unfold.
    destruct (ss1 !! "style_info") as [[| | |info]|]; try exact Hag.
    rewrite bind_unfold.
    destruct (info !! img); [|exact Hag]. cbn [mret script_ret].
    rewrite bind_unfold.
    destruct (pressed w Like).
    + destruct (vote_spec "liked_images" img ss1 _ ltac:(in_keys) eq_refl) as [He Ha].
      destruct (vote "liked_images" img ss1); cbn in He; try contradiction;
        (eapply agree_off_trans; [exact Hag|exact Ha]).
    + cbn [mret script_ret]. destruct (pressed w Dislike); [|exact Hag].
      destruct (vote_spec "disliked_images" img ss1 _ ltac:(in_keys) eq_refl) as [He Ha].
      eapply agree_off_trans; [exact Hag|exact Ha].
  - rewrite bind_unfold, get_list_unfold.
    destruct (ss1 !! "liked_images") as [[| |liked|]|] eqn:Hl; try (left; exact Hag).
    rewrite bind_unfold.
    pose proof (style_names_state liked ss1) as Hs.
    destruct (style_names liked ss1) as [[] ss2|ss2|ss2|err ss2]; cbn in Hs; subst ss2;
      try (left; exact Hag).
    rewrite bind_unfold, get_list_unfold.
    destruct (ss1 !! "disliked_images") as [[| |disliked|]|] eqn:Hd; try (left; exact Hag).
    rewrite bind_unfold.
    pose proof (style_names_state disliked ss1) as Hs.
    destruct (style_names disliked ss1) as [[] ss2|ss2|ss2|err ss2]; cbn in Hs; subst ss2;
      try (left; exact Hag).
    rewrite bind_unfold.
    destruct (pressed w ResetStyles).
    + left. destruct (reset_styles_spec ss1) as (ss2 & -> & Ha).
      eapply agree_off_trans; [exact Hag|exact Ha].
    + cbn [mret script_ret]. unfold pressed. case_bool_decide as Hc; [|left; exact Hag].
      destruct (continue_to_upload_spec ss1) as [Hsame|(l & Hne & Hl' & ->)].
      * left. rewrite Hsame. exact Hag.
      * right. exists ss1, l, disliked. rewrite Hl in Hl'. injection Hl' as <-.
        repeat split; try assumption.
        destruct Hliked as [Heq|Hnil]; congruence.
Qed.


(** Deleting every key leaves nothing. *)
Lemma delete_all (keys : list string) : forall ss : session_state,
  (forall k, is_Some (ss !! k) -> k ∈ keys) ->
  fold_left (fun m key => delete key m) keys ss = ∅.
Proof.
  induction keys as [|k keys IH]; intros ss Hdom; cbn [fold_left].
  - apply map_eq. intros i. rewrite lookup_empty.
    destruct (ss !! i) eqn:E; [|reflexivity].
    exfalso. specialize (Hdom i (mk_is_Some _ _ E)). inversion Hdom.
  - apply IH. intros k' Hk'.
    destruct (decide (k = k')) as [<-|Hne].
    + rewrite lookup_delete_eq in Hk'. destruct Hk' as [? Hk']. discriminate.
    + rewrite lookup_delete_ne in Hk' by exact Hne.
      specialize (Hdom k' Hk'). apply elem_of_cons in Hdom as [->|H]; [congruence|exact H].
Qed.

Lemma clear_all_spec ss : clear_all ss = Next tt ∅.
Proof.
  unfold clear_all. f_equal. apply delete_all.
  intros k [v Hv]. apply list_elem_of_In, in_map_iff. exists (k, v).
  split; [reflexivity|]. apply list_elem_of_In, elem_of_map_to_list. exact Hv.
Qed.

Lemma ensure_design_options_spec (e : @env rng) ss :
  exists ss1,
    (ss1 = ss
     \/ (ss !! "design_options" = None
         /\ exists opts, opts <> [] /\ ss1 = <["design_options" := VList opts]> ss))
    /\ (ensure_design_options e ss = Next tt ss1
        \/ (ss1 = ss /\ exists err, ensure_design_options e ss = Error err ss)).
Proof.
  unfold ensure_design_options. rewrite bind_unfold. unfold has_key.
  case_bool_decide as Hh.
  { exists ss. split; [left; reflexivity|left; reflexivity]. }
  assert (Hnone : ss !! "design_options" = None).
  { destruct (ss !! "design_options") eqn:E; [exfalso; apply Hh; eauto|reflexivity]. }
  rewrite bind_unfold, get_list_unfold.
  destruct (ss !! "liked_images") as [[| |liked|]|];
    try (exists ss; split; [left; reflexivity|right; split; [reflexivity|eexists; reflexivity]]).
  rewrite bind_unfold, get_list_unfold.
  destruct (ss !! "disliked_images") as [[| |disliked|]|];
    try (exists ss; split; [left; reflexivity|right; split; [reflexivity|eexists; reflexivity]]).
  rewrite bind_unfold, get_str_unfold.
  destruct (ss !! "room_image") as [[|room| |]|];
    try (exists ss; split; [left; reflexivity|right; split; [reflexivity|eexists; reflexivity]]).
  rewrite bind_unfold, get_str_unfold.
  destruct (ss !! "room_type") as [[|rt| |]|];
    try (exists ss; split; [left; reflexivity|right; split; [reflexivity|eexists; reflexivity]]).
  rewrite bind_unfold, get_str_unfold.
  destruct (ss !! "room_size") as [[|rs| |]|];
    try (exists ss; split; [left; reflexivity|right; split; [reflexivity|eexists; reflexivity]]).
  eexists. split; [|left; reflexivity].
  right. split; [exact Hnone|]. eexists. split; [|reflexivity].
  apply SegmentationProps.generate_design_options_nonempty. lia.
Qed.

Lemma show_results_spec w ss :
  state_of (show_results w ss) = ss
  \/ (clicked w = Some StartOver
      /\ (exists l, l <> [] /\ ss !! "design_options" = Some (VList l))
      /\ show_results w ss = Rerun ∅).
Proof.
  unfold show_results. rewrite bind_unfold, get_list_unfold.
  destruct (ss !! "design_options") as [[| |opts|]|] eqn:Ho; try (left; reflexivity).
  rewrite bind_unfold. destruct opts as [|o opts]; [left; reflexivity|].
  cbn [mret script_ret]. rewrite bind_unfold, get_str_unfold.
  destruct (ss !! "room_image") as [[|room| |]|]; try (left; reflexivity).
  unfold pressed. case_bool_decide as Hc; [|left; reflexivity].
  right. split; [exact Hc|]. split; [exists (o :: opts); split; [discriminate|reflexivity]|].
  rewrite bind_unfold, clear_all_spec. reflexivity.
Qed.

(** Step 3: the options may be added; then nothing else changes, or
    everything is cleared. *)
Lemma step3_spec (e : @env rng) w ss :
  exists ss1,
    (ss1 = ss
     \/ (ss !! "design_options" = None
         /\ exists opts, opts <> [] /\ ss1 = <["design_options" := VList opts]> ss))
    /\ (state_of (step3 e w ss) = ss1
        \/ (clicked w = Some StartOver /\ step3 e w ss = Rerun ∅)).
Proof.
  unfold step3. rewrite bind_unfold.
  destruct (ensure_design_options_spec e ss) as (ss1 & Hss1 & [->|[-> [err ->]]]).
  - exists ss1. split; [exact Hss1|].
    destruct (show_results_spec w ss1) as [H|(Hc & _ & H)]; [left; exact H|right; auto].
  - exists ss. split; [left; reflexivity|left; reflexivity].
Qed.

(** Where a run of [main] goes. *)
Lemma main_cases (e : @env rng) w ss :
  (~ configured e /\ main shuffle e w ss = Stop ss)
  \/ (configured e
      /\ ((ss !! "step" = None
           /\ main shuffle e w ss = step1 shuffle e w (<["step" := VInt 1]> ss))
          \/ (ss !! "step" = Some (VInt 1) /\ main shuffle e w ss = step1 shuffle e w ss)
          \/ (ss !! "step" = Some (VInt 2) /\ main shuffle e w ss = step2 e w ss)
          \/ (ss !! "step" = Some (VInt 3) /\ main shuffle e w ss = step3 e w ss)
          \/ (main shuffle e w ss = Next tt ss
              /\ exists v, ss !! "step" = Some v
                           /\ v <> VInt 1 /\ v <> VInt 2 /\ v <> VInt 3))).
Proof.
  unfold main, configured.
  destruct (api_key e) as [[|a k]|] eqn:Hk.
  - left. split; [intros (a & k & H); discriminate|reflexivity].
  - right. split; [eauto|].
    rewrite bind_unfold. unfold has_key. rewrite bind_unfold.
    case_bool_decide as Hh.
    + destruct Hh as [v Hv]. cbn [mret script_ret].
      rewrite bind_unfold. unfold get_attr. rewrite Hv.
      destruct v as [[|[p|p|]|]| | |];
        try (right; right; right; right; split; [reflexivity|];
             eexists; split; [reflexivity|repeat split; discriminate]).
      * destruct p as [p|p|];
          try (right; right; right; right; split; [reflexivity|];
               eexists; split; [reflexivity|repeat split; discriminate]).
        right; right; right; left. split; reflexivity.
      * destruct p as [p|p|];
          try (right; right; right; right; split; [reflexivity|];
               eexists; split; [reflexivity|repeat split; discriminate]).
        right; right; left. split; reflexivity.
      * right; left. split; reflexivity.
    + left. split.
      { destruct (ss !! "step") eqn:E; [exfalso; apply Hh; eauto|reflexivity]. }
      unfold set_attr. rewrite bind_unfold. unfold get_attr.
      rewrite lookup_insert_eq. reflexivity.
  - left. split; [intros (a & k & H); discriminate|reflexivity].
Qed.


Ltac off_keys :=
  unfold reset_keys; rewrite !not_elem_of_cons;
  repeat split; try discriminate; apply not_elem_of_nil.

Lemma agree_off_step ss ss' :
  agree_off reset_keys ss ss' -> ss' !! "step" = ss !! "step".
Proof. intros H. apply H. off_keys. Qed.

Lemma agree_off_options ss ss' :
  agree_off reset_keys ss ss' -> options_ok ss -> options_ok ss'.
Proof.
  intros H Ho. unfold options_ok. rewrite (H "design_options") by off_keys. exact Ho.
Qed.

Lemma agree_off_room ss ss' :
  agree_off reset_keys ss ss' ->
  ss' !! "room_image" = ss !! "room_image"
  /\ ss' !! "room_type" = ss !! "room_type"
  /\ ss' !! "room_size" = ss !! "room_size"
  /\ ss' !! "design_options" = ss !! "design_options".
Proof. intros H. repeat split; apply H; off_keys. Qed.

Lemma options_ok_insert ss k v :
  k <> "design_options" -> options_ok ss -> options_ok (<[k := v]> ss).
Proof. intros Hk Ho. unfold options_ok. rewrite lookup_insert_ne by exact Hk. exact Ho. Qed.

Lemma prefs_ok_insert ss k v :
  k <> "liked_images" -> k <> "disliked_images" ->
  prefs_ok ss -> prefs_ok (<[k := v]> ss).
Proof.
  intros H1 H2 Hp. unfold prefs_ok. rewrite !lookup_insert_ne by assumption. exact Hp.
Qed.

Lemma room_ok_insert ss k v :
  k <> "room_image" -> k <> "room_type" -> k <> "room_size" ->
  room_ok ss -> room_ok (<[k := v]> ss).
Proof.
  intros H1 H2 H3 Hp. unfold room_ok. rewrite !lookup_insert_ne by assumption. exact Hp.
Qed.

Lemma invariant_step1 (e : @env rng) w ss :
  ss !! "step" = Some (VInt 1) -> options_ok ss ->
  invariant (state_of (step1 shuffle e w ss)).
Proof.
  intros Hstep Ho.
  destruct (step1_spec e w ss) as [Hag|(ss1 & l & d & Hag & Hne & _ & Hl & Hd & _ & ->)].
  - split; [eapply agree_off_options; eauto|].
    rewrite (agree_off_step _ _ Hag), Hstep. exact I.
  - cbn [state_of]. split.
    + apply options_ok_insert; [discriminate|]. eapply agree_off_options; eauto.
    + rewrite lookup_insert_eq. apply prefs_ok_insert; try discriminate.
      split; eauto.
Qed.

Lemma invariant_empty : invariant ∅.
Proof. split; [left; apply lookup_empty|]. rewrite lookup_empty. exact I. Qed.

(** A run of the script keeps the invariant. *)
Lemma invariant_main (e : @env rng) w ss :
  invariant ss -> invariant (state_of (main shuffle e w ss)).
Proof.
  intros [Ho Hs].
  destruct (main_cases e w ss)
    as [[_ ->]|[_ [[Hstep ->]|[[Hstep ->]|[[Hstep ->]|[[Hstep ->]|[-> _]]]]]]].
  - split; assumption.
  - apply invariant_step1; [apply lookup_insert_eq|].
    apply options_ok_insert; [discriminate|exact Ho].
  - apply invariant_step1; assumption.
  - rewrite Hstep in Hs.
    destruct (step2_spec e w ss) as [->|(data & _ & _ & _ & Hb & _ & ->)].
    + split; [exact Ho|]. rewrite Hstep. exact Hs.
    + cbn [state_of]. split.
      * repeat (apply options_ok_insert; [discriminate|]). exact Ho.
      * rewrite lookup_insert_eq. split.
        -- repeat (apply prefs_ok_insert; [discriminate|discriminate|]). exact Hs.
        -- apply room_ok_insert; try discriminate.
           unfold room_ok. rewrite lookup_insert_eq.
           rewrite !(lookup_insert_ne _ "room_image") by discriminate.
           rewrite lookup_insert_eq.
           rewrite (lookup_insert_ne _ "room_size" "room_type") by discriminate.
           rewrite lookup_insert_eq. eauto 10.
  - rewrite Hstep in Hs.
    destruct (step3_spec e w ss) as (ss1 & Hss1 & [->|[_ ->]]).
    + destruct Hss1 as [->|(Hnone & opts & Hne & ->)].
      * split; [exact Ho|]. rewrite Hstep. exact Hs.
      * split.
        -- right. exists opts. split; [exact Hne|apply lookup_insert_eq].
        -- rewrite lookup_insert_ne by discriminate. rewrite Hstep.
           destruct Hs as [Hp Hr]. split.
           ++ apply prefs_ok_insert; [discriminate|discriminate|exact Hp].
           ++ apply room_ok_insert; try discriminate. exact Hr.
    + apply invariant_empty.
  - split; assumption.
Qed.

Lemma invariant_on_click w ss : invariant ss -> invariant (on_click w ss).
Proof.
  intros [Ho Hs]. unfold on_click.
  destruct (clicked w) as [[]|]; try (split; assumption).
  - destruct (ss !! "step") as [[[|[p|p|]|]| | |]|] eqn:Hstep;
      try (split; [exact Ho|rewrite Hstep; exact Hs]).
    destruct p as [p|p|]; try (split; [exact Ho|rewrite Hstep; exact Hs]).
    split; [apply options_ok_insert; [discriminate|exact Ho]|].
    rewrite lookup_insert_eq. exact I.
  - destruct (ss !! "step") as [[[|[p|p|]|]| | |]|] eqn:Hstep;
      try (split; [exact Ho|rewrite Hstep; exact Hs]).
    destruct p as [p|p|]; try (split; [exact Ho|rewrite Hstep; exact Hs]).
    split; [apply options_ok_insert; [discriminate|exact Ho]|].
    rewrite lookup_insert_eq.
    apply prefs_ok_insert; [discriminate|discriminate|]. apply Hs.
Qed.

Lemma invariant_interact (e e' : @env rng) w ss :
  invariant ss -> invariant (interact shuffle e e' w ss).
Proof.
  intros H. unfold interact, settle.
  pose proof (invariant_main e w _ (invariant_on_click w ss H)) as H1.
  destruct (main shuffle e w (on_click w ss)) as [[] s1|s1|s1|err s1]; cbn [state_of] in *;
    try exact H1.
  apply invariant_main. exact H1.
Qed.

(** Every state of a session satisfies the invariant. *)
Lemma reachable_invariant ss : reachable shuffle ss -> invariant ss.
Proof.
  induction 1 as [|e e' w ss _ IH]; [apply invariant_empty|].
  apply invariant_interact. exact IH.
Qed.


(** *** Runs in which no button is pressed *)

Lemma no_click_clicked w : clicked (no_click w) = None.
Proof. reflexivity. Qed.

Lemma step1_quiet (e : @env rng) w ss :
  clicked w <> Some ContinueToUpload ->
  agree_off reset_keys ss (state_of (step1 shuffle e w ss)).
Proof.
  intros Hc. destruct (step1_spec e w ss) as [H|(? & ? & ? & _ & _ & _ & _ & _ & Hc' & _)];
    [exact H|contradiction].
Qed.

Lemma main_quiet_step1 (e : @env rng) w ss :
  clicked w <> Some ContinueToUpload -> ss !! "step" = Some (VInt 1) ->
  agree_off reset_keys ss (state_of (main shuffle e w ss)).
Proof.
  intros Hc Hstep.
  destruct (main_cases e w ss)
    as [[_ ->]|[_ [[H ->]|[[H ->]|[[H ->]|[[H ->]|[-> _]]]]]]];
    try congruence; try apply agree_off_refl.
  apply step1_quiet. exact Hc.
Qed.

Lemma main_quiet_step2 (e : @env rng) w ss :
  clicked w <> Some GenerateOptions -> ss !! "step" = Some (VInt 2) ->
  state_of (main shuffle e w ss) = ss.
Proof.
  intros Hc Hstep.
  destruct (main_cases e w ss)
    as [[_ ->]|[_ [[H ->]|[[H ->]|[[H ->]|[[H ->]|[-> _]]]]]]];
    try congruence; try reflexivity.
  destruct (step2_spec e w ss) as [H'|(? & _ & _ & Hc' & _)]; [exact H'|contradiction].
Qed.

Lemma main_quiet_step3 (e : @env rng) w ss :
  clicked w <> Some StartOver -> ss !! "step" = Some (VInt 3) ->
  state_of (main shuffle e w ss) = ss
  \/ exists opts, state_of (main shuffle e w ss) = <["design_options" := VList opts]> ss.
Proof.
  intros Hc Hstep.
  destruct (main_cases e w ss)
    as [[_ ->]|[_ [[H ->]|[[H ->]|[[H ->]|[[H ->]|[-> _]]]]]]];
    try congruence; try (left; reflexivity).
  destruct (step3_spec e w ss) as (ss1 & Hss1 & [->|[Hc' _]]); [|contradiction].
  destruct Hss1 as [->|(_ & opts & _ & ->)]; [left; reflexivity|right; eauto].
Qed.

(** *** One interaction, by the step it starts from *)

Lemma settle_step1 (e e' : @env rng) w ss :
  ss !! "step" = Some (VInt 1) ->
  agree_off reset_keys ss (settle shuffle e e' w ss)
  \/ (clicked w = Some ContinueToUpload
      /\ settle shuffle e e' w ss !! "step" = Some (VInt 2)
      /\ exists l, l <> [] /\ ss !! "liked_images" = Some (VList l)
                   /\ settle shuffle e e' w ss !! "liked_images" = Some (VList l)).
Proof.
  intros Hstep. unfold settle.
  destruct (main_cases e w ss)
    as [[_ ->]|[_ [[H ->]|[[H ->]|[[H ->]|[[H ->]|[-> _]]]]]]];
    try congruence; try (left; apply agree_off_refl).
  destruct (step1_spec e w ss)
    as [Hag|(ss1 & l & d & Hag & Hne & Hl & Hl1 & Hd & Hc & ->)].
  - left. destruct (step1 shuffle e w ss) as [[] s1|s1|s1|err s1];
      cbn [state_of] in *; try exact Hag.
    eapply agree_off_trans; [exact Hag|].
    apply main_quiet_step1; [discriminate|].
    rewrite (agree_off_step _ _ Hag). exact Hstep.
  - right. split; [exact Hc|].
    rewrite main_quiet_step2; [|discriminate|apply lookup_insert_eq].
    rewrite lookup_insert_eq, lookup_insert_ne by discriminate.
    split; [reflexivity|]. exists l. auto.
Qed.

Lemma settle_step2 (e e' : @env rng) w ss :
  ss !! "step" = Some (VInt 2) ->
  settle shuffle e e' w ss = ss
  \/ (exists data,
        uploaded_file w = Some data /\ image_opens e data = true
        /\ clicked w = Some GenerateOptions
        /\ Py.b64encode data <> EmptyString
        /\ settle shuffle e e' w ss !! "step" = Some (VInt 3)
        /\ settle shuffle e e' w ss !! "room_image" = Some (VStr (Py.b64encode data))).
Proof.
  intros Hstep. unfold settle.
  destruct (main_cases e w ss)
    as [[_ ->]|[_ [[H ->]|[[H ->]|[[H ->]|[[H ->]|[-> _]]]]]]];
    try congruence; try (left; reflexivity).
  destruct (step2_spec e w ss) as [Hsame|(data & Hu & Ho & Hc & Hb & _ & ->)].
  - left. destruct (step2 e w ss) as [[] s1|s1|s1|err s1]; cbn [state_of] in *;
      try exact Hsame.
    subst s1. apply main_quiet_step2; [discriminate|exact Hstep].
  - right. exists data. repeat (split; [assumption|]).
    set (s3 := <["step" := VInt 3]> _).
    assert (H3 : s3 !! "step" = Some (VInt 3)) by apply lookup_insert_eq.
    assert (Hr : s3 !! "room_image" = Some (VStr (Py.b64encode data))).
    { unfold s3. rewrite lookup_insert_ne by discriminate. apply lookup_insert_eq. }
    destruct (main_quiet_step3 e' (no_click w) s3) as [->|[opts ->]];
      [discriminate|exact H3|split; assumption|].
    rewrite !lookup_insert_ne by discriminate. split; assumption.
Qed.

Lemma on_click_cases w ss :
  on_click w ss = ss
  \/ (clicked w = Some BackToPreferences /\ ss !! "step" = Some (VInt 2)
      /\ on_click w ss = <["step" := VInt 1]> ss)
  \/ (clicked w = Some BackToUpload /\ ss !! "step" = Some (VInt 3)
      /\ on_click w ss = <["step" := VInt 2]> ss).
Proof.
  unfold on_click. destruct (clicked w) as [[]|]; try (left; reflexivity).
  - destruct (ss !! "step") as [[[|[p|p|]|]| | |]|]; try (left; reflexivity).
    destruct p as [p|p|]; try (left; reflexivity). right; left. auto.
  - destruct (ss !! "step") as [[[|[p|p|]|]| | |]|]; try (left; reflexivity).
    destruct p as [p|p|]; try (left; reflexivity). right; right. auto.
Qed.


(** *** A new selection, and the run that draws it *)

Lemma init_selection_lists (e : @env rng) ss :
  exists ss1, init_selection shuffle e ss = Next tt ss1
              /\ (ss1 = ss
                  \/ (ss1 !! "liked_images" = Some (VList [])
                      /\ ss1 !! "disliked_images" = Some (VList []))).
Proof.
  unfold init_selection. rewrite bind_unfold. unfold has_key.
  case_bool_decide as Hh.
  - exists ss. split; [reflexivity|left; reflexivity].
  - destruct (select_random_images shuffle (styles e) 5 (gen e)) as [[imgs info] g].
    eexists. split; [reflexivity|]. right. split.
    + rewrite lookup_insert_ne by discriminate. apply lookup_insert_eq.
    + apply lookup_insert_eq.
Qed.

Lemma pressed_no_click w b : clicked w = None -> pressed w b = false.
Proof. intros H. unfold pressed. rewrite H. reflexivity. Qed.

(** With no button pressed, step 1 leaves the state as it is or as
    the new selection made it. *)
Lemma step1_no_click (e : @env rng) w ss :
  clicked w = None ->
  state_of (step1 shuffle e w ss) = ss
  \/ exists ss1, init_selection shuffle e ss = Next tt ss1
                 /\ state_of (step1 shuffle e w ss) = ss1.
Proof.
  intros Hc. unfold step1. destruct (styles e) as [|st0 sts]; [left; reflexivity|].
  right. rewrite bind_unfold.
  destruct (init_selection_lists e ss) as (ss1 & Hinit & _).
  exists ss1. split; [exact Hinit|]. rewrite Hinit.
  rewrite bind_unfold, get_int_unfold.
  destruct (ss1 !! "current_index") as [[ci| | |]|]; try reflexivity.
  rewrite bind_unfold, get_list_unfold.
  destruct (ss1 !! "random_images") as [[| |imgs|]|]; try reflexivity.
  destruct (ci <? Z.of_nat (length imgs)).
  - rewrite bind_unfold. unfold index.
    destruct (_ <? 0); [reflexivity|].
    destruct (imgs !! _) as [img|]; [|reflexivity].
    cbn [mret script_ret]. rewrite bind_unfold, get_info_unfold.
    destruct (ss1 !! "style_info") as [[| | |info]|]; try reflexivity.
    rewrite bind_unfold.
    destruct (info !! img); [|reflexivity]. cbn [mret script_ret].
    rewrite bind_unfold, !pressed_no_click by exact Hc. reflexivity.
  - rewrite bind_unfold, get_list_unfold.
    destruct (ss1 !! "liked_images") as [[| |liked|]|]; try reflexivity.
    rewrite bind_unfold.
    pose proof (style_names_state liked ss1) as Hs.
    destruct (style_names liked ss1) as [[] ss2|ss2|ss2|err ss2]; cbn in Hs; subst ss2;
      try reflexivity.
    rewrite bind_unfold, get_list_unfold.
    destruct (ss1 !! "disliked_images") as [[| |disliked|]|]; try reflexivity.
    rewrite bind_unfold.
    pose proof (style_names_state disliked ss1) as Hs.
    destruct (style_names disliked ss1) as [[] ss2|ss2|ss2|err ss2]; cbn in Hs; subst ss2;
      try reflexivity.
    rewrite bind_unfold, !pressed_no_click by exact Hc. reflexivity.
Qed.

(** The first run of a new session. *)
Lemma first_run (e : @env rng) w :
  configured e -> clicked w = None ->
  let ss' := state_of (main shuffle e w ∅) in
  ss' !! "step" = Some (VInt 1)
  /\ ss' !! "design_options" = None
  /\ ss' !! "room_image" = None
  /\ ss' !! "room_type" = None
  /\ ss' !! "room_size" = None
  /\ (ss' !! "liked_images" = None \/ ss' !! "liked_images" = Some (VList []))
  /\ (ss' !! "disliked_images" = None \/ ss' !! "disliked_images" = Some (VList [])).
Proof.
  intros Hconf Hc. cbn zeta.
  destruct (main_cases e w ∅)
    as [[Hn _]|[_ [[_ ->]|[[H _]|[[H _]|[[H _]|[_ (v & H & _)]]]]]]];
    try contradiction; try (rewrite lookup_empty in H; discriminate).
  set (s0 := <["step" := VInt 1]> (∅ : session_state)).
  assert (Hag : agree_off reset_keys s0 (state_of (step1 shuffle e w s0))).
  { apply step1_quiet. rewrite Hc. discriminate. }
  destruct (agree_off_room _ _ Hag) as (H1 & H2 & H3 & H4).
  rewrite (agree_off_step _ _ Hag), H1, H2, H3, H4.
  repeat (split; [reflexivity|]).
  destruct (step1_no_click e w s0 Hc) as [->|(ss1 & Hinit & ->)];
    [split; left; reflexivity|].
  destruct (init_selection_lists e s0) as (ss1' & Hinit' & Hl).
  rewrite Hinit in Hinit'. injection Hinit' as <-.
  destruct Hl as [->|[-> ->]]; [split; left; reflexivity|split; right; reflexivity].
Qed.

(** At step 3 of a session the button to start over is reached, and
    pressing it clears the state. *)
Lemma start_over_clears (e : @env rng) w ss :
  invariant ss -> ss !! "step" = Some (VInt 3) ->
  configured e -> clicked w = Some StartOver ->
  main shuffle e w ss = Rerun ∅.
Proof.
  intros [Ho Hs] Hstep Hconf Hc. rewrite Hstep in Hs.
  destruct Hs as [[(l & Hl & Hliked) (d & Hdis)]
                    [(enc & Henc & Hroom) [(t & Htype) (z & Hsize)]]].
  destruct (main_cases e w ss)
    as [[Hn _]|[_ [[H _]|[[H _]|[[H _]|[[_ ->]|[_ (v & H & _ & _ & Hv)]]]]]]];
    try contradiction; try congruence.
  unfold step3. rewrite bind_unfold.
  assert (Hens : exists ss1 opts,
             ensure_design_options e ss = Next tt ss1
             /\ opts <> []
             /\ ss1 !! "design_options" = Some (VList opts)
             /\ ss1 !! "room_image" = Some (VStr enc)).
  { unfold ensure_design_options. rewrite bind_unfold. unfold has_key.
    case_bool_decide as Hh.
    - destruct Ho as [Hnone|(opts & Hne & Hopts)].
      + rewrite Hnone in Hh. destruct Hh as [? Hh]. discriminate.
      + exists ss, opts. auto.
    - rewrite bind_unfold, get_list_unfold, Hliked.
      rewrite bind_unfold, get_list_unfold, Hdis.
      rewrite bind_unfold, get_str_unfold, Hroom.
      rewrite bind_unfold, get_str_unfold, Htype.
      rewrite bind_unfold, get_str_unfold, Hsize.
      eexists _, _. split; [reflexivity|].
      split; [|split; [apply lookup_insert_eq|]].
      + apply SegmentationProps.generate_design_options_nonempty. lia.
      + rewrite lookup_insert_ne by discriminate. exact Hroom. }
  destruct Hens as (ss1 & opts & -> & Hne & Hopts & Hroom1).
  unfold show_results. rewrite bind_unfold, get_list_unfold, Hopts.
  rewrite bind_unfold. destruct opts as [|o opts]; [congruence|].
  cbn [mret script_ret]. rewrite bind_unfold, get_str_unfold, Hroom1.
  unfold pressed. rewrite Hc. rewrite bool_decide_eq_true_2 by reflexivity.
  rewrite bind_unfold, clear_all_spec. reflexivity.
Qed.

End WithRandom.

Lemma step_of_lookup ss z : step_of ss = Some z <-> ss !! "step" = Some (VInt z).
Proof.
  unfold step_of. destruct (ss !! "step") as [[]|]; split; intros H; congruence.
Qed.

Lemma list_of_lookup key ss l : list_of key ss = Some l <-> ss !! key = Some (VList l).
Proof.
  unfold list_of. destruct (ss !! key) as [[]|]; split; intros H; congruence.
Qed.

Lemma str_of_lookup key ss x : str_of key ss = Some x <-> ss !! key = Some (VStr x).
Proof.
  unfold str_of. destruct (ss !! key) as [[]|]; split; intros H; congruence.
Qed.

(** C7. In every state a session can reach, and for every
    interaction from it:
    from step 1 the flow stays at step 1 or moves to step 2, and it
    moves only on the button to continue and with a liked list that
    is not empty;
    from step 2 the flow moves to step 3 only on the button to
    generate, with an uploaded file that opens as an image and whose
    base64 encoding, not empty, is stored as the room image;
    and at steps 2 and 3 the liked list is not empty, at step 3 a room
    image that is not empty is stored. *)
Theorem flow_guards {rng : Type}
    (shuffle : forall A : Type, rng -> list A -> list A * rng)
    (ss : session_state) :
  reachable shuffle ss ->
  forall (e e' : env (rng := rng)) (w : widgets),
    let ss' := interact shuffle e e' w ss in
    (step_of ss = Some 1 ->
       step_of ss' = Some 1
       \/ (step_of ss' = Some 2 /\ clicked w = Some ContinueToUpload
           /\ exists l, l <> [] /\ list_of "liked_images" ss = Some l
                        /\ list_of "liked_images" ss' = Some l))
    /\ (step_of ss = Some 2 ->
          step_of ss' = Some 1 \/ step_of ss' = Some 2
          \/ (step_of ss' = Some 3 /\ clicked w = Some GenerateOptions
              /\ exists data,
                   uploaded_file w = Some data /\ data <> []
                   /\ image_opens e data = true
                   /\ Py.b64encode data <> EmptyString
                   /\ str_of "room_image" ss' = Some (Py.b64encode data)))
    /\ (step_of ss = Some 2 \/ step_of ss = Some 3 ->
          exists l, l <> [] /\ list_of "liked_images" ss = Some l)
    /\ (step_of ss = Some 3 ->
          exists enc, enc <> EmptyString /\ str_of "room_image" ss = Some enc).
Proof.
  intros Hreach e e' w. cbn zeta.
  pose proof (reachable_invariant shuffle ss Hreach) as [_ Hinv].
  split; [|split; [|split]].
  - intros Hstep%step_of_lookup. unfold interact.
    destruct (on_click_cases w ss) as [->|[(_ & H & _)|(_ & H & _)]]; try congruence.
    destruct (settle_step1 shuffle e e' w ss Hstep) as [Hag|(Hc & H2 & l & Hne & Hl & Hl')].
    + left. apply step_of_lookup. rewrite (agree_off_step _ _ Hag). exact Hstep.
    + right. split; [apply step_of_lookup; exact H2|]. split; [exact Hc|].
      exists l. split; [exact Hne|]. split; apply list_of_lookup; assumption.
  - intros Hstep%step_of_lookup. unfold interact.
    destruct (on_click_cases w ss) as [->|[(Hc & _ & ->)|(_ & H & _)]]; try congruence.
    + destruct (settle_step2 shuffle e e' w ss Hstep)
        as [->|(data & Hu & Ho & Hc & Hb & H3 & Hr)].
      * right; left. apply step_of_lookup. exact Hstep.
      * right; right. split; [apply step_of_lookup; exact H3|]. split; [exact Hc|].
        exists data. split; [exact Hu|].
        split; [intros ->; apply Hb; reflexivity|].
        split; [exact Ho|]. split; [exact Hb|].
        apply str_of_lookup. exact Hr.
    + left. apply step_of_lookup.
      destruct (settle_step1 shuffle e e' w (<["step" := VInt 1]> ss))
        as [Hag|(Hc' & _)]; [apply lookup_insert_eq| |congruence].
      rewrite (agree_off_step _ _ Hag). apply lookup_insert_eq.
  - intros [Hstep%step_of_lookup|Hstep%step_of_lookup]; rewrite Hstep in Hinv.
    + destruct Hinv as [(l & Hne & Hl) _]. exists l. split; [exact Hne|].
      apply list_of_lookup. exact Hl.
    + destruct Hinv as [[(l & Hne & Hl) _] _]. exists l. split; [exact Hne|].
      apply list_of_lookup. exact Hl.
  - intros Hstep%step_of_lookup. rewrite Hstep in Hinv.
    destruct Hinv as [_ [(enc & Hne & Hr) _]]. exists enc. split; [exact Hne|].
    apply str_of_lookup. exact Hr.
Qed.

Lemma samples_reachable :
  reachable Samples.in_order Samples.all_disliked
  /\ reachable Samples.in_order Samples.at_upload
  /\ reachable Samples.in_order Samples.at_results.
Proof.
  unfold Samples.at_results, Samples.at_upload, Samples.all_disliked, Samples.all_voted,
    Samples.at_start, Samples.act.
  repeat split; repeat apply reach_interact; apply reach_new.
Qed.

Lemma flow_guards_witness :
  (exists l, l <> [] /\ list_of "liked_images" Samples.at_upload = Some l)
  /\ (exists enc, enc <> EmptyString /\ str_of "room_image" Samples.at_results = Some enc).
Proof.
  destruct samples_reachable as (_ & H2 & H3). split.
  - apply (flow_guards Samples.in_order Samples.at_upload H2
             Samples.session_env Samples.session_env Samples.idle).
    left. vm_compute. reflexivity.
  - apply (flow_guards Samples.in_order Samples.at_results H3
             Samples.session_env Samples.session_env Samples.idle).
    vm_compute. reflexivity.
Defined.

(** C8. At step 3 of a session, with the API key set, pressing the
    button to start over deletes every key of the session state, and
    the run that follows is the first run of a new session: the flow
    is at step 1, there are no generated options, no room image, type
    or size, and the liked and the disliked list are empty or not yet
    there. *)
Theorem start_over_resets {rng : Type}
    (shuffle : forall A : Type, rng -> list A -> list A * rng)
    (ss : session_state) (e e' : env (rng := rng)) (w : widgets) :
  reachable shuffle ss -> step_of ss = Some 3 ->
  configured e -> configured e' -> clicked w = Some StartOver ->
  let ss' := interact shuffle e e' w ss in
  main shuffle e w ss = Rerun ∅
  /\ ss' = state_of (main shuffle e' (no_click w) ∅)
  /\ step_of ss' = Some 1
  /\ ss' !! "design_options" = None
  /\ ss' !! "room_image" = None
  /\ ss' !! "room_type" = None
  /\ ss' !! "room_size" = None
  /\ (ss' !! "liked_images" = None \/ list_of "liked_images" ss' = Some [])
  /\ (ss' !! "disliked_images" = None \/ list_of "disliked_images" ss' = Some []).
Proof.
  intros Hreach Hstep%step_of_lookup Hconf Hconf' Hc. cbn zeta.
  pose proof (reachable_invariant shuffle ss Hreach) as Hinv.
  pose proof (start_over_clears shuffle e w ss Hinv Hstep Hconf Hc) as Hmain.
  split; [exact Hmain|].
  assert (Hi : interact shuffle e e' w ss = state_of (main shuffle e' (no_click w) ∅)).
  { unfold interact.
    destruct (on_click_cases w ss) as [->|[(H & _)|(H & _)]]; try congruence.
    unfold settle. rewrite Hmain. reflexivity. }
  split; [exact Hi|]. rewrite Hi.
  destruct (first_run shuffle e' (no_click w) Hconf' eq_refl)
    as (H1 & H2 & H3 & H4 & H5 & H6 & H7).
  split; [apply step_of_lookup; exact H1|].
  repeat (split; [assumption|]).
  split.
  - destruct H6 as [H6|H6]; [left; exact H6|right; apply list_of_lookup; exact H6].
  - destruct H7 as [H7|H7]; [left; exact H7|right; apply list_of_lookup; exact H7].
Qed.

Lemma start_over_resets_witness :
  step_of (Samples.act (Samples.press StartOver) Samples.at_results) = Some 1
  /\ Samples.act (Samples.press StartOver) Samples.at_results !! "design_options" = None.
Proof.
  destruct samples_reachable as (_ & _ & H3).
  pose proof (start_over_resets Samples.in_order Samples.at_results
                Samples.session_env Samples.session_env (Samples.press StartOver) H3) as H.
  destruct H as (_ & _ & H1 & H2 & _).
  - vm_compute. reflexivity.
  - exists "s"%char, "k-test". reflexivity.
  - exists "s"%char, "k-test". reflexivity.
  - reflexivity.
  - split; [exact H1|exact H2].
Defined.

End SessionProps.

(** ** More on curation *)

Module CurationMore.
Import OpenAI Remover Curated.

(** X1.  An image is accepted exactly when it has bytes, the first call
    answers, and the answer, stripped and in upper case, contains
    [YES]. *)
Theorem accepted_iff_yes c w img :
  (evaluate_image c w img).1.1 = true
  <-> exists data text,
        files w !! img = Some data /\ data <> []
        /\ c (api_calls w) (Request "gpt-4o" (first_messages (Py.b64encode data)) 50)
           = Content text
        /\ Py.contains "YES" (Py.upper (Py.strip text)) = true.
Proof.
  unfold evaluate_image, encode_image, call. split.
  - destruct (files w !! img) as [data|] eqn:Hd; [|discriminate].
    destruct (Py.b64encode data) as [|a enc] eqn:Hb; [discriminate|].
    destruct (c (api_calls w) _) as [e| |text] eqn:Hc; cbn [fst snd]; try discriminate.
    destruct (Py.contains "YES" _) eqn:Hy.
    + intros _. exists data, text. rewrite Hb.
      split; [reflexivity|]. split; [intros ->; discriminate Hb|].
      split; [exact Hc|exact Hy].
    + destruct (Py.contains "NO" _); cbn [fst snd]; [|discriminate].
      match goal with |- context [match ?x with Raises _ => _ | _ => _ end] =>
        destruct x end; cbn [fst snd]; discriminate.
  - intros (data & text & Hd & Hne & Hc & Hy). rewrite Hd.
    destruct (Py.b64encode data) as [|a enc] eqn:Hb.
    + exfalso. apply (CurationProps.b64encode_nonempty data Hne). exact Hb.
    + rewrite Hc, Hy. reflexivity.
Qed.

Lemma accepted_iff_yes_witness :
  (evaluate_image Samples.accepting Samples.world0 Samples.img).1.1 = true.
Proof.
  apply (proj2 (accepted_iff_yes Samples.accepting Samples.world0 Samples.img)).
  exists [Byte.xff; Byte.xd8; Byte.xff], "YES".
  repeat split; try reflexivity. discriminate.
Defined.

Lemma evaluate_image_calls c w img :
  ((evaluate_image c w img).1.1 = true ->
     api_calls (evaluate_image c w img).2 = S (api_calls w))
  /\ (api_calls w <= api_calls (evaluate_image c w img).2 <= api_calls w + 2)%nat.
Proof.
  unfold evaluate_image, encode_image, call. split.
  - destruct (files w !! img) as [data|]; [|discriminate].
    destruct (Py.b64encode data) as [|a enc]; [discriminate|].
    destruct (c (api_calls w) _) as [e| |text]; cbn [fst snd]; try discriminate.
    destruct (Py.contains "YES" _); [reflexivity|].
    destruct (Py.contains "NO" _); cbn [fst snd]; [|discriminate].
    match goal with |- context [match ?x with Raises _ => _ | _ => _ end] =>
      destruct x end; cbn [fst snd]; discriminate.
  - destruct (files w !! img) as [data|]; [|cbn; lia].
    destruct (Py.b64encode data) as [|a enc]; [cbn; lia|].
    destruct (c (api_calls w) _) as [e| |text]; cbn [snd api_calls]; try lia.
    destruct (Py.contains "YES" _); cbn [snd api_calls]; [lia|].
    destruct (Py.contains "NO" _); cbn [snd api_calls]; [|lia].
    match goal with |- context [match ?x with Raises _ => _ | _ => _ end] =>
      destruct x end; cbn [snd api_calls]; lia.
Qed.

(** X2.  The calls of one evaluation: none for a file that cannot be read or
    has no bytes, which is rejected at once; exactly one for an accepted
    image; never more than two. *)
Theorem calls_of_an_evaluation c w img :
  (files w !! img = None \/ files w !! img = Some [] ->
     evaluate_image c w img = ((false, "Failed to encode image"), w))
  /\ ((evaluate_image c w img).1.1 = true ->
        api_calls (evaluate_image c w img).2 = S (api_calls w))
  /\ (api_calls w <= api_calls (evaluate_image c w img).2 <= api_calls w + 2)%nat.
Proof.
  split; [|apply evaluate_image_calls].
  unfold evaluate_image, encode_image. intros [-> | ->]; reflexivity.
Qed.

Lemma calls_of_an_evaluation_witness :
  evaluate_image Samples.accepting (World (<[Samples.img := []]> ∅) 7) Samples.img
  = ((false, "Failed to encode image"), World (<[Samples.img := []]> ∅) 7).
Proof.
  apply (proj1 (calls_of_an_evaluation Samples.accepting
                  (World (<[Samples.img := []]> ∅) 7) Samples.img)).
  right. vm_compute. reflexivity.
Defined.

(** *** The counters of a run *)

Lemma delete_rejected_stats style_name img w st :
  let r := delete_rejected style_name img (w, st) in
  api_calls r.1 = api_calls w
  /\ total_processed r.2 = total_processed st
  /\ kept r.2 = kept st /\ removed r.2 = removed st
  /\ errors st <= errors r.2 <= errors st + 1.
Proof.
  cbn zeta. unfold delete_rejected, unlink.
  destruct (files w !! img); cbn [files api_calls]; [|cbn; lia].
  destruct (delete img (files w) !! metadata_file img); cbn; lia.
Qed.

Lemma process_image_total c dry_run style_name w st img :
  total_processed (process_image c dry_run style_name (w, st) img).2
  = total_processed st + 1.
Proof.
  unfold process_image.
  destruct (evaluate_image c w img) as [[good reason] w1].
  destruct good; [reflexivity|]. destruct dry_run; [reflexivity|].
  destruct (delete_rejected_stats style_name img w1
              (count_removed style_name (count_total style_name st)))
    as (_ & -> & _). reflexivity.
Qed.

Lemma process_image_accounted calls0 c dry_run style_name ws img :
  accounted calls0 ws -> accounted calls0 (process_image c dry_run style_name ws img).
Proof.
  destruct ws as [w st]. unfold accounted. cbn [fst snd]. intros (Ht & Hk & He & Hc).
  unfold process_image.
  pose proof (evaluate_image_calls c w img) as [Hgood Hcalls].
  destruct (evaluate_image c w img) as [[good reason] w1]. cbn [fst snd] in *.
  destruct good.
  - specialize (Hgood eq_refl). cbn. lia.
  - destruct dry_run; [cbn; lia|].
    destruct (delete_rejected_stats style_name img w1
                (count_removed style_name (count_total style_name st)))
      as (H1 & H2 & H3 & H4 & H5).
    cbn zeta in *. rewrite H1, H2, H3, H4. cbn in *. lia.
Qed.

Lemma process_images_accounted calls0 c dry_run style_name imgs : forall ws,
  accounted calls0 ws ->
  accounted calls0 (fold_left (process_image c dry_run style_name) imgs ws).
Proof.
  induction imgs as [|img imgs IH]; intros ws H; [exact H|].
  cbn [fold_left]. apply IH, process_image_accounted, H.
Qed.

Lemma process_images_total c dry_run style_name imgs : forall ws,
  total_processed (fold_left (process_image c dry_run style_name) imgs ws).2
  = total_processed ws.2 + Z.of_nat (length imgs).
Proof.
  induction imgs as [|img imgs IH]; intros [w st]; cbn [fold_left length]; [cbn; lia|].
  rewrite IH.
  pose proof (process_image_total c dry_run style_name w st img) as H.
  destruct (process_image c dry_run style_name (w, st) img). cbn [snd] in *. lia.
Qed.

Lemma process_style_accounted calls0 c dry_run limit ws style_name :
  accounted calls0 ws -> accounted calls0 (process_style c dry_run limit ws style_name).
Proof.
  destruct ws as [w st]. intros H. unfold process_style.
  apply process_images_accounted. exact H.
Qed.

Lemma process_styles_accounted calls0 c dry_run limit dirs : forall ws,
  accounted calls0 ws ->
  accounted calls0 (fold_left (process_style c dry_run limit) dirs ws).
Proof.
  induction dirs as [|d dirs IH]; intros ws H; [exact H|].
  cbn [fold_left]. apply IH, process_style_accounted, H.
Qed.

(** Per style: what one image does to the counters of its style. *)
Lemma process_image_by_style c dry_run style_name w st img :
  exists g : style_stats -> style_stats,
    by_style (process_image c dry_run style_name (w, st) img).2
    = alter g style_name (by_style st)
    /\ forall ss, style_accounted ss -> style_accounted (g ss).
Proof.
  unfold process_image.
  destruct (evaluate_image c w img) as [[good reason] w1].
  destruct good; [|destruct dry_run].
  - eexists. split; [cbn; rewrite !alter_alter_eq; reflexivity|].
    intros ss (H1 & H2 & H3). unfold style_accounted. cbn. lia.
  - eexists. split; [cbn; rewrite !alter_alter_eq; reflexivity|].
    intros ss (H1 & H2 & H3). unfold style_accounted. cbn. lia.
  - unfold delete_rejected, unlink.
    destruct (files w1 !! img); cbn [files api_calls].
    + destruct (delete img (files w1) !! metadata_file img);
        (eexists; split; [cbn; rewrite !alter_alter_eq; reflexivity|];
         intros ss (H1 & H2 & H3); unfold style_accounted; cbn; lia).
    + eexists. split; [cbn; rewrite !alter_alter_eq; reflexivity|].
      intros ss (H1 & H2 & H3). unfold style_accounted. cbn. lia.
Qed.

Lemma process_images_by_style c dry_run style_name imgs : forall ws,
  map_Forall (fun _ => style_accounted) (by_style ws.2) ->
  map_Forall (fun _ => style_accounted)
             (by_style (fold_left (process_image c dry_run style_name) imgs ws).2).
Proof.
  induction imgs as [|img imgs IH]; intros [w st] H; [exact H|].
  cbn [fold_left]. apply IH.
  destruct (process_image_by_style c dry_run style_name w st img) as (g & -> & Hg).
  intros k ss Hk. cbn [snd] in H.
  rewrite lookup_alter in Hk. case_decide as Hd.
  - destruct (by_style st !! style_name) as [ss0|] eqn:E; [|discriminate].
    injection Hk as <-. apply Hg. exact (H _ _ E).
  - exact (H _ _ Hk).
Qed.

Lemma process_styles_by_style c dry_run limit dirs : forall ws,
  map_Forall (fun _ => style_accounted) (by_style ws.2) ->
  map_Forall (fun _ => style_accounted)
             (by_style (fold_left (process_style c dry_run limit) dirs ws).2).
Proof.
  induction dirs as [|d dirs IH]; intros [w st] H; [exact H|].
  cbn [fold_left]. apply IH. unfold process_style.
  apply process_images_by_style. cbn [snd by_style] in *.
  apply map_Forall_insert_2; [|exact H].
  unfold style_accounted. cbn. lia.
Qed.

(** X3.  The summary of every run that reaches the loop adds up: the
    images processed are the kept and the removed ones, the errors are
    at most the removed ones, at least one call was made for every kept
    image and at most two for every processed one, and the same holds
    for the counters of every style. *)
Theorem summary_adds_up e c dry_run limit w st w' :
  process_directories e c dry_run limit w = (Some st, w') ->
  accounted (api_calls w) (w', st)
  /\ map_Forall (fun _ => style_accounted) (by_style st).
Proof.
  unfold process_directories.
  destruct (api_key e) as [[|a k]|]; try discriminate.
  destruct (base_dir_exists e); cbn [negb]; [|discriminate].
  pose proof (process_styles_accounted (api_calls w) c dry_run limit (style_dirs e)
                (w, empty_stats)) as Ha.
  pose proof (process_styles_by_style c dry_run limit (style_dirs e)
                (w, empty_stats)) as Hb.
  destruct (fold_left _ _ _) as [w1 st1]. intros [= <- <-]. split.
  - apply Ha. unfold accounted. cbn. lia.
  - apply Hb. cbn. apply map_Forall_empty.
Qed.

Lemma summary_adds_up_witness :
  match process_directories Samples.curation_env Samples.rejecting false None
          MoreSamples.gallery_world with
  | (Some st, _) => total_processed st = kept st + removed st
  | (None, _) => False
  end.
Proof.
  destruct (process_directories Samples.curation_env Samples.rejecting false None
              MoreSamples.gallery_world) as [[st|] w'] eqn:E.
  - destruct (summary_adds_up Samples.curation_env Samples.rejecting false None
                MoreSamples.gallery_world st w' E) as [[H _] _].
    exact H.
  - vm_compute in E. discriminate E.
Defined.

(** *** The limit *)

Lemma process_style_within limit_ c dry_run ws style_name :
  0 < limit_ -> total_processed ws.2 <= limit_ ->
  total_processed (process_style c dry_run (Some limit_) ws style_name).2 <= limit_.
Proof.
  destruct ws as [w st]. cbn [snd]. intros Hpos Hle. unfold process_style.
  rewrite process_images_total. cbn [snd total_processed].
  set (imgs := image_files_of style_name w).
  set (st0 := Stats _ _ _ _ _).
  unfold apply_limit. change (total_processed st0) with (total_processed st).
  destruct (_ && _) eqn:Hc.
  - pose proof (AcquisitionProps.slice_upto_length (limit_ - total_processed st) imgs).
    lia.
  - apply andb_false_iff in Hc as [Hc|Hc].
    + apply negb_false_iff, Z.eqb_eq in Hc. lia.
    + apply Z.ltb_ge in Hc. lia.
Qed.

Lemma process_styles_within limit_ c dry_run dirs : forall ws,
  0 < limit_ -> total_processed ws.2 <= limit_ ->
  total_processed (fold_left (process_style c dry_run (Some limit_)) dirs ws).2 <= limit_.
Proof.
  induction dirs as [|d dirs IH]; intros ws Hpos Hle; [exact Hle|].
  cbn [fold_left]. apply IH; [exact Hpos|]. apply process_style_within; assumption.
Qed.

(** X4.  A positive limit bounds the number of images a run processes, and
    the limit 0 is no limit: the run is the run without a limit. *)
Theorem limit_bounds_the_run e c dry_run w :
  (forall limit_ st w',
      0 < limit_ ->
      process_directories e c dry_run (Some limit_) w = (Some st, w') ->
      total_processed st <= limit_)
  /\ process_directories e c dry_run (Some 0) w = process_directories e c dry_run None w.
Proof.
  split.
  - intros limit_ st w' Hpos. unfold process_directories.
    destruct (api_key e) as [[|a k]|]; try discriminate.
    destruct (base_dir_exists e); cbn [negb]; [|discriminate].
    pose proof (process_styles_within limit_ c dry_run (style_dirs e) (w, empty_stats)
                  Hpos) as H.
    destruct (fold_left _ _ _) as [w1 st1]. intros [= <- <-].
    apply H. cbn. lia.
  - reflexivity.
Qed.

Lemma limit_bounds_the_run_witness :
  match process_directories Samples.curation_env Samples.rejecting true (Some 2)
          MoreSamples.gallery_world with
  | (Some st, _) => total_processed st <= 2
  | (None, _) => False
  end.
Proof.
  destruct (process_directories Samples.curation_env Samples.rejecting true (Some 2)
              MoreSamples.gallery_world) as [[st|] w'] eqn:E.
  - apply (proj1 (limit_bounds_the_run Samples.curation_env Samples.rejecting true
                    MoreSamples.gallery_world) 2 st w'); [lia|exact E].
  - vm_compute in E. discriminate E.
Defined.

(** *** What a run deletes *)

Lemma only_images_deleted_refl fs : only_images_deleted fs fs.
Proof. intros p. left. reflexivity. Qed.

Lemma only_images_deleted_trans fs1 fs2 fs3 :
  only_images_deleted fs1 fs2 -> only_images_deleted fs2 fs3 ->
  only_images_deleted fs1 fs3.
Proof.
  intros H12 H23 p.
  destruct (H23 p) as [H|(H & img & Hin & Hname & Hgone & Hp)].
  - rewrite H.
    destruct (H12 p) as [H'|(H' & img & Hin & Hname & Hgone & Hp)]; [left; exact H'|].
    right. split; [exact H'|]. exists img.
    split; [exact Hin|]. split; [exact Hname|]. split; [|exact Hp].
    destruct (H23 img) as [E|[E _]]; [rewrite E; exact Hgone|exact E].
  - right. split; [exact H|]. exists img.
    split; [|split; [exact Hname|split; [exact Hgone|exact Hp]]].
    destruct (H12 img) as [E|[E _]]; [rewrite <- E; exact Hin|].
    rewrite E in Hin. destruct Hin as [? Hin]. discriminate Hin.
Qed.

Lemma process_image_deletes c dry_run style_name w st (img : path) :
  is_image_name img.2 = true ->
  only_images_deleted (files w) (files (process_image c dry_run style_name (w, st) img).1).
Proof.
  intros Himg. unfold process_image.
  pose proof (CurationProps.evaluate_image_files c w img) as Hf.
  destruct (evaluate_image c w img) as [[good reason] w1]. cbn [fst snd] in *.
  rewrite <- Hf.
  destruct good; [apply only_images_deleted_refl|].
  destruct dry_run; [apply only_images_deleted_refl|].
  unfold delete_rejected, unlink.
  destruct (files w1 !! img) eqn:Hex; cbn [fst files];
    [|apply only_images_deleted_refl].
  assert (Hin : is_Some (files w1 !! img)) by eauto.
  destruct (delete img (files w1) !! metadata_file img); cbn [fst files].
  - assert (Hgone : delete (metadata_file img) (delete img (files w1)) !! img = None).
    { destruct (decide (metadata_file img = img)) as [Heq|Hne].
      - rewrite Heq. apply lookup_delete_eq.
      - rewrite lookup_delete_ne by exact Hne. apply lookup_delete_eq. }
    intros p. destruct (decide (metadata_file img = p)) as [<-|Hmeta].
    + right. rewrite lookup_delete_eq. split; [reflexivity|]. exists img. auto.
    + rewrite (lookup_delete_ne _ _ _ Hmeta).
      destruct (decide (img = p)) as [<-|Hne].
      * right. rewrite lookup_delete_eq. split; [reflexivity|]. exists img. auto.
      * left. apply lookup_delete_ne. exact Hne.
  - intros p. destruct (decide (img = p)) as [<-|Hne].
    + right. rewrite lookup_delete_eq. split; [reflexivity|]. exists img.
      rewrite lookup_delete_eq. auto.
    + left. apply lookup_delete_ne. exact Hne.
Qed.

Lemma process_images_delete c dry_run style_name imgs : forall ws,
  Forall (fun img : path => is_image_name img.2 = true) imgs ->
  only_images_deleted (files ws.1)
    (files (fold_left (process_image c dry_run style_name) imgs ws).1).
Proof.
  induction imgs as [|img imgs IH]; intros [w st] Hall; cbn [fold_left];
    [apply only_images_deleted_refl|].
  inversion Hall as [|? ? Himg Hrest]; subst.
  eapply only_images_deleted_trans; [|apply IH; exact Hrest].
  pose proof (process_image_deletes c dry_run style_name w st img Himg) as H.
  destruct (process_image c dry_run style_name (w, st) img). exact H.
Qed.

Lemma image_files_are_images style_dir w :
  Forall (fun img : path => is_image_name img.2 = true) (image_files_of style_dir w).
Proof.
  apply Forall_forall. intros p Hp. unfold image_files_of in Hp.
  apply list_elem_of_filter in Hp as [_ Hp]. unfold is_image_name.
  rewrite !elem_of_app, !CurationProps.glob_spec in Hp.
  destruct Hp as [[[_ ->] _]|[[[_ ->] _]|[[_ ->] _]]];
    rewrite ?orb_true_r; reflexivity.
Qed.

Lemma process_style_deletes c dry_run limit ws style_name :
  only_images_deleted (files ws.1) (files (process_style c dry_run limit ws style_name).1).
Proof.
  destruct ws as [w st]. unfold process_style.
  match goal with
  | |- context [fold_left _ ?l (w, ?s)] =>
      apply (process_images_delete c dry_run style_name l (w, s))
  end.
  apply Forall_forall. intros p Hp.
  eapply (proj1 (Forall_forall _ _) (image_files_are_images style_name w)).
  eapply sublist_subseteq; [apply CurationProps.apply_limit_sublist|exact Hp].
Qed.

Lemma process_styles_delete c dry_run limit names : forall ws,
  only_images_deleted (files ws.1)
    (files (fold_left (process_style c dry_run limit) names ws).1).
Proof.
  induction names as [|name names IH]; intros ws; cbn [fold_left];
    [apply only_images_deleted_refl|].
  eapply only_images_deleted_trans; [apply process_style_deletes|apply IH].
Qed.

(** X5.  Whatever the model answers and in either mode, a curation run
    leaves every file under [room_styles] either exactly as it was or
    deleted, and a deleted file is an image that was in the tree (a
    file with a name in .jpg, .jpeg or .png) and is gone after the run,
    or the sidecar of such an image: under [room_styles] nothing is
    created and nothing is rewritten. *)
Theorem run_only_deletes_images_and_sidecars e c dry_run limit w :
  only_images_deleted (files w) (files (process_directories e c dry_run limit w).2).
Proof.
  unfold process_directories.
  destruct (api_key e) as [[|a k]|]; try apply only_images_deleted_refl.
  destruct (negb (base_dir_exists e)); [apply only_images_deleted_refl|].
  pose proof (process_styles_delete c dry_run limit (style_dirs e) (w, empty_stats)) as H.
  destruct (fold_left _ _ _) as [w' st]. exact H.
Qed.

(** *** The error counters *)

Lemma process_image_no_error c dry_run style_name w st img :
  is_Some (files w !! img) ->
  errors (process_image c dry_run style_name (w, st) img).2 = errors st
  /\ exists g : style_stats -> style_stats,
       by_style (process_image c dry_run style_name (w, st) img).2
       = alter g style_name (by_style st)
       /\ forall ss, s_errors (g ss) = s_errors ss.
Proof.
  intros Hex. unfold process_image.
  pose proof (CurationProps.evaluate_image_files c w img) as Hf.
  destruct (evaluate_image c w img) as [[good reason] w1]. cbn [fst snd] in *.
  rewrite <- Hf in Hex. destruct Hex as [data Hdata].
  destruct good; [|destruct dry_run].
  - split; [reflexivity|]. eexists.
    split; [cbn; rewrite !alter_alter_eq; reflexivity|]. intros ss. reflexivity.
  - split; [reflexivity|]. eexists.
    split; [cbn; rewrite !alter_alter_eq; reflexivity|]. intros ss. reflexivity.
  - unfold delete_rejected, unlink. rewrite Hdata. cbn [files api_calls].
    destruct (delete img (files w1) !! metadata_file img); cbn [snd];
      (split; [reflexivity|]; eexists;
       split; [cbn; rewrite !alter_alter_eq; reflexivity|]; intros ss; reflexivity).
Qed.

Lemma process_images_no_error c dry_run style_name imgs : forall ws,
  NoDup imgs ->
  (forall img, img ∈ imgs ->
     is_Some (files ws.1 !! img) /\ Py.endswith ".txt" img.2 = false) ->
  errors ws.2 = 0 ->
  map_Forall (fun _ ss => s_errors ss = 0) (by_style ws.2) ->
  errors (fold_left (process_image c dry_run style_name) imgs ws).2 = 0
  /\ map_Forall (fun _ ss => s_errors ss = 0)
       (by_style (fold_left (process_image c dry_run style_name) imgs ws).2).
Proof.
  induction imgs as [|img imgs IH]; intros [w st] Hnd Hall He Hs; cbn [fold_left];
    [split; assumption|].
  apply NoDup_cons in Hnd as [Hnotin Hnd].
  destruct (Hall img) as [Hex Htxt]; [left|]. cbn [fst snd] in *.
  pose proof (process_image_no_error c dry_run style_name w st img Hex) as (He' & g & Hg & Hgs).
  pose proof (CurationProps.process_image_files c dry_run style_name w st img Hex) as Hf.
  destruct (process_image c dry_run style_name (w, st) img) as [w' st'] eqn:E.
  cbn [fst snd] in *. apply IH; cbn [fst snd].
  - exact Hnd.
  - intros img' Hin. destruct (Hall img') as [Hex' Htxt']; [right; exact Hin|].
    split; [|exact Htxt'].
    destruct Hf as [->| ->]; [exact Hex'|].
    rewrite lookup_delete_ne, lookup_delete_ne; [exact Hex'| |];
      [intros <-; contradiction|].
    intros Heq. rewrite <- Heq in Htxt'. unfold metadata_file in Htxt'. cbn [snd] in Htxt'.
    rewrite PyFacts.with_suffix_txt in Htxt'. discriminate.
  - lia.
  - rewrite Hg. intros k ss Hk. rewrite lookup_alter in Hk. case_decide as Hd.
    + destruct (by_style st !! style_name) as [ss0|] eqn:E0; [|discriminate].
      injection Hk as <-. rewrite Hgs. exact (Hs _ _ E0).
    + exact (Hs _ _ Hk).
Qed.

Lemma process_styles_no_error c dry_run limit dirs : forall ws,
  errors ws.2 = 0 ->
  map_Forall (fun _ ss => s_errors ss = 0) (by_style ws.2) ->
  errors (fold_left (process_style c dry_run limit) dirs ws).2 = 0
  /\ map_Forall (fun _ ss => s_errors ss = 0)
       (by_style (fold_left (process_style c dry_run limit) dirs ws).2).
Proof.
  induction dirs as [|d dirs IH]; intros [w st] He Hs; cbn [fold_left];
    [split; assumption|].
  unfold process_style.
  pose proof (CurationProps.apply_limit_sublist limit
                (Stats (total_processed st) (kept st) (removed st) (errors st)
                       (<[d := StyleStats 0 0 0 0]> (by_style st)))
                (image_files_of d w)) as Hsub.
  match goal with
  | |- context [fold_left (process_image _ _ _) ?l (w, ?s)] =>
      destruct (process_images_no_error c dry_run d l (w, s)) as [He' Hs']
  end.
  - eapply sublist_NoDup; [apply CurationProps.image_files_of_NoDup|exact Hsub].
  - intros img Hin. apply (CurationProps.image_files_of_spec d).
    eapply sublist_subseteq; [exact Hsub|exact Hin].
  - exact He.
  - cbn [snd by_style] in *. apply map_Forall_insert_2; [reflexivity|exact Hs].
  - apply IH; assumption.
Qed.

(** X6.  In a run whose only file-system failure would be a missing file,
    no deletion ever fails: the images of a style are distinct and on
    disk when their turn comes, a sidecar is unlinked only when it
    exists, and a failing call is counted as a removal.  So the error
    counter of the summary, and that of every style, is 0 after every
    run, in either mode and whatever the model answers. *)
Theorem error_counters_stay_zero e c dry_run limit w st :
  (process_directories e c dry_run limit w).1 = Some st ->
  errors st = 0 /\ map_Forall (fun _ ss => s_errors ss = 0) (by_style st).
Proof.
  unfold process_directories.
  destruct (api_key e) as [[|a k]|]; try discriminate.
  destruct (negb (base_dir_exists e)); [discriminate|].
  pose proof (process_styles_no_error c dry_run limit (style_dirs e) (w, empty_stats)) as H.
  destruct (fold_left _ _ _) as [w' st']. cbn [fst snd] in *.
  intros [= <-]. apply H; [reflexivity|apply map_Forall_empty].
Qed.

Lemma error_counters_stay_zero_witness :
  (errors <$> (process_directories Samples.curation_env Samples.down false None
                 MoreSamples.gallery_world).1) = Some 0.
Proof.
  destruct (process_directories Samples.curation_env Samples.down false None
              MoreSamples.gallery_world).1 as [st|] eqn:E.
  - cbn [fmap option_fmap option_map]. f_equal.
    exact (proj1 (error_counters_stay_zero _ _ _ _ _ st E)).
  - vm_compute in E. discriminate E.
Defined.

End CurationMore.

(** ** More on strings *)

Module PyMore.

Lemma list_ascii_inj (s t : string) :
  list_ascii_of_string s = list_ascii_of_string t -> s = t.
Proof.
  intros H. rewrite <- (string_of_list_ascii_of_string s),
              <- (string_of_list_ascii_of_string t), H. reflexivity.
Qed.

Lemma app_inv_tail (s t x : string) : s +:+ x = t +:+ x -> s = t.
Proof.
  intros H. apply list_ascii_inj.
  apply (f_equal list_ascii_of_string) in H. rewrite !PyFacts.list_ascii_app in H.
  exact (List.app_inv_tail _ _ _ H).
Qed.

Lemma jpg_is_no_txt (s t : string) : s +:+ ".jpg" <> t +:+ ".txt".
Proof.
  intros H. apply (f_equal list_ascii_of_string) in H.
  rewrite !PyFacts.list_ascii_app in H.
  apply app_inj_2 in H as [_ H]; [discriminate H|reflexivity].
Qed.

End PyMore.

(** ** Acquisition, continued *)

Module AcquisitionMore.
Import Downloader Acquired.

(** *** From one saved image to a whole call *)

Section Lift.
Context {rng : Type}.
Variable shuffle : rng -> list photo -> list photo * rng.
Variable net : network.
Variable style_dir : string.
Variable R : gmap (string * string) file -> gmap (string * string) file -> Prop.
Hypothesis R_refl : forall fs, R fs fs.
Hypothesis R_trans : forall fs1 fs2 fs3, R fs1 fs2 -> R fs2 fs3 -> R fs1 fs3.
Hypothesis R_save : forall keyword p width height (s : state (rng := rng)),
  R (files s) (files (save_if_large style_dir keyword p width height s)).

Lemma download_photo_lift keyword (s : state (rng := rng)) p :
  R (files s) (files (download_photo net style_dir keyword s p)).
Proof.
  unfold download_photo. destruct (src_large p) as [url|]; [|apply R_refl].
  unfold get. destruct (net (http_calls s) url) as [r|]; [|apply R_refl].
  destruct (status_code r =? 200); [|apply R_refl].
  destruct (image_size r) as [[width height]|]; [|apply R_refl].
  apply (R_save keyword p width height (State (files s) _ _ _)).
Qed.

Lemma download_photos_lift keyword max_images photos :
  forall s : state (rng := rng),
    R (files s) (files (download_photos net style_dir keyword max_images photos s)).
Proof.
  induction photos as [|p photos IH]; intros s; cbn [download_photos]; [apply R_refl|].
  destruct (max_images <=? total_downloaded s); [apply R_refl|].
  eapply R_trans; [apply download_photo_lift|apply IH].
Qed.

Lemma run_queries_lift keyword max_images ipk queries :
  forall s : state (rng := rng),
    R (files s)
      (files (run_queries shuffle net style_dir keyword max_images ipk queries s)).
Proof.
  induction queries as [|q queries IH]; intros s; cbn [run_queries]; [apply R_refl|].
  destruct (ipk <=? total_downloaded s); [apply R_refl|].
  unfold get. destruct (net (http_calls s) (search_url q)) as [r|];
    [|apply (IH (State (files s) _ _ _))].
  destruct (negb (status_code r =? 200)); [apply (IH (State (files s) _ _ _))|].
  destruct (json_photos r) as [[|p0 photos]|]; try apply (IH (State (files s) _ _ _)).
  cbn [gen files http_calls total_downloaded].
  destruct (shuffle (gen s) (p0 :: photos)) as [shuffled g].
  cbn [gen files http_calls total_downloaded].
  match goal with
  | |- context [download_photos net style_dir keyword max_images ?l ?s0] =>
      pose proof (download_photos_lift keyword max_images l s0) as Hd;
      destruct (0 <? total_downloaded (download_photos net style_dir keyword max_images l s0))
  end.
  - exact Hd.
  - eapply R_trans; [exact Hd|apply IH].
Qed.

Lemma run_keywords_lift style_name max_images ipk keywords :
  forall s : state (rng := rng),
    R (files s)
      (files (fold_left (run_keyword shuffle net style_name style_dir max_images ipk)
                keywords s)).
Proof.
  induction keywords as [|k keywords IH]; intros s; cbn [fold_left]; [apply R_refl|].
  eapply R_trans; [|apply IH]. apply run_queries_lift.
Qed.

End Lift.

Section Runs.
Context {rng : Type}.
Variable shuffle : rng -> list photo -> list photo * rng.
Variable net : network.

Lemma download_pexels_images_lift
    (R : gmap (string * string) file -> gmap (string * string) file -> Prop)
    key st max_images (s : state (rng := rng)) :
  (forall fs, R fs fs) ->
  (forall fs1 fs2 fs3, R fs1 fs2 -> R fs2 fs3 -> R fs1 fs3) ->
  (forall keyword p width height (s : state (rng := rng)),
     R (files s)
       (files (save_if_large (Py.lower (Py.replace_char " " "_" (name st)))
                 keyword p width height s))) ->
  R (files s) (files (download_pexels_images shuffle net key st max_images s).2).
Proof.
  intros R_refl R_trans R_save. unfold download_pexels_images.
  destruct (search_keywords st) as [[|k0 keywords]|]; try apply R_refl.
  destruct key as [[|a key]|]; try apply R_refl.
  destruct (String.eqb _ _); [apply R_refl|].
  unfold get. cbn [fst snd http_calls files gen total_downloaded].
  destruct (net _ test_url) as [r|]; [|apply R_refl].
  destruct (negb (status_code r =? 200)); [apply R_refl|].
  cbn [snd].
  apply (run_keywords_lift shuffle net _ R R_refl R_trans R_save _ _ _
           (k0 :: keywords) (State (files s) _ _ _)).
Qed.

(** *** Sidecars *)

Lemma sidecars_follow_refl (fs : gmap (string * string) file) : sidecars_follow fs fs.
Proof. intros dir stem width height H. left. split; [exact H|reflexivity]. Qed.

Lemma sidecars_follow_trans (fs1 fs2 fs3 : gmap (string * string) file) :
  sidecars_follow fs1 fs2 -> sidecars_follow fs2 fs3 -> sidecars_follow fs1 fs3.
Proof.
  intros H12 H23 dir stem width height H3.
  destruct (H23 _ _ _ _ H3) as [[H2 Ht]|[p Hp]]; [|right; eauto].
  destruct (H12 _ _ _ _ H2) as [[H1 Ht']|[p Hp]].
  - left. split; [exact H1|]. rewrite Ht. exact Ht'.
  - right. exists p. rewrite Ht. exact Hp.
Qed.

Lemma save_if_large_sidecar style_dir keyword p width height (s : state (rng := rng)) :
  sidecars_follow (files s) (files (save_if_large style_dir keyword p width height s)).
Proof.
  unfold save_if_large. destruct (_ && _); [|apply sidecars_follow_refl].
  cbn [files]. intros dir stem w h Hjpg.
  rewrite lookup_insert_ne in Hjpg
    by (intros [= _ Hn]; symmetry in Hn; exact (PyMore.jpg_is_no_txt _ _ Hn)).
  destruct (decide ((style_dir, file_stem keyword p +:+ ".jpg") = (dir, stem +:+ ".jpg")))
    as [Heq|Hne].
  - injection Heq as <- Hstem. apply PyMore.app_inv_tail in Hstem. subst stem.
    rewrite lookup_insert_eq in Hjpg. injection Hjpg as <- <-.
    right. exists p. apply lookup_insert_eq.
  - rewrite lookup_insert_ne in Hjpg by exact Hne.
    left. split; [exact Hjpg|].
    rewrite lookup_insert_ne.
    + apply lookup_insert_ne. intros [= _ Hn]. exact (PyMore.jpg_is_no_txt _ _ Hn).
    + intros [= Hd Hn]. apply PyMore.app_inv_tail in Hn. apply Hne. congruence.
Qed.

(** X9.  After a call of [download_pexels_images], whatever the service
    returns, every image in the tree is an image that was there before
    with its sidecar untouched, or has a sidecar beside it ([stem.txt]
    for [stem.jpg]) that holds the attribution of a photo and the
    decoded size of this very image. *)
Theorem saved_images_have_sidecars key st max_images (s : state (rng := rng)) :
  sidecars_follow (files s)
    (files (download_pexels_images shuffle net key st max_images s).2).
Proof.
  apply download_pexels_images_lift.
  - apply sidecars_follow_refl.
  - apply sidecars_follow_trans.
  - intros. apply save_if_large_sidecar.
Qed.

(** *** Where a call writes *)

Lemma writes_within_refl (style_dir : string) (fs : gmap (string * string) file) :
  writes_within style_dir fs fs.
Proof. intros p. left. reflexivity. Qed.

Lemma writes_within_trans (style_dir : string) (fs1 fs2 fs3 : gmap (string * string) file) :
  writes_within style_dir fs1 fs2 -> writes_within style_dir fs2 fs3 ->
  writes_within style_dir fs1 fs3.
Proof.
  intros H12 H23 p. destruct (H23 p) as [H|H]; [|right; exact H].
  destruct (H12 p) as [H'|(Hd & Hs & He)].
  - left. rewrite H. exact H'.
  - right. rewrite H. auto.
Qed.

Lemma save_if_large_within style_dir keyword p width height (s : state (rng := rng)) :
  writes_within style_dir (files s)
    (files (save_if_large style_dir keyword p width height s)).
Proof.
  unfold save_if_large. destruct (_ && _); [|apply writes_within_refl].
  cbn [files]. intros q.
  destruct (decide ((style_dir, file_stem keyword p +:+ ".txt") = q)) as [<-|Htxt].
  { right. rewrite lookup_insert_eq. cbn [fst snd].
    split; [reflexivity|]. split; [eauto|]. right. apply PyFacts.endswith_app. }
  rewrite lookup_insert_ne by exact Htxt.
  destruct (decide ((style_dir, file_stem keyword p +:+ ".jpg") = q)) as [<-|Hjpg].
  { right. rewrite lookup_insert_eq. cbn [fst snd].
    split; [reflexivity|]. split; [eauto|]. left. apply PyFacts.endswith_app. }
  left. apply lookup_insert_ne. exact Hjpg.
Qed.

(** X10.  A call of [download_pexels_images] deletes nothing and writes
    only [.jpg] and [.txt] files of the directory of its style (the
    name of the style in lower case, spaces as underscores): every
    other path of the tree is as it was. *)
Theorem call_writes_in_its_style_directory key st max_images (s : state (rng := rng)) :
  writes_within (Py.lower (Py.replace_char " " "_" (name st))) (files s)
    (files (download_pexels_images shuffle net key st max_images s).2).
Proof.
  apply download_pexels_images_lift.
  - apply writes_within_refl.
  - apply writes_within_trans.
  - intros. apply save_if_large_within.
Qed.

(** *** Calls that end early *)

(** X11.  A call that raises (no key, the placeholder key, a key the
    service does not accept, or a failing test request) has written
    nothing, has counted nothing and has sent at most the one test
    request. *)
Theorem failed_call_leaves_the_tree key st max_images (s : state (rng := rng)) e :
  (download_pexels_images shuffle net key st max_images s).1 = Raised e ->
  let s' := (download_pexels_images shuffle net key st max_images s).2 in
  files s' = files s
  /\ total_downloaded s' = 0
  /\ (http_calls s' <= S (http_calls s))%nat
  /\ (http_calls s' = http_calls s
      <-> key = None \/ key = Some EmptyString \/ key = Some "your_pexels_api_key_here").
Proof.
  cbn zeta. unfold download_pexels_images.
  destruct (search_keywords st) as [[|k0 keywords]|]; try discriminate.
  destruct key as [[|a key]|]; cbn [fst snd files total_downloaded http_calls].
  - intros _. repeat split; auto.
  - destruct (String.eqb (String a key) _) eqn:Ek;
      cbn [fst snd files total_downloaded http_calls].
    + apply String.eqb_eq in Ek. intros _. rewrite Ek. repeat split; auto.
    + apply String.eqb_neq in Ek. unfold get.
      cbn [fst snd files total_downloaded http_calls].
      destruct (net _ test_url) as [r|];
        [destruct (negb (status_code r =? 200)); [|discriminate]|];
        cbn [fst snd files total_downloaded http_calls]; intros _;
        (split; [reflexivity|]; split; [reflexivity|]; split; [lia|]; split; [lia|]);
        intros [H|[H|H]]; try discriminate H; congruence.
  - intros _. repeat split; auto.
Qed.

Lemma run_queries_no_share style_dir keyword max_images ipk queries
    (s : state (rng := rng)) :
  ipk <= 0 -> 0 <= total_downloaded s ->
  run_queries shuffle net style_dir keyword max_images ipk queries s = s.
Proof.
  intros Hipk Hs. destruct queries as [|q queries]; [reflexivity|].
  cbn [run_queries]. destruct (ipk <=? total_downloaded s) eqn:E; [reflexivity|].
  apply Z.leb_gt in E. lia.
Qed.

Lemma run_keywords_no_share style_name style_dir max_images ipk keywords
    (s : state (rng := rng)) :
  ipk <= 0 -> 0 <= total_downloaded s ->
  fold_left (run_keyword shuffle net style_name style_dir max_images ipk) keywords s = s.
Proof.
  intros Hipk Hs. induction keywords as [|k keywords IH]; [reflexivity|].
  cbn [fold_left]. unfold run_keyword at 2. rewrite run_queries_no_share by assumption.
  exact IH.
Qed.

(** X12.  When the quota is smaller than the number of keywords, the share
    of one keyword is 0 and the call searches for nothing: it returns 0
    (or raises on the key), writes no file and sends at most the test
    request. *)
Theorem quota_below_keyword_count_saves_nothing key st max_images
    (s : state (rng := rng)) keywords :
  search_keywords st = Some keywords ->
  max_images < Z.of_nat (length keywords) ->
  let r := download_pexels_images shuffle net key st max_images s in
  (r.1 = Returns 0 \/ exists e, r.1 = Raised e)
  /\ files r.2 = files s
  /\ (http_calls r.2 <= S (http_calls s))%nat.
Proof.
  intros Hk Hlt. cbn zeta. unfold download_pexels_images. rewrite Hk.
  destruct keywords as [|k0 keywords]; [cbn; auto|].
  assert (Hipk : max_images / Z.of_nat (length (k0 :: keywords)) <= 0).
  { assert (max_images / Z.of_nat (length (k0 :: keywords)) < 1); [|lia].
    apply Z.div_lt_upper_bound; [cbn [length]; lia|lia]. }
  destruct key as [[|a key]|]; cbn [fst snd files http_calls]; eauto 6.
  destruct (String.eqb _ _); cbn [fst snd files http_calls]; eauto 6.
  unfold get. cbn [fst snd files http_calls gen total_downloaded].
  destruct (net _ test_url) as [r|]; cbn [fst snd files http_calls]; eauto 6.
  destruct (negb (status_code r =? 200)); cbn [fst snd files http_calls]; eauto 6.
  rewrite run_keywords_no_share by (cbn [total_downloaded]; first [exact Hipk|lia]).
  cbn [fst snd files http_calls total_downloaded]. eauto.
Qed.

End Runs.

Lemma downloads_bounded_by_keyword_share_witness :
  exists n,
    (download_pexels_images Samples.keep_order Samples.generous (Some "pexels-key")
       Samples.two_keywords 70 Samples.fresh).1 = Returns n
    /\ n <= Z.max 0 (70 / Z.of_nat (length ["sofa"; "lamp"])).
Proof.
  exists 35. split; [vm_compute; reflexivity|].
  apply (AcquisitionProps.downloads_bounded_by_keyword_share
           Samples.keep_order Samples.generous (Some "pexels-key")
           Samples.two_keywords 70 Samples.fresh 35 ["sofa"; "lamp"]).
  - reflexivity.
  - vm_compute. reflexivity.
Defined.

Lemma failed_call_leaves_the_tree_witness :
  files (download_pexels_images Samples.keep_order Samples.generous
           (Some "your_pexels_api_key_here") Samples.two_keywords 70 Samples.fresh).2
  = files Samples.fresh.
Proof.
  apply (failed_call_leaves_the_tree Samples.keep_order Samples.generous
           (Some "your_pexels_api_key_here") Samples.two_keywords 70 Samples.fresh
           "Pexels API key is required to download images").
  vm_compute. reflexivity.
Defined.

Lemma quota_below_keyword_count_saves_nothing_witness :
  files (download_pexels_images Samples.keep_order Samples.generous (Some "pexels-key")
           Samples.two_keywords 1 Samples.fresh).2
  = files Samples.fresh.
Proof.
  apply (quota_below_keyword_count_saves_nothing Samples.keep_order Samples.generous
           (Some "pexels-key") Samples.two_keywords 1 Samples.fresh ["sofa"; "lamp"]).
  - reflexivity.
  - cbn [length]. lia.
Defined.

End AcquisitionMore.

(** ** Segmentation, continued *)

Module SegmentationMore.
Import OpenAI App Reply Numbered.

(** *** Substrings *)

Lemma startswith_inv (p s : string) :
  Py.startswith p s = true -> exists r, s = p +:+ r.
Proof.
  revert s. induction p as [|a p IH]; intros s H; [exists s; reflexivity|].
  destruct s as [|b s]; [discriminate|]. cbn [Py.startswith] in H.
  destruct (Ascii.eqb a b) eqn:E; [|discriminate].
  apply Ascii.eqb_eq in E as <-. destruct (IH s H) as [r ->].
  exists r. reflexivity.
Qed.

Lemma find_from_inv (p s : string) : forall i j,
  Py.find_from p s i = Some j -> exists s1 s2, s = s1 +:+ p +:+ s2.
Proof.
  induction s as [|c s IH]; intros i j H.
  - cbn [Py.find_from] in H. destruct (Py.startswith p EmptyString) eqn:E; [|discriminate].
    destruct (startswith_inv _ _ E) as [r Hr]. exists EmptyString, r. exact Hr.
  - cbn [Py.find_from] in H. destruct (Py.startswith p (String c s)) eqn:E.
    + destruct (startswith_inv _ _ E) as [r Hr]. exists EmptyString, r. exact Hr.
    + destruct (IH _ _ H) as (s1 & s2 & ->). exists (String c s1), s2. reflexivity.
Qed.

Lemma contains_inv (p s : string) :
  Py.contains p s = true -> exists s1 s2, s = s1 +:+ p +:+ s2.
Proof.
  unfold Py.contains, Py.find. destruct (Py.find_from p s 0) as [j|] eqn:E; [|discriminate].
  intros _. eapply find_from_inv. exact E.
Qed.

(** A text that contains a string contains every part of it. *)
Lemma contains_inner (p1 q p2 s : string) :
  Py.contains (p1 +:+ q +:+ p2) s = true -> Py.contains q s = true.
Proof.
  intros H. destruct (contains_inv _ _ H) as (s1 & s2 & ->).
  replace (s1 +:+ (p1 +:+ q +:+ p2) +:+ s2) with ((s1 +:+ p1) +:+ q +:+ (p2 +:+ s2))
    by (rewrite !PyFacts.app_assoc; reflexivity).
  apply PyFacts.contains_app.
Qed.

Lemma design_option_branch_is_dead_eq num_options text :
  Py.contains "OPTION 1" (Py.upper text) = false ->
  segments num_options text
  = if Py.contains "1." text && Py.contains "2." text then
      split_numbered text (numbered_parts num_options text)
    else [text].
Proof.
  intros E1. unfold segments. rewrite E1.
  destruct (Py.contains "DESIGN OPTION 1" (Py.upper text)) eqn:E2; [|reflexivity].
  apply (contains_inner "DESIGN " "OPTION 1" EmptyString) in E2. congruence.
Qed.

(** X13.  The branch for [DESIGN OPTION n] headings is never taken: a
    text with [DESIGN OPTION 1] in it has [OPTION 1] in it, and the
    first test wins.  [segments] is the first, the third and the last
    strategy only. *)
Theorem design_option_branch_is_dead num_options response_text :
  segments num_options response_text
  = if Py.contains "OPTION 1" (Py.upper response_text) then
      split_by_marker "OPTION " response_text
    else if Py.contains "1." response_text && Py.contains "2." response_text then
      split_numbered response_text (numbered_parts num_options response_text)
    else [response_text].
Proof.
  destruct (Py.contains "OPTION 1" (Py.upper response_text)) eqn:E1.
  - unfold segments. rewrite E1. reflexivity.
  - apply design_option_branch_is_dead_eq. exact E1.
Qed.

(** *** Lines *)

Lemma join_split_char (sep : ascii) (s : string) :
  Py.join (String sep EmptyString) (Py.split_char sep s) = s.
Proof.
  induction s as [|c s IH]; [reflexivity|]. cbn [Py.split_char].
  pose proof (PyFacts.split_char_nonempty sep s) as Hne.
  destruct (Ascii.eqb c sep) eqn:E.
  - apply Ascii.eqb_eq in E as ->.
    destruct (Py.split_char sep s) as [|h t] eqn:Hs; [congruence|].
    change (Py.join (String sep EmptyString) (EmptyString :: h :: t))
      with (String sep (Py.join (String sep EmptyString) (h :: t))).
    rewrite IH. reflexivity.
  - destruct (Py.split_char sep s) as [|h t] eqn:Hs; [congruence|].
    destruct t as [|h' t].
    + cbn [Py.join] in *. rewrite IH. reflexivity.
    + change (Py.join (String sep EmptyString) (String c h :: h' :: t))
        with (String c (Py.join (String sep EmptyString) (h :: h' :: t))).
      rewrite IH. reflexivity.
Qed.

Lemma join_split_lines (s : string) : Py.join Py.nl (Py.split_lines s) = s.
Proof. apply join_split_char. Qed.

Lemma strip_after_newline (s : string) : Py.strip (Py.nl +:+ s) = Py.strip s.
Proof. reflexivity. Qed.

(** The lines before the first marker: the current segment after them. *)
Lemma fold_preamble prefix pre :
  pre <> [] -> Forall (fun l => is_marker prefix l = false) pre ->
  fold_left (split_step prefix) pre ([], EmptyString)
  = ([], Py.nl +:+ Py.join Py.nl pre).
Proof.
  intros Hne Hpre. rewrite SegmentationProps.fold_body by exact Hpre.
  rewrite SegmentationProps.join_fold.
  destruct pre as [|l pre]; [congruence|]. reflexivity.
Qed.

(** X14.  The loop over the lines, for every reply: the lines before the
    first marker line, when there are any, become a segment of their
    own that is put before the segments of the marker blocks.  A reply
    that begins with an empty line has an empty first segment. *)
Theorem preamble_becomes_the_first_segment prefix text pre blocks :
  prefix <> EmptyString ->
  Py.split_lines text = pre ++ concat (map block_lines blocks) ->
  pre <> [] ->
  Forall (fun l => is_marker prefix l = false) pre ->
  Forall (well_formed prefix) blocks ->
  split_by_marker prefix text = Py.strip (Py.join Py.nl pre) :: map block_text blocks.
Proof.
  intros Hp Hlines Hne Hpre Hwf. unfold split_by_marker.
  rewrite Hlines, fold_left_app, fold_preamble by assumption.
  pose proof (SegmentationProps.fold_blocks prefix blocks [] (Py.nl +:+ Py.join Py.nl pre)
                Hp ltac:(discriminate) Hwf) as H.
  cbn zeta in H. rewrite H. reflexivity.
Qed.

Lemma preamble_becomes_the_first_segment_witness :
  split_by_marker "OPTION " Samples.with_preamble
  = "Here are five options:" :: map block_text Samples.five_blocks.
Proof.
  apply (preamble_becomes_the_first_segment "OPTION " Samples.with_preamble
           ["Here are five options:"] Samples.five_blocks).
  - discriminate.
  - vm_compute. reflexivity.
  - discriminate.
  - repeat constructor.
  - repeat constructor.
Defined.

(** X15.  A reply in which [OPTION 1] occurs but no line is a marker line
    (headings such as [DESIGN OPTION 1:], [**Option 1: ...**] or
    [### Option 1:], or the words in the middle of a line) is not
    split at all: the one segment is the whole reply, stripped, and
    every other option is a copy of it under a [Design Variation]
    label. *)
Theorem unmarked_reply_is_one_segment num_options text :
  Py.contains "OPTION 1" (Py.upper text) = true ->
  Forall (fun l => is_marker "OPTION " l = false) (Py.split_lines text) ->
  segments num_options text = [Py.strip text]
  /\ (1 <= num_options ->
      parse_options num_options text
      = Returns (Py.strip text
                 :: map (variation_at (Py.strip text))
                        (seq 1 (Z.to_nat num_options - 1)))).
Proof.
  intros H1 Hlines.
  assert (Hs : segments num_options text = [Py.strip text]).
  { unfold segments. rewrite H1. unfold split_by_marker.
    rewrite fold_preamble;
      [|apply PyFacts.split_char_nonempty|exact Hlines].
    rewrite join_split_lines. reflexivity. }
  split; [exact Hs|]. intros Hn.
  rewrite SegmentationProps.parse_options_spec by exact Hn. rewrite Hs.
  unfold padded. cbn [head default length app].
  rewrite take_ge; [reflexivity|].
  cbn [length]. rewrite length_map, length_seq. lia.
Qed.

Lemma unmarked_reply_is_one_segment_witness :
  segments 5 ("DESIGN OPTION 1: Calm" +:+ Py.nl +:+ "Pale oak." +:+ Py.nl +:+
              "DESIGN OPTION 2: Loft" +:+ Py.nl +:+ "Steel and brick.")
  = [ "DESIGN OPTION 1: Calm" +:+ Py.nl +:+ "Pale oak." +:+ Py.nl +:+
      "DESIGN OPTION 2: Loft" +:+ Py.nl +:+ "Steel and brick." ].
Proof.
  apply (proj1 (unmarked_reply_is_one_segment 5
                  ("DESIGN OPTION 1: Calm" +:+ Py.nl +:+ "Pale oak." +:+ Py.nl +:+
                   "DESIGN OPTION 2: Loft" +:+ Py.nl +:+ "Steel and brick.")
                  ltac:(vm_compute; reflexivity)
                  ltac:(vm_compute; repeat constructor))).
Defined.

(** *** The number of segments of the line loop *)

Lemma flush_length current options :
  length (flush current options)
  = (length options + match current with EmptyString => 0 | _ => 1 end)%nat.
Proof.
  unfold flush. destruct current; [lia|].
  rewrite length_app. reflexivity.
Qed.

Lemma fold_split_step_count prefix parts : forall options current,
  prefix <> EmptyString -> current <> EmptyString ->
  (let '(o, c) := fold_left (split_step prefix) parts (options, current) in
   length (flush c o))
  = (length options + 1
     + length (filter (fun l => is_marker prefix l = true) parts))%nat.
Proof.
  induction parts as [|l parts IH]; intros options current Hp Hc.
  - cbn [fold_left]. rewrite filter_nil, flush_length.
    destruct current; [congruence|]. cbn [length]. lia.
  - cbn [fold_left]. unfold split_step at 2.
    destruct (is_marker prefix l) eqn:E.
    + rewrite filter_cons_True by exact E.
      rewrite IH; [|exact Hp|exact (SegmentationProps.is_marker_nonempty _ _ Hp E)].
      rewrite flush_length.
      destruct current; [congruence|]. cbn [length]. lia.
    + rewrite filter_cons_False by (rewrite E; discriminate).
      rewrite IH; [reflexivity|exact Hp|].
      apply PyFacts.app_nonempty_r. discriminate.
Qed.

(** X16.  The number of segments the line loop finds, for every reply:
    the number of marker lines, and one more when the first line is
    no marker line. *)
Theorem marker_lines_count_the_segments prefix text :
  prefix <> EmptyString ->
  length (split_by_marker prefix text)
  = (length (filter (fun l => is_marker prefix l = true) (Py.split_lines text))
     + match Py.split_lines text with
       | first :: _ => if is_marker prefix first then 0 else 1
       | [] => 0
       end)%nat.
Proof.
  intros Hp. unfold split_by_marker.
  pose proof (PyFacts.split_char_nonempty (ascii_of_nat 10) text) as Hne.
  fold (Py.split_lines text) in Hne.
  destruct (Py.split_lines text) as [|first rest]; [congruence|].
  cbn [fold_left]. unfold split_step at 2.
  destruct (is_marker prefix first) eqn:E.
  - rewrite filter_cons_True by exact E.
    pose proof (fold_split_step_count prefix rest (flush EmptyString []) first Hp
                  (SegmentationProps.is_marker_nonempty _ _ Hp E)) as H.
    cbn zeta in H. revert H. destruct (fold_left _ _ _) as [o c]. intros ->.
    cbn [flush length]. lia.
  - rewrite filter_cons_False by (rewrite E; discriminate).
    pose proof (fold_split_step_count prefix rest [] (EmptyString +:+ Py.nl +:+ first) Hp
                  ltac:(discriminate)) as H.
    cbn zeta in H. revert H. destruct (fold_left _ _ _) as [o c]. intros ->.
    cbn [length]. lia.
Qed.

Lemma marker_lines_count_the_segments_witness :
  length (split_by_marker "OPTION " Samples.with_preamble) = 6%nat.
Proof.
  rewrite (marker_lines_count_the_segments "OPTION " Samples.with_preamble
             ltac:(discriminate)).
  vm_compute. reflexivity.
Defined.

(** *** Numbered items *)

Lemma take_drop_chars (n : nat) (s : string) :
  Py.take_chars n s +:+ Py.drop_chars n s = s.
Proof.
  revert s. induction n as [|n IH]; intros s; [reflexivity|].
  destruct s as [|c s]; [reflexivity|].
  cbn [Py.take_chars Py.drop_chars]. rewrite PyFacts.app_cons, IH. reflexivity.
Qed.

Lemma drop_chars_add (a b : nat) (s : string) :
  Py.drop_chars a (Py.drop_chars b s) = Py.drop_chars (b + a) s.
Proof.
  revert s. induction b as [|b IH]; intros s; [reflexivity|].
  destruct s as [|c s]; [destruct a; reflexivity|].
  cbn [Py.drop_chars Nat.add]. apply IH.
Qed.

Lemma slice_then_rest (i j : nat) (s : string) :
  (i <= j)%nat -> Py.slice i j s +:+ Py.slice_from j s = Py.slice_from i s.
Proof.
  intros Hij. unfold Py.slice, Py.slice_from.
  replace (Py.drop_chars j s) with (Py.drop_chars (j - i) (Py.drop_chars i s))
    by (rewrite drop_chars_add; f_equal; lia).
  apply take_drop_chars.
Qed.

Lemma split_numbered_cons2 text p q rest :
  split_numbered text (p :: q :: rest)
  = match Py.find p text, Py.find q text with
    | Some start_idx, Some end_idx =>
        Py.slice start_idx end_idx text :: split_numbered text (q :: rest)
    | _, _ => split_numbered text (q :: rest)
    end.
Proof. reflexivity. Qed.

Lemma join_empty_cons (x : string) (l : list string) :
  Py.join EmptyString (x :: l) = x +:+ Py.join EmptyString l.
Proof.
  destruct l as [|y l]; [|reflexivity].
  cbn [Py.join]. induction x as [|c x IH]; [reflexivity|].
  rewrite PyFacts.app_cons, <- IH. reflexivity.
Qed.

Lemma split_numbered_joined text parts :
  Forall (fun p => Py.contains p text = true) parts ->
  ascending text parts ->
  forall p rest i, parts = p :: rest -> Py.find p text = Some i ->
    Py.join EmptyString (split_numbered text parts) = Py.slice_from i text.
Proof.
  induction 1 as [|p0 parts Hp Hall IH]; intros Hasc p rest i Hparts Hi; [discriminate|].
  injection Hparts as -> ->.
  destruct rest as [|q rest].
  - cbn [split_numbered]. rewrite Hi. reflexivity.
  - rewrite split_numbered_cons2, Hi.
    inversion Hall as [|? ? Hq _]; subst.
    destruct (PyFacts.contains_find _ _ Hq) as [j Hj]. rewrite Hj.
    destruct Hasc as [Hij Hasc].
    rewrite join_empty_cons, (IH Hasc q rest j eq_refl Hj).
    apply slice_then_rest. exact (Hij i j Hi Hj).
Qed.

(** X17.  The numbered strategy, when the numbers that occur are first
    found in ascending order: there is one segment for each number
    from 1 to [num_options] that occurs followed by a dot, and the
    segments, put together, are the reply from the first [1.] on.
    What precedes the first number is dropped, where the line loop
    keeps it as a segment. *)
Theorem numbered_reply_is_cut_at_the_numbers num_options text :
  1 <= num_options ->
  Py.contains "OPTION 1" (Py.upper text) = false ->
  Py.contains "1." text = true -> Py.contains "2." text = true ->
  ascending text (numbered_parts num_options text) ->
  exists i,
    Py.find "1." text = Some i
    /\ length (segments num_options text) = length (numbered_parts num_options text)
    /\ Py.join EmptyString (segments num_options text) = Py.slice_from i text.
Proof.
  intros Hn H0 H1 H2 Hasc.
  destruct (PyFacts.contains_find _ _ H1) as [i Hi]. exists i.
  split; [exact Hi|].
  rewrite design_option_branch_is_dead_eq by exact H0. rewrite H1, H2. cbn [andb].
  pose proof (SegmentationProps.numbered_parts_found num_options text) as Hall.
  split; [apply SegmentationProps.split_numbered_length; exact Hall|].
  assert (Hfirst : exists rest, numbered_parts num_options text = "1." :: rest).
  { unfold numbered_parts.
    destruct (Z.to_nat num_options) as [|n] eqn:E; [lia|].
    cbn [seq map]. change (Py.str_of_nat 1 +:+ ".") with "1.".
    rewrite filter_cons_True by exact H1. eauto. }
  destruct Hfirst as [rest Hrest].
  exact (split_numbered_joined text _ Hall Hasc "1." rest i Hrest Hi).
Qed.

Lemma numbered_reply_is_cut_at_the_numbers_witness :
  Py.join EmptyString (segments 5 "Three ideas: 1. Calm oak. 2. Loft steel. 3. Deco brass.")
  = "1. Calm oak. 2. Loft steel. 3. Deco brass.".
Proof.
  destruct (numbered_reply_is_cut_at_the_numbers 5
              "Three ideas: 1. Calm oak. 2. Loft steel. 3. Deco brass.")
    as (i & Hi & _ & Hjoin).
  - lia.
  - vm_compute. reflexivity.
  - vm_compute. reflexivity.
  - vm_compute. reflexivity.
  - vm_compute. repeat split; intros i j [= <-] [= <-]; lia.
  - rewrite Hjoin. vm_compute in Hi. injection Hi as <-. vm_compute. reflexivity.
Defined.

(** *** Reference images that cannot be read *)

Lemma image_parts_app sv l1 l2 :
  image_parts sv (l1 ++ l2)
  = match image_parts sv l1 with
    | Raised e => Raised e
    | Returns a =>
        match image_parts sv l2 with
        | Raised e => Raised e
        | Returns b => Returns (a ++ b)
        end
    end.
Proof.
  induction l1 as [|p l1 IH]; cbn [app image_parts].
  - destruct (image_parts sv l2); reflexivity.
  - destruct (encode_image sv p); [|reflexivity]. rewrite IH.
    destruct (image_parts sv l1); [|reflexivity].
    destruct (image_parts sv l2); reflexivity.
Qed.

Lemma image_parts_readable sv l :
  Forall (fun q => exists data, read_file sv q = Returns data) l ->
  exists a, image_parts sv l = Returns a.
Proof.
  induction 1 as [|q l [data Hq] _ [a IH]]; [exists []; reflexivity|].
  cbn [image_parts]. unfold encode_image. rewrite Hq, IH. eauto.
Qed.

Lemma build_messages_raises sv liked disliked room room_type room_size num_options e :
  image_parts sv (liked ++ disliked) = Raised e ->
  build_messages sv liked disliked room room_type room_size num_options = Raised e.
Proof.
  rewrite image_parts_app. unfold build_messages.
  destruct (image_parts sv liked) as [a|e1]; [|intros [= <-]; reflexivity].
  destruct disliked as [|d disliked]; [discriminate|].
  destruct (image_parts sv (d :: disliked)); [discriminate|].
  intros [= <-]. reflexivity.
Qed.

(** X18.  When a reference image cannot be read, no request is built and
    the result is the one message [Error generating design: ] followed
    by the text of what opening or reading raised for the first image,
    in the order liked then disliked, that could not be read; the answer
    of the model and the requested count play no part. *)
Theorem unreadable_reference_image_is_reported sv liked disliked room room_type room_size
    num_options before p after e :
  liked ++ disliked = before ++ p :: after ->
  Forall (fun q => exists data, read_file sv q = Returns data) before ->
  read_file sv p = Raised e ->
  generate_design_options sv liked disliked room room_type room_size num_options
  = [ "Error generating design: " +:+ e ].
Proof.
  intros Hsplit Hbefore Hp.
  unfold generate_design_options, generate_body.
  rewrite (build_messages_raises sv liked disliked room room_type room_size num_options e);
    [reflexivity|].
  rewrite Hsplit, image_parts_app.
  destruct (image_parts_readable sv before Hbefore) as [a ->].
  cbn [image_parts]. unfold encode_image. rewrite Hp. reflexivity.
Qed.

Lemma unreadable_reference_image_is_reported_witness :
  generate_design_options
    (Services (fun q => if String.eqb q "loft/a.jpg"
                        then Raised "[Errno 13] Permission denied: 'loft/a.jpg'"
                        else Returns [Byte.xff])
              (fun _ => Content Samples.five_options))
    ["nordic/a.jpg"] ["loft/a.jpg"] "cm9vbQ==" "Bedroom" EmptyString 5
  = [ "Error generating design: [Errno 13] Permission denied: 'loft/a.jpg'" ].
Proof.
  apply (unreadable_reference_image_is_reported _ ["nordic/a.jpg"] ["loft/a.jpg"]
           "cm9vbQ==" "Bedroom" EmptyString 5 ["nordic/a.jpg"] "loft/a.jpg" []
           "[Errno 13] Permission denied: 'loft/a.jpg'").
  - reflexivity.
  - repeat constructor. cbn. eauto.
  - reflexivity.
Defined.

End SegmentationMore.

(** ** Selection, continued *)

Module SelectionMore.
Import App Supply.

Section WithRandom.
Context {rng : Type}.
Variable shuffle : forall A : Type, rng -> list A -> list A * rng.
Hypothesis shuffle_perm : forall A g (l : list A), (shuffle A g l).1 ≡ₚ l.

(** *** How many images are drawn *)

Lemma fold_add_image_length num_images st selected : forall acc,
  (length acc.1 <= Z.to_nat num_images)%nat ->
  length (fold_left (add_image num_images st) selected acc).1
  = Nat.min (Z.to_nat num_images) (length acc.1 + length selected).
Proof.
  induction selected as [|img selected IH]; intros [all_images info] Hle;
    cbn [fold_left fst length] in *; [lia|].
  unfold add_image at 2. destruct (_ <? _) eqn:E.
  - apply Z.ltb_lt in E. rewrite IH; cbn [fst]; rewrite length_app; cbn [length]; lia.
  - apply Z.ltb_ge in E. rewrite IH; cbn [fst]; lia.
Qed.

Lemma select_loop_length num_images styles : forall g acc,
  (length acc.1 <= Z.to_nat num_images)%nat ->
  length (select_loop shuffle num_images styles g acc).1.1
  = Nat.min (Z.to_nat num_images) (length acc.1 + supply styles).
Proof.
  induction styles as [|st styles IH]; intros g acc Hle; cbn [select_loop].
  - unfold supply. cbn. lia.
  - unfold supply. cbn [sum_list_with]. fold (supply styles).
    destruct (_ <=? _) eqn:E.
    { apply Z.leb_le in E. cbn [fst]. lia. }
    destruct (image_paths st) as [|i0 paths] eqn:Hpaths.
    { rewrite IH by exact Hle. cbn [length]. lia. }
    pose proof (shuffle_perm string g (i0 :: paths)) as Hperm.
    destruct (shuffle string g (i0 :: paths)) as [shuffled g']. cbn [fst] in Hperm.
    pose proof (fold_add_image_length num_images st (selected_of shuffled) acc Hle) as Hl.
    rewrite IH by (rewrite Hl; lia). rewrite Hl.
    unfold selected_of. rewrite length_take, (Permutation_length Hperm). lia.
Qed.

Lemma select_random_images_length (styles : list style) (num_images : Z) (g : rng) :
  0 <= num_images ->
  Z.of_nat (length (select_random_images shuffle styles num_images g).1.1)
  = Z.min num_images (Z.of_nat (supply styles)).
Proof.
  intros Hn. unfold select_random_images.
  pose proof (shuffle_perm style g styles) as Hperm.
  destruct (shuffle style g styles) as [shuffled g']. cbn [fst] in Hperm.
  rewrite select_loop_length by (cbn; lia). cbn [fst length].
  unfold supply. rewrite Hperm. lia.
Qed.

(** X19.  With a shuffle that permutes its list, [select_random_images]
    fills the selection whenever the styles can: it returns exactly
    [min(num_images, supply)] images, where a style supplies two
    images, or one if it has no more; so it returns [num_images]
    images exactly when the supply reaches that far. *)
Theorem selection_is_filled_when_possible (styles : list style) (num_images : Z) (g : rng) :
  0 <= num_images ->
  Z.of_nat (length (select_random_images shuffle styles num_images g).1.1)
  = Z.min num_images (Z.of_nat (supply styles))
  /\ (Z.of_nat (length (select_random_images shuffle styles num_images g).1.1) = num_images
      <-> num_images <= Z.of_nat (supply styles)).
Proof.
  intros Hn. pose proof (select_random_images_length styles num_images g Hn) as H.
  split; [exact H|]. lia.
Qed.

(** *** No image twice *)

Lemma all_paths_perm (l l' : list style) : l ≡ₚ l' -> all_paths l ≡ₚ all_paths l'.
Proof.
  unfold all_paths. induction 1 as [|x l l' _ IH|x y l|l1 l2 l3 _ IH1 _ IH2];
    cbn [map concat].
  - reflexivity.
  - rewrite IH. reflexivity.
  - rewrite !app_assoc. f_equiv. apply Permutation_app_comm.
  - etrans; eassumption.
Qed.

Lemma submseteq_NoDup {A} (l k : list A) : l ⊆+ k -> NoDup k -> NoDup l.
Proof.
  intros Hsub Hk. apply submseteq_Permutation in Hsub as [k' Hk'].
  rewrite Hk' in Hk. apply NoDup_app in Hk. tauto.
Qed.

Lemma select_loop_NoDup num_images styles : forall g acc,
  NoDup (acc.1 ++ all_paths styles) ->
  NoDup (select_loop shuffle num_images styles g acc).1.1.
Proof.
  induction styles as [|st styles IH]; intros g acc Hnd; cbn [select_loop].
  - unfold all_paths in Hnd. cbn in Hnd. rewrite app_nil_r in Hnd. exact Hnd.
  - unfold all_paths in Hnd. cbn [map concat] in Hnd. fold (all_paths styles) in Hnd.
    destruct (_ <=? _).
    { apply NoDup_app in Hnd. tauto. }
    destruct (image_paths st) as [|i0 paths] eqn:Hpaths.
    { apply IH. exact Hnd. }
    pose proof (shuffle_perm string g (i0 :: paths)) as Hperm.
    destruct (shuffle string g (i0 :: paths)) as [shuffled g']. cbn [fst] in Hperm.
    apply IH.
    destruct (SelectionProps.fold_add_image_shape num_images st (selected_of shuffled) acc)
      as (c & -> & Hsub).
    eapply submseteq_NoDup; [|exact Hnd].
    rewrite <- app_assoc. apply submseteq_app; [reflexivity|].
    apply submseteq_app; [|reflexivity].
    rewrite <- Hperm. etrans; [apply sublist_submseteq; exact Hsub|].
    apply submseteq_take.
Qed.

(** X20.  With a shuffle that permutes its list, and styles whose image
    paths are all different, no image is selected twice. *)
Theorem selection_has_no_repeats (styles : list style) (num_images : Z) (g : rng) :
  NoDup (all_paths styles) ->
  NoDup (select_random_images shuffle styles num_images g).1.1.
Proof.
  intros Hnd. unfold select_random_images.
  pose proof (shuffle_perm style g styles) as Hperm.
  destruct (shuffle style g styles) as [shuffled g']. cbn [fst] in Hperm.
  apply select_loop_NoDup. cbn [fst app].
  rewrite (all_paths_perm _ _ Hperm). exact Hnd.
Qed.

End WithRandom.

Lemma in_order_permutes A (g : unit) (l : list A) : (Samples.in_order A g l).1 ≡ₚ l.
Proof. reflexivity. Qed.

Lemma selection_is_filled_when_possible_witness :
  Z.of_nat (length (select_random_images Samples.in_order Samples.styles 5 tt).1.1)
  = Z.min 5 (Z.of_nat (supply Samples.styles)).
Proof.
  apply (proj1 (selection_is_filled_when_possible Samples.in_order in_order_permutes
                  Samples.styles 5 tt ltac:(lia))).
Defined.

Lemma selection_has_no_repeats_witness :
  NoDup (select_random_images Samples.in_order Samples.styles 5 tt).1.1.
Proof.
  apply (selection_has_no_repeats Samples.in_order in_order_permutes Samples.styles 5 tt).
  apply (bool_decide_unpack (NoDup (all_paths Samples.styles))). vm_compute. exact I.
Defined.

End SelectionMore.

(** ** The session, continued *)

Module SessionMore.
Import OpenAI App Flow Voting SessionProps.

Ltac in_keys :=
  unfold reset_keys; repeat first [apply list_elem_of_here | apply list_elem_of_further].

Ltac off_keys :=
  unfold reset_keys; rewrite !not_elem_of_cons;
  repeat split; try discriminate; apply not_elem_of_nil.

Ltac not_a_key H :=
  exfalso; revert H;
  match goal with |- ?x ∈ ?X -> False => change (x ∉ X) end; off_keys.

Section WithRandom.
Context {rng : Type}.
Variable shuffle : forall A : Type, rng -> list A -> list A * rng.

(** *** The selection and its keys *)

Lemma selected_agree ss ss' imgs info ci liked disliked :
  agree_on reset_keys ss ss' ->
  selected ss imgs info ci liked disliked -> selected ss' imgs info ci liked disliked.
Proof.
  intros Ha (H1 & H2 & H3 & H4 & H5 & H6).
  unfold selected. rewrite !Ha by in_keys. auto 10.
Qed.

Lemma unselected_agree ss ss' :
  agree_on reset_keys ss ss' -> unselected ss -> unselected ss'.
Proof. intros Ha Hu k Hk. rewrite Ha by exact Hk. apply Hu, Hk. Qed.

Lemma selection_ok_agree ss ss' :
  agree_on reset_keys ss ss' -> selection_ok ss -> selection_ok ss'.
Proof.
  intros Ha [Hu|(imgs & info & ci & l & d & Hs)].
  - left. eapply unselected_agree; eauto.
  - right. exists imgs, info, ci, l, d. eapply selected_agree; eauto.
Qed.

Lemma agree_on_insert ss k v : k ∉ reset_keys -> agree_on reset_keys ss (<[k := v]> ss).
Proof.
  intros Hk k' Hk'. apply lookup_insert_ne. intros ->. contradiction.
Qed.

Lemma unselected_empty : unselected ∅.
Proof. intros k _. apply lookup_empty. Qed.

(** Every selected image has its entry, whatever the shuffle. *)
Lemma add_image_covered num_images st acc img :
  (forall i, i ∈ acc.1 -> is_Some (acc.2 !! i)) ->
  forall i, i ∈ (add_image num_images st acc img).1 ->
            is_Some ((add_image num_images st acc img).2 !! i).
Proof.
  destruct acc as [all_images info]. unfold add_image. cbn [fst snd]. intros Hc.
  destruct (_ <? _); cbn [fst snd]; [|exact Hc].
  intros i Hi. destruct (decide (img = i)) as [<-|Hne].
  - rewrite lookup_insert_eq. eauto.
  - rewrite lookup_insert_ne by exact Hne. apply Hc.
    apply elem_of_app in Hi as [Hi|Hi]; [exact Hi|].
    apply list_elem_of_singleton in Hi. congruence.
Qed.

Lemma fold_add_image_covered num_images st selected : forall acc,
  (forall i, i ∈ acc.1 -> is_Some (acc.2 !! i)) ->
  forall i, i ∈ (fold_left (add_image num_images st) selected acc).1 ->
            is_Some ((fold_left (add_image num_images st) selected acc).2 !! i).
Proof.
  induction selected as [|img selected IH]; intros acc Hc; [exact Hc|].
  cbn [fold_left]. apply IH, add_image_covered, Hc.
Qed.

Lemma select_loop_covered num_images styles : forall g acc,
  (forall i, i ∈ acc.1 -> is_Some (acc.2 !! i)) ->
  forall i, i ∈ (select_loop shuffle num_images styles g acc).1.1 ->
            is_Some ((select_loop shuffle num_images styles g acc).1.2 !! i).
Proof.
  induction styles as [|st styles IH]; intros g acc Hc; cbn [select_loop]; [exact Hc|].
  destruct (_ <=? _); [exact Hc|].
  destruct (image_paths st) as [|i0 paths]; [apply IH, Hc|].
  destruct (shuffle string g (i0 :: paths)) as [shuffled g'].
  apply IH, fold_add_image_covered, Hc.
Qed.

Lemma select_random_images_covered styles num_images g :
  forall i, i ∈ (select_random_images shuffle styles num_images g).1.1 ->
            is_Some ((select_random_images shuffle styles num_images g).1.2 !! i).
Proof.
  unfold select_random_images. destruct (shuffle style g styles) as [shuffled g'].
  apply select_loop_covered. intros i Hi. cbn in Hi. apply elem_of_nil in Hi. contradiction.
Qed.

(** After [init_selection] the keys are set. *)
Lemma init_selection_selected (e : @env rng) ss :
  selection_ok ss ->
  exists ss1 imgs info ci liked disliked,
    init_selection shuffle e ss = Next tt ss1
    /\ selected ss1 imgs info ci liked disliked
    /\ agree_off reset_keys ss ss1.
Proof.
  intros [Hu|(imgs & info & ci & l & d & Hs)].
  - unfold init_selection. rewrite bind_unfold. unfold has_key.
    rewrite (Hu "random_images") by in_keys.
    rewrite bool_decide_eq_false_2 by (intros [? ?]; discriminate).
    pose proof (select_random_images_covered (styles e) 5 (gen e)) as Hc.
    destruct (select_random_images shuffle (styles e) 5 (gen e)) as [[imgs info] g].
    cbn [fst snd] in Hc.
    eexists _, imgs, info, 0, [], []. split; [reflexivity|]. split.
    + unfold selected.
      repeat (rewrite lookup_insert_eq || rewrite lookup_insert_ne by discriminate).
      repeat split; try reflexivity; try lia; try exact Hc.
    + repeat (eapply agree_off_trans; [|apply agree_off_insert; in_keys]).
      apply agree_off_refl.
  - exists ss, imgs, info, ci, l, d.
    unfold init_selection. rewrite bind_unfold. unfold has_key.
    destruct Hs as (H1 & Hrest). rewrite H1.
    rewrite bool_decide_eq_true_2 by eauto.
    split; [reflexivity|]. split; [split; assumption|apply agree_off_refl].
Qed.

(** *** The steps of a run on a state with a selection *)

Lemma init_selection_present (e : @env rng) ss v :
  ss !! "random_images" = Some v -> init_selection shuffle e ss = Next tt ss.
Proof.
  intros H. unfold init_selection. rewrite bind_unfold. unfold has_key.
  rewrite H, bool_decide_eq_true_2 by eauto. reflexivity.
Qed.

Lemma index_within imgs ci ss :
  0 <= ci < Z.of_nat (length imgs) ->
  exists img, imgs !! Z.to_nat ci = Some img /\ index imgs ci ss = Next img ss.
Proof.
  intros Hci. unfold index.
  destruct (ci <? 0) eqn:E; [apply Z.ltb_lt in E; lia|]. rewrite E.
  destruct (lookup_lt_is_Some_2 imgs (Z.to_nat ci) ltac:(lia)) as [img Himg].
  exists img. rewrite Himg. split; reflexivity.
Qed.

Lemma style_names_covered imgs info ss :
  ss !! "style_info" = Some (VInfo info) ->
  (forall img, img ∈ imgs -> is_Some (info !! img)) ->
  style_names imgs ss = Next tt ss.
Proof.
  intros Hinfo Hc. unfold style_names. destruct imgs as [|i0 imgs]; [reflexivity|].
  rewrite bind_unfold, get_info_unfold, Hinfo.
  rewrite (proj2 (forallb_forall _ _)); [reflexivity|].
  intros img Hin. apply bool_decide_eq_true_2, Hc, list_elem_of_In, Hin.
Qed.

Lemma voted_within (imgs : list string) ci (liked disliked : list string) :
  liked ++ disliked ≡ₚ take (Z.to_nat ci) imgs ->
  (forall img, img ∈ liked -> img ∈ imgs) /\ (forall img, img ∈ disliked -> img ∈ imgs).
Proof.
  intros Hperm. split; intros img Hin.
  - assert (H : img ∈ liked ++ disliked) by (apply elem_of_app; left; exact Hin).
    rewrite Hperm in H. apply elem_of_take in H as (i & Hi & _).
    eapply list_elem_of_lookup_2. exact Hi.
  - assert (H : img ∈ liked ++ disliked) by (apply elem_of_app; right; exact Hin).
    rewrite Hperm in H. apply elem_of_take in H as (i & Hi & _).
    eapply list_elem_of_lookup_2. exact Hi.
Qed.

(** A vote appends the image that is shown and moves the index on. *)
Lemma vote_liked ss imgs info ci liked disliked img :
  selected ss imgs info ci liked disliked ->
  vote "liked_images" img ss
  = Rerun (<["current_index" := VInt (ci + 1)]>
             (<["liked_images" := VList (liked ++ [img])]> ss)).
Proof.
  intros (H1 & H2 & H3 & H4 & H5 & _).
  unfold vote. rewrite bind_unfold, get_list_unfold, H4.
  rewrite bind_unfold. unfold set_attr at 1.
  rewrite bind_unfold, get_int_unfold, lookup_insert_ne, H3 by discriminate.
  reflexivity.
Qed.

Lemma vote_disliked ss imgs info ci liked disliked img :
  selected ss imgs info ci liked disliked ->
  vote "disliked_images" img ss
  = Rerun (<["current_index" := VInt (ci + 1)]>
             (<["disliked_images" := VList (disliked ++ [img])]> ss)).
Proof.
  intros (H1 & H2 & H3 & H4 & H5 & _).
  unfold vote. rewrite bind_unfold, get_list_unfold, H5.
  rewrite bind_unfold. unfold set_attr at 1.
  rewrite bind_unfold, get_int_unfold, lookup_insert_ne, H3 by discriminate.
  reflexivity.
Qed.

Lemma selected_after_like ss imgs info ci liked disliked img :
  selected ss imgs info ci liked disliked ->
  ci < Z.of_nat (length imgs) -> imgs !! Z.to_nat ci = Some img ->
  selected (<["current_index" := VInt (ci + 1)]>
              (<["liked_images" := VList (liked ++ [img])]> ss))
           imgs info (ci + 1) (liked ++ [img]) disliked.
Proof.
  intros (H1 & H2 & H3 & H4 & H5 & H6 & H7 & H8) Hlt Himg. unfold selected.
  repeat (rewrite lookup_insert_eq || rewrite lookup_insert_ne by discriminate).
  repeat split; try assumption; try lia.
  replace (Z.to_nat (ci + 1)) with (S (Z.to_nat ci)) by lia.
  rewrite (take_S_r _ _ _ Himg), <- H8.
  rewrite <- !app_assoc. f_equiv. apply Permutation_app_comm.
Qed.

Lemma selected_after_dislike ss imgs info ci liked disliked img :
  selected ss imgs info ci liked disliked ->
  ci < Z.of_nat (length imgs) -> imgs !! Z.to_nat ci = Some img ->
  selected (<["current_index" := VInt (ci + 1)]>
              (<["disliked_images" := VList (disliked ++ [img])]> ss))
           imgs info (ci + 1) liked (disliked ++ [img]).
Proof.
  intros (H1 & H2 & H3 & H4 & H5 & H6 & H7 & H8) Hlt Himg. unfold selected.
  repeat (rewrite lookup_insert_eq || rewrite lookup_insert_ne by discriminate).
  repeat split; try assumption; try lia.
  replace (Z.to_nat (ci + 1)) with (S (Z.to_nat ci)) by lia.
  rewrite (take_S_r _ _ _ Himg), <- H8, app_assoc. reflexivity.
Qed.

Lemma reset_styles_unselected ss :
  exists ss', reset_styles ss = Rerun ss' /\ unselected ss'
              /\ agree_off reset_keys ss ss'.
Proof.
  unfold reset_styles, reset_keys. cbn [fold_right].
  rewrite !reset_one. eexists. split; [reflexivity|]. split.
  - intros k Hk. unfold reset_keys in Hk.
    repeat (apply elem_of_cons in Hk as [->|Hk];
            [repeat (rewrite lookup_delete_ne by discriminate); apply lookup_delete_eq|]).
    apply elem_of_nil in Hk. contradiction.
  - repeat (eapply agree_off_trans; [|apply agree_off_delete; in_keys]).
    apply agree_off_refl.
Qed.

(** Step 1 while an image is shown: the votes. *)
Lemma step1_voting (e : @env rng) w ss imgs info ci liked disliked :
  styles e <> [] -> selected ss imgs info ci liked disliked ->
  ci < Z.of_nat (length imgs) ->
  exists img,
    imgs !! Z.to_nat ci = Some img
    /\ step1 shuffle e w ss
       = if pressed w Like then
           Rerun (<["current_index" := VInt (ci + 1)]>
                    (<["liked_images" := VList (liked ++ [img])]> ss))
         else if pressed w Dislike then
           Rerun (<["current_index" := VInt (ci + 1)]>
                    (<["disliked_images" := VList (disliked ++ [img])]> ss))
         else Next tt ss.
Proof.
  intros Hst Hs Hlt.
  pose proof Hs as (H1 & H2 & H3 & H4 & H5 & H6 & H7 & H8).
  destruct (index_within imgs ci ss ltac:(lia)) as (img & Himg & Hidx).
  exists img. split; [exact Himg|].
  unfold step1. destruct (styles e) as [|st0 sts]; [congruence|].
  rewrite bind_unfold, (init_selection_present e ss _ H1).
  rewrite bind_unfold, get_int_unfold, H3.
  rewrite bind_unfold, get_list_unfold, H1.
  rewrite (proj2 (Z.ltb_lt _ _) Hlt).
  rewrite bind_unfold, Hidx.
  rewrite bind_unfold, get_info_unfold, H2.
  rewrite bind_unfold.
  destruct (H7 img) as [entry Hentry]; [eapply list_elem_of_lookup_2; exact Himg|].
  rewrite Hentry. cbn [mret script_ret].
  rewrite bind_unfold.
  destruct (pressed w Like).
  - rewrite (vote_liked ss imgs info ci liked disliked img Hs). reflexivity.
  - cbn [mret script_ret]. destruct (pressed w Dislike); [|reflexivity].
    apply (vote_disliked ss imgs info ci liked disliked img Hs).
Qed.

(** Step 1 once every image has a vote: the summary and its buttons. *)
Lemma step1_summary (e : @env rng) w ss imgs info ci liked disliked :
  styles e <> [] -> selected ss imgs info ci liked disliked ->
  ci = Z.of_nat (length imgs) ->
  step1 shuffle e w ss
  = if pressed w ResetStyles then reset_styles ss
    else if pressed w ContinueToUpload then
      match liked with
      | [] => Next tt ss
      | _ => Rerun (<["step" := VInt 2]> ss)
      end
    else Next tt ss.
Proof.
  intros Hst Hs Hci.
  pose proof Hs as (H1 & H2 & H3 & H4 & H5 & H6 & H7 & H8).
  destruct (voted_within _ _ _ _ H8) as [Hl Hd].
  unfold step1. destruct (styles e) as [|st0 sts]; [congruence|].
  rewrite bind_unfold, (init_selection_present e ss _ H1).
  rewrite bind_unfold, get_int_unfold, H3.
  rewrite bind_unfold, get_list_unfold, H1.
  rewrite (proj2 (Z.ltb_ge _ _)) by lia.
  rewrite bind_unfold, get_list_unfold, H4.
  rewrite bind_unfold, (style_names_covered liked info ss H2) by auto.
  rewrite bind_unfold, get_list_unfold, H5.
  rewrite bind_unfold, (style_names_covered disliked info ss H2) by auto.
  rewrite bind_unfold.
  destruct (pressed w ResetStyles).
  - destruct (reset_styles_unselected ss) as (ss' & -> & _). reflexivity.
  - cbn [mret script_ret]. destruct (pressed w ContinueToUpload); [|reflexivity].
    unfold continue_to_upload. rewrite bind_unfold, get_list_unfold, H4.
    destruct liked; reflexivity.
Qed.

Lemma step1_after_init (e : @env rng) w ss ss1 v :
  styles e <> [] ->
  init_selection shuffle e ss = Next tt ss1 -> ss1 !! "random_images" = Some v ->
  step1 shuffle e w ss = step1 shuffle e w ss1.
Proof.
  intros Hst Hinit Hv. unfold step1. destruct (styles e); [congruence|].
  rewrite !bind_unfold, Hinit, (init_selection_present e ss1 _ Hv). reflexivity.
Qed.

Lemma selection_ok_selected ss imgs info ci liked disliked :
  selected ss imgs info ci liked disliked -> selection_ok ss.
Proof. intros H. right. eauto 10. Qed.

Lemma agree_off_on ss ss' :
  agree_off reset_keys ss ss' -> forall k, k ∉ reset_keys -> ss' !! k = ss !! k.
Proof. intros H. exact H. Qed.

(** Step 1 on a state with a selection: no exception, and a selection
    or none at all afterwards. *)
Lemma step1_selected_sound (e : @env rng) w ss imgs info ci liked disliked :
  styles e <> [] -> selected ss imgs info ci liked disliked ->
  ~ crashes (step1 shuffle e w ss)
  /\ selection_ok (state_of (step1 shuffle e w ss)).
Proof.
  intros Hst Hs. pose proof Hs as (H1 & H2 & H3 & H4 & H5 & H6 & H7 & H8).
  destruct (decide (ci < Z.of_nat (length imgs))) as [Hlt|Hge].
  - destruct (step1_voting e w ss imgs info ci liked disliked Hst Hs Hlt)
      as (img & Himg & ->).
    destruct (pressed w Like); [|destruct (pressed w Dislike)]; cbn [crashes state_of].
    + split; [tauto|]. eapply selection_ok_selected, selected_after_like; eauto.
    + split; [tauto|]. eapply selection_ok_selected, selected_after_dislike; eauto.
    + split; [tauto|]. eapply selection_ok_selected; eauto.
  - rewrite (step1_summary e w ss imgs info ci liked disliked Hst Hs ltac:(lia)).
    destruct (pressed w ResetStyles).
    + destruct (reset_styles_unselected ss) as (ss' & -> & Hu & _).
      cbn [crashes state_of]. split; [tauto|left; exact Hu].
    + destruct (pressed w ContinueToUpload); [destruct liked|]; cbn [crashes state_of];
        (split; [tauto|]); try (eapply selection_ok_selected; eauto; fail).
      eapply selection_ok_agree; [apply agree_on_insert; off_keys|].
      eapply selection_ok_selected; eauto.
Qed.

Lemma step1_sound (e : @env rng) w ss :
  selection_ok ss ->
  ~ crashes (step1 shuffle e w ss)
  /\ selection_ok (state_of (step1 shuffle e w ss)).
Proof.
  intros Hok. destruct (styles e) as [|st0 sts] eqn:Hst.
  { unfold step1. rewrite Hst. cbn. tauto. }
  destruct (init_selection_selected e ss Hok)
    as (ss1 & imgs & info & ci & l & d & Hinit & Hs & _).
  rewrite (step1_after_init e w ss ss1 (VList imgs)); [|congruence|exact Hinit|apply Hs].
  eapply step1_selected_sound; [congruence|exact Hs].
Qed.

(** With a liked list in the state, the selection is set. *)
Lemma prefs_selected ss :
  prefs_ok ss -> selection_ok ss ->
  exists imgs info ci liked disliked, selected ss imgs info ci liked disliked.
Proof.
  intros [(l & _ & Hl) _] [Hu|Hs]; [|exact Hs].
  rewrite (Hu "liked_images") in Hl by in_keys. discriminate.
Qed.

Lemma step2_sound (e : @env rng) w ss :
  prefs_ok ss -> selection_ok ss ->
  ~ crashes (step2 e w ss) /\ selection_ok (state_of (step2 e w ss)).
Proof.
  intros Hp Hok.
  destruct (prefs_selected ss Hp Hok) as (imgs & info & ci & l & d & Hs).
  pose proof Hs as (H1 & H2 & H3 & H4 & H5 & H6 & H7 & H8).
  destruct (voted_within _ _ _ _ H8) as [Hl Hd].
  unfold step2. rewrite bind_unfold, get_list_unfold, H4.
  rewrite bind_unfold, (style_names_covered l info ss H2) by auto.
  destruct (uploaded_file w) as [data|]; [|cbn; tauto].
  destruct (image_opens e data); [|cbn; split; [intros H; apply H; reflexivity|exact Hok]].
  destruct (pressed w GenerateOptions); [|cbn; tauto].
  unfold load_image_from_upload.
  destruct (Py.b64encode data) as [|a enc]; [cbn; tauto|].
  cbv [mbind script_bind set_attr rerun state_of crashes]. split; [tauto|].
  eapply selection_ok_agree; [|exact Hok].
  intros k Hk. rewrite !lookup_insert_ne; [reflexivity|..]; intros <-; not_a_key Hk.
Qed.

Lemma ensure_design_options_sound (e : @env rng) ss :
  prefs_ok ss -> room_ok ss -> options_ok ss ->
  exists ss1 o opts,
    ensure_design_options e ss = Next tt ss1
    /\ ss1 !! "design_options" = Some (VList (o :: opts))
    /\ (ss1 = ss
        \/ (ss !! "design_options" = None
            /\ ss1 = <["design_options" := VList (o :: opts)]> ss)).
Proof.
  intros [(l & _ & Hl) (d & Hd)] [(enc & _ & Hroom) [(rt & Hrt) (rs & Hrs)]] Ho.
  unfold ensure_design_options. rewrite bind_unfold. unfold has_key.
  destruct Ho as [Hnone|(opts & Hne & Hopts)].
  - rewrite Hnone, bool_decide_eq_false_2 by (intros [? ?]; discriminate).
    rewrite bind_unfold, get_list_unfold, Hl.
    rewrite bind_unfold, get_list_unfold, Hd.
    rewrite bind_unfold, get_str_unfold, Hroom.
    rewrite bind_unfold, get_str_unfold, Hrt.
    rewrite bind_unfold, get_str_unfold, Hrs.
    pose proof (SegmentationProps.generate_design_options_nonempty (sv e) l d enc rt rs 5
                  ltac:(lia)) as Hgen.
    destruct (generate_design_options (sv e) l d enc rt rs 5) as [|o opts] eqn:E;
      [congruence|].
    exists (<["design_options" := VList (o :: opts)]> ss), o, opts.
    split; [reflexivity|]. split; [apply lookup_insert_eq|]. right. auto.
  - rewrite Hopts, bool_decide_eq_true_2 by eauto.
    destruct opts as [|o opts]; [congruence|].
    exists ss, o, opts. auto.
Qed.

Lemma show_results_sound w ss o opts room :
  ss !! "design_options" = Some (VList (o :: opts)) ->
  ss !! "room_image" = Some (VStr room) ->
  show_results w ss = if pressed w StartOver then Rerun ∅ else Next tt ss.
Proof.
  intros Ho Hr. unfold show_results.
  rewrite bind_unfold, get_list_unfold, Ho.
  rewrite bind_unfold. cbn [mret script_ret].
  rewrite bind_unfold, get_str_unfold, Hr.
  destruct (pressed w StartOver); [|reflexivity].
  rewrite bind_unfold, clear_all_spec. reflexivity.
Qed.

Lemma step3_sound (e : @env rng) w ss :
  prefs_ok ss -> room_ok ss -> options_ok ss -> selection_ok ss ->
  ~ crashes (step3 e w ss) /\ selection_ok (state_of (step3 e w ss)).
Proof.
  intros Hp Hr Ho Hok.
  destruct (ensure_design_options_sound e ss Hp Hr Ho)
    as (ss1 & o & opts & Hens & Hopts & Hss1).
  destruct Hr as [(enc & _ & Hroom) _].
  assert (Hroom1 : ss1 !! "room_image" = Some (VStr enc)).
  { destruct Hss1 as [->|[_ ->]]; [exact Hroom|].
    rewrite lookup_insert_ne by discriminate. exact Hroom. }
  assert (Hok1 : selection_ok ss1).
  { destruct Hss1 as [->|[_ ->]]; [exact Hok|].
    eapply selection_ok_agree; [apply agree_on_insert; off_keys|exact Hok]. }
  unfold step3. rewrite bind_unfold, Hens.
  rewrite (show_results_sound w ss1 o opts enc Hopts Hroom1).
  destruct (pressed w StartOver); cbn [crashes state_of].
  - split; [tauto|]. left. apply unselected_empty.
  - split; [tauto|exact Hok1].
Qed.

(** *** One run *)

Lemma main_sound (e : @env rng) w ss :
  sound ss ->
  ~ crashes (main shuffle e w ss) /\ sound (state_of (main shuffle e w ss)).
Proof.
  intros [Hinv Hok].
  pose proof (invariant_main shuffle e w ss Hinv) as Hinv'.
  cut (~ crashes (main shuffle e w ss)
       /\ selection_ok (state_of (main shuffle e w ss)));
    [intros [Hc Hsel]; split; [exact Hc|split; assumption]|]. clear Hinv'.
  destruct Hinv as [Ho Hs].
  destruct (main_cases shuffle e w ss)
    as [[_ ->]|[_ [[Hstep ->]|[[Hstep ->]|[[Hstep ->]|[[Hstep ->]|[-> Hv]]]]]]].
  - cbn. tauto.
  - apply step1_sound.
    eapply selection_ok_agree; [apply agree_on_insert; off_keys|exact Hok].
  - apply step1_sound. exact Hok.
  - rewrite Hstep in Hs. apply step2_sound; assumption.
  - rewrite Hstep in Hs. apply step3_sound; tauto.
  - cbn. tauto.
Qed.

Lemma on_click_sound w ss : sound ss -> sound (on_click w ss).
Proof.
  intros [Hinv Hok]. split; [apply invariant_on_click; exact Hinv|].
  destruct (on_click_cases w ss) as [->|[(_ & _ & ->)|(_ & _ & ->)]]; [exact Hok| |];
    (eapply selection_ok_agree; [apply agree_on_insert; off_keys|exact Hok]).
Qed.

Lemma interact_sound (e e' : @env rng) w ss :
  sound ss -> sound (interact shuffle e e' w ss).
Proof.
  intros H. unfold interact, settle.
  pose proof (main_sound e w _ (on_click_sound w ss H)) as [_ H1].
  destruct (main shuffle e w (on_click w ss)) as [[] s1|s1|s1|err s1]; cbn [state_of] in *;
    try exact H1.
  apply main_sound. exact H1.
Qed.

Lemma reachable_sound ss : reachable shuffle ss -> sound ss.
Proof.
  induction 1 as [|e e' w ss _ IH].
  - split; [apply invariant_empty|left; apply unselected_empty].
  - apply interact_sound. exact IH.
Qed.

(** *** Runs that change nothing *)

Lemma pressed_other w b b' : clicked w = Some b' -> b <> b' -> pressed w b = false.
Proof.
  intros Hc Hne. unfold pressed. apply bool_decide_eq_false_2. rewrite Hc. congruence.
Qed.

Lemma pressed_same w b : clicked w = Some b -> pressed w b = true.
Proof. intros Hc. unfold pressed. apply bool_decide_eq_true_2. exact Hc. Qed.

(** At step 1, with a selection and none of the four buttons of the
    step pressed, the run leaves the state as it is. *)
Lemma main_idle_step1 (e : @env rng) w ss imgs info ci liked disliked :
  ss !! "step" = Some (VInt 1) -> selected ss imgs info ci liked disliked ->
  pressed w Like = false -> pressed w Dislike = false ->
  pressed w ResetStyles = false -> pressed w ContinueToUpload = false ->
  exists o, main shuffle e w ss = o /\ state_of o = ss /\ o <> Rerun ss.
Proof.
  intros Hstep Hs HL HD HR HC.
  destruct (main_cases shuffle e w ss)
    as [[_ ->]|[_ [[Hstep' ->]|[[_ ->]|[[Hstep' ->]|[[Hstep' ->]|[-> Hv]]]]]]];
    try congruence; try (eexists; split; [reflexivity|split; [reflexivity|discriminate]]).
  destruct (styles e) as [|st0 sts] eqn:Hst.
  { unfold step1. rewrite Hst.
    eexists; split; [reflexivity|split; [reflexivity|discriminate]]. }
  pose proof Hs as (_ & _ & _ & _ & _ & H6 & _).
  destruct (decide (ci < Z.of_nat (length imgs))) as [Hlt|Hge].
  - destruct (step1_voting e w ss imgs info ci liked disliked ltac:(congruence) Hs Hlt)
      as (img & _ & ->).
    rewrite HL, HD. eexists; split; [reflexivity|split; [reflexivity|discriminate]].
  - rewrite (step1_summary e w ss imgs info ci liked disliked ltac:(congruence) Hs
               ltac:(lia)).
    rewrite HR, HC. eexists; split; [reflexivity|split; [reflexivity|discriminate]].
Qed.

Lemma settle_idle_step1 (e e' : @env rng) w ss imgs info ci liked disliked :
  ss !! "step" = Some (VInt 1) -> selected ss imgs info ci liked disliked ->
  pressed w Like = false -> pressed w Dislike = false ->
  pressed w ResetStyles = false -> pressed w ContinueToUpload = false ->
  settle shuffle e e' w ss = ss.
Proof.
  intros Hstep Hs HL HD HR HC. unfold settle.
  destruct (main_idle_step1 e w ss imgs info ci liked disliked Hstep Hs HL HD HR HC)
    as (o & -> & Hst & Hne).
  destruct o as [[] s1|s1|s1|err s1]; cbn [state_of] in *; subst; congruence.
Qed.

Lemma main_at_step1 (e : @env rng) w ss :
  configured e -> ss !! "step" = Some (VInt 1) ->
  main shuffle e w ss = step1 shuffle e w ss.
Proof.
  intros Hcfg Hstep.
  destruct (main_cases shuffle e w ss)
    as [[Hn _]|[_ [[Hstep' _]|[[_ H]|[[Hstep' _]|[[Hstep' _]|[_ Hv]]]]]]];
    try congruence; try contradiction.
  destruct Hv as (v & Hv & Hv1 & _). congruence.
Qed.

Lemma main_at_step2 (e : @env rng) w ss :
  configured e -> ss !! "step" = Some (VInt 2) ->
  main shuffle e w ss = step2 e w ss.
Proof.
  intros Hcfg Hstep.
  destruct (main_cases shuffle e w ss)
    as [[Hn _]|[_ [[Hstep' _]|[[Hstep' _]|[[_ H]|[[Hstep' _]|[_ Hv]]]]]]];
    try congruence; try contradiction.
  destruct Hv as (v & Hv & _ & Hv2 & _). congruence.
Qed.

(** The first selection of a run that finds none. *)
Lemma init_selection_fresh (e : @env rng) ss :
  unselected ss ->
  exists ss1,
    init_selection shuffle e ss = Next tt ss1
    /\ selected ss1 (select_random_images shuffle (styles e) 5 (gen e)).1.1
                    (select_random_images shuffle (styles e) 5 (gen e)).1.2 0 [] []
    /\ agree_off reset_keys ss ss1.
Proof.
  intros Hu. unfold init_selection. rewrite bind_unfold. unfold has_key.
  rewrite (Hu "random_images") by in_keys.
  rewrite bool_decide_eq_false_2 by (intros [? ?]; discriminate).
  pose proof (select_random_images_covered (styles e) 5 (gen e)) as Hc.
  destruct (select_random_images shuffle (styles e) 5 (gen e)) as [[imgs info] g].
  cbn [fst snd] in *.
  eexists. split; [reflexivity|]. split.
  - unfold selected.
    repeat (rewrite lookup_insert_eq || rewrite lookup_insert_ne by discriminate).
    repeat split; try reflexivity; try lia; try exact Hc.
  - repeat (eapply agree_off_trans; [|apply agree_off_insert; in_keys]).
    apply agree_off_refl.
Qed.

(** *** The options, once generated *)

Lemma main_keeps_options (e : @env rng) w ss v :
  ss !! "design_options" = Some v -> clicked w <> Some StartOver ->
  state_of (main shuffle e w ss) !! "design_options" = Some v.
Proof.
  intros Hv Hc.
  assert (Hstep1 : forall ss0, ss0 !! "design_options" = Some v ->
            state_of (step1 shuffle e w ss0) !! "design_options" = Some v).
  { intros ss0 Hv0.
    destruct (step1_spec shuffle e w ss0) as [Ha|(ss1 & l & d & Ha & _ & _ & _ & _ & _ & ->)].
    - rewrite (Ha "design_options") by off_keys. exact Hv0.
    - cbn [state_of]. rewrite lookup_insert_ne by discriminate.
      rewrite (Ha "design_options") by off_keys. exact Hv0. }
  destruct (main_cases shuffle e w ss)
    as [[_ ->]|[_ [[Hstep ->]|[[Hstep ->]|[[Hstep ->]|[[Hstep ->]|[-> _]]]]]]].
  - exact Hv.
  - apply Hstep1. rewrite lookup_insert_ne by discriminate. exact Hv.
  - apply Hstep1. exact Hv.
  - destruct (step2_spec e w ss) as [->|(data & _ & _ & _ & _ & _ & ->)]; [exact Hv|].
    cbn [state_of]. rewrite !lookup_insert_ne by discriminate. exact Hv.
  - destruct (step3_spec e w ss) as (ss1 & Hss1 & [->|[Hso _]]); [|contradiction].
    destruct Hss1 as [->|[Hnone _]]; [exact Hv|congruence].
  - exact Hv.
Qed.

Lemma interact_keeps_options (e e' : @env rng) w ss v :
  ss !! "design_options" = Some v -> clicked w <> Some StartOver ->
  interact shuffle e e' w ss !! "design_options" = Some v.
Proof.
  intros Hv Hc. unfold interact, settle.
  assert (Hv0 : on_click w ss !! "design_options" = Some v).
  { destruct (on_click_cases w ss) as [->|[(_ & _ & ->)|(_ & _ & ->)]]; [exact Hv| |];
      rewrite lookup_insert_ne by discriminate; exact Hv. }
  pose proof (main_keeps_options e w _ v Hv0 Hc) as H1.
  destruct (main shuffle e w (on_click w ss)) as [[] s1|s1|s1|err s1]; cbn [state_of] in *;
    try exact H1.
  apply main_keeps_options; [exact H1|]. rewrite no_click_clicked. discriminate.
Qed.

End WithRandom.

(** X21.  A session never ends in a missing key, a bad index or an empty
    tab list.  In every state a session can reach, and for every press
    and every environment, neither the run of [main] nor the run that
    [st.rerun()] asks for ends with an exception, except for the one
    raised when the uploaded file is no image. *)
Theorem session_never_crashes {rng : Type}
    (shuffle : forall A : Type, rng -> list A -> list A * rng)
    (ss : session_state) (e e' : env (rng := rng)) (w : widgets) :
  reachable shuffle ss ->
  ~ crashes (main shuffle e w (on_click w ss))
  /\ forall ss1, main shuffle e w (on_click w ss) = Rerun ss1 ->
                 ~ crashes (main shuffle e' (no_click w) ss1).
Proof.
  intros Hr. pose proof (reachable_sound shuffle ss Hr) as Hs.
  destruct (main_sound shuffle e w _ (on_click_sound w ss Hs)) as [Hc Hs1].
  split; [exact Hc|]. intros ss1 Hrun. rewrite Hrun in Hs1. cbn [state_of] in Hs1.
  apply main_sound. exact Hs1.
Qed.

Lemma session_never_crashes_witness :
  ~ crashes (main Samples.in_order Samples.session_env Samples.upload_and_generate
               (on_click Samples.upload_and_generate Samples.at_upload)).
Proof.
  exact (proj1 (session_never_crashes Samples.in_order Samples.at_upload
                  Samples.session_env Samples.session_env Samples.upload_and_generate
                  (proj1 (proj2 SessionProps.samples_reachable)))).
Defined.

(** X22.  In every state a session can reach, the five keys of the
    selection are all absent or all set, and when they are set the
    index lies within the images, every image has its entry in
    [style_info], and the liked and the disliked images together are,
    up to their order, the images before the index: every image shown
    so far has exactly one vote.  From step 2 on the keys are set. *)
Theorem every_shown_image_has_one_vote {rng : Type}
    (shuffle : forall A : Type, rng -> list A -> list A * rng)
    (ss : session_state) :
  reachable shuffle ss ->
  selection_ok ss
  /\ (step_of ss = Some 2 \/ step_of ss = Some 3 ->
      exists imgs info ci liked disliked, selected ss imgs info ci liked disliked).
Proof.
  intros Hr. destruct (reachable_sound shuffle ss Hr) as [[_ Hstep] Hok].
  split; [exact Hok|]. intros Hs. apply prefs_selected; [|exact Hok].
  destruct Hs as [Hs|Hs]; apply step_of_lookup in Hs; rewrite Hs in Hstep; tauto.
Qed.

Lemma every_shown_image_has_one_vote_witness :
  exists imgs info ci liked disliked,
    selected Samples.at_upload imgs info ci liked disliked.
Proof.
  refine (proj2 (every_shown_image_has_one_vote Samples.in_order Samples.at_upload
                   (proj1 (proj2 SessionProps.samples_reachable))) _).
  left. vm_compute. reflexivity.
Defined.

(** X23.  The design options are generated once.  Whatever is pressed
    short of Start Over, and whatever the environment, options that
    are stored stay as they are: after Back to Upload a second
    Generate, even with another room, shows the options of the first
    one. *)
Theorem options_are_generated_once {rng : Type}
    (shuffle : forall A : Type, rng -> list A -> list A * rng)
    (ss : session_state) (e e' : env (rng := rng)) (w : widgets) v :
  ss !! "design_options" = Some v -> clicked w <> Some StartOver ->
  interact shuffle e e' w ss !! "design_options" = Some v.
Proof. apply interact_keeps_options. Qed.

Lemma options_are_generated_once_witness :
  let other_room :=
    Widgets (Some GenerateOptions) (Some [Byte.x89; Byte.x50]) "Kitchen" "3m x 3m" in
  let again :=
    Samples.act other_room (Samples.act (Samples.press BackToUpload) Samples.at_results) in
  step_of again = Some 3
  /\ str_of "room_type" again = Some "Kitchen"
  /\ again !! "design_options"
     = Some (VList (map Reply.block_text Samples.five_blocks)).
Proof.
  cbn zeta. split; [vm_compute; reflexivity|]. split; [vm_compute; reflexivity|].
  apply (options_are_generated_once Samples.in_order).
  - apply (options_are_generated_once Samples.in_order).
    + vm_compute. reflexivity.
    + discriminate.
  - discriminate.
Defined.

(** X24.  The Back buttons change the step and nothing else.  In every
    state a session can reach, Back to Preferences at step 2 leads to
    step 1 with the votes, the selection and everything else as they
    were, and Back to Upload at step 3 leads to step 2 with the room
    and the options as they were. *)
Theorem back_changes_only_the_step {rng : Type}
    (shuffle : forall A : Type, rng -> list A -> list A * rng)
    (ss : session_state) (e e' : env (rng := rng)) (w : widgets) :
  reachable shuffle ss ->
  (step_of ss = Some 2 -> clicked w = Some BackToPreferences ->
   interact shuffle e e' w ss = <["step" := VInt 1]> ss)
  /\ (step_of ss = Some 3 -> clicked w = Some BackToUpload ->
      interact shuffle e e' w ss = <["step" := VInt 2]> ss).
Proof.
  intros Hr. destruct (reachable_sound shuffle ss Hr) as [[_ Hinv] Hok].
  split; intros Hstep Hc; apply step_of_lookup in Hstep;
    unfold interact, on_click; rewrite Hc, Hstep.
  - rewrite Hstep in Hinv.
    destruct (prefs_selected ss Hinv Hok) as (imgs & info & ci & l & d & Hs).
    apply (settle_idle_step1 shuffle e e' w _ imgs info ci l d);
      try (eapply pressed_other; [exact Hc|discriminate]).
    + apply lookup_insert_eq.
    + eapply selected_agree; [apply agree_on_insert; off_keys|exact Hs].
  - destruct (settle_step2 shuffle e e' w (<["step" := VInt 2]> ss))
      as [H|(data & _ & _ & Hg & _)]; [apply lookup_insert_eq|exact H|congruence].
Qed.

Lemma back_changes_only_the_step_witness :
  Samples.act (Samples.press BackToPreferences) Samples.at_upload
  = <["step" := VInt 1]> Samples.at_upload.
Proof.
  refine (proj1 (back_changes_only_the_step Samples.in_order Samples.at_upload
                   Samples.session_env Samples.session_env
                   (Samples.press BackToPreferences)
                   (proj1 (proj2 SessionProps.samples_reachable))) _ _).
  - vm_compute. reflexivity.
  - reflexivity.
Defined.

(** X25.  A vote is recorded as cast.  At step 1, while an image is
    shown, Like appends that image to the liked list and Dislike to
    the disliked list; the other list stays, the index moves on by one
    and the step stays, whatever the run after [st.rerun()] finds. *)
Theorem a_vote_is_recorded {rng : Type}
    (shuffle : forall A : Type, rng -> list A -> list A * rng)
    (ss : session_state) (e e' : env (rng := rng)) (w : widgets)
    imgs info ci liked disliked :
  step_of ss = Some 1 -> configured e -> styles e <> [] ->
  selected ss imgs info ci liked disliked -> ci < Z.of_nat (length imgs) ->
  exists img,
    imgs !! Z.to_nat ci = Some img
    /\ (clicked w = Some Like ->
        selected (interact shuffle e e' w ss) imgs info (ci + 1) (liked ++ [img]) disliked
        /\ step_of (interact shuffle e e' w ss) = Some 1)
    /\ (clicked w = Some Dislike ->
        selected (interact shuffle e e' w ss) imgs info (ci + 1) liked (disliked ++ [img])
        /\ step_of (interact shuffle e e' w ss) = Some 1).
Proof.
  intros Hstep Hcfg Hst Hs Hlt. apply step_of_lookup in Hstep.
  destruct (step1_voting shuffle e w ss imgs info ci liked disliked Hst Hs Hlt)
    as (img & Himg & Hrun).
  exists img. split; [exact Himg|].
  assert (Hmain : main shuffle e w ss = step1 shuffle e w ss).
  { destruct (main_cases shuffle e w ss)
      as [[Hn _]|[_ [[Hstep' _]|[[_ H]|[[Hstep' _]|[[Hstep' _]|[_ Hv]]]]]]];
      try congruence; try contradiction.
    destruct Hv as (v & Hv & Hv1 & _). congruence. }
  assert (Hidle : forall ss', ss' !! "step" = Some (VInt 1) ->
            forall l d, selected ss' imgs info (ci + 1) l d ->
            state_of (main shuffle e' (no_click w) ss') = ss').
  { intros ss' Hstep' l d Hs'.
    destruct (main_idle_step1 shuffle e' (no_click w) ss' imgs info (ci + 1) l d Hstep' Hs')
      as (o & -> & Ho & _); try (apply pressed_no_click, no_click_clicked). exact Ho. }
  split; intros Hc;
    (assert (Hoc : on_click w ss = ss) by (unfold on_click; rewrite Hc; reflexivity));
    unfold interact, settle; rewrite Hoc.
  - rewrite Hmain, Hrun, (pressed_same w Like Hc).
    pose proof (selected_after_like ss imgs info ci liked disliked img Hs Hlt Himg) as Hs'.
    match type of Hs' with
    | selected ?s _ _ _ _ _ =>
        assert (Hstep' : s !! "step" = Some (VInt 1))
          by (rewrite !lookup_insert_ne by discriminate; exact Hstep)
    end.
    cbn [state_of]. rewrite (Hidle _ Hstep' _ _ Hs').
    split; [exact Hs'|]. apply step_of_lookup. exact Hstep'.
  - rewrite Hmain, Hrun, (pressed_other w Like Dislike Hc) by discriminate.
    rewrite (pressed_same w Dislike Hc).
    pose proof (selected_after_dislike ss imgs info ci liked disliked img Hs Hlt Himg)
      as Hs'.
    match type of Hs' with
    | selected ?s _ _ _ _ _ =>
        assert (Hstep' : s !! "step" = Some (VInt 1))
          by (rewrite !lookup_insert_ne by discriminate; exact Hstep)
    end.
    cbn [state_of]. rewrite (Hidle _ Hstep' _ _ Hs').
    split; [exact Hs'|]. apply step_of_lookup. exact Hstep'.
Qed.

Lemma a_vote_is_recorded_witness :
  exists img,
    selected (Samples.act (Samples.press Like) Samples.at_start)
      (select_random_images Samples.in_order Samples.styles 5 tt).1.1
      (select_random_images Samples.in_order Samples.styles 5 tt).1.2
      1 [img] [].
Proof.
  destruct (a_vote_is_recorded Samples.in_order Samples.at_start
              Samples.session_env Samples.session_env (Samples.press Like)
              (select_random_images Samples.in_order Samples.styles 5 tt).1.1
              (select_random_images Samples.in_order Samples.styles 5 tt).1.2
              0 [] []) as (img & _ & HL & _).
  - vm_compute. reflexivity.
  - exists "s"%char, "k-test". reflexivity.
  - discriminate.
  - unfold selected.
    split; [vm_compute; reflexivity|]. split; [vm_compute; reflexivity|].
    split; [vm_compute; reflexivity|]. split; [vm_compute; reflexivity|].
    split; [vm_compute; reflexivity|]. split; [lia|].
    split; [apply select_random_images_covered|reflexivity].
  - vm_compute. reflexivity.
  - exists img. apply HL. reflexivity.
Defined.

(** X29.  The buttons of the summary.  At step 1, once every image has
    its vote: Reset and Try Different Styles throws the votes and the
    selection away, and the run that follows draws a new selection
    with no votes and the index at 0, while the step and everything
    outside the selection stay; Continue to Room Upload with no liked
    image changes nothing. *)
Theorem summary_buttons {rng : Type}
    (shuffle : forall A : Type, rng -> list A -> list A * rng)
    (ss : session_state) (e e' : env (rng := rng)) (w : widgets)
    imgs info liked disliked :
  step_of ss = Some 1 -> configured e -> styles e <> [] ->
  selected ss imgs info (Z.of_nat (length imgs)) liked disliked ->
  (clicked w = Some ResetStyles -> configured e' -> styles e' <> [] ->
   selected (interact shuffle e e' w ss)
     (select_random_images shuffle (styles e') 5 (gen e')).1.1
     (select_random_images shuffle (styles e') 5 (gen e')).1.2 0 [] []
   /\ agree_off reset_keys ss (interact shuffle e e' w ss))
  /\ (clicked w = Some ContinueToUpload -> liked = [] ->
      interact shuffle e e' w ss = ss).
Proof.
  intros Hstep Hcfg Hst Hs. apply step_of_lookup in Hstep.
  pose proof (step1_summary shuffle e w ss imgs info _ liked disliked Hst Hs eq_refl)
    as Hrun.
  split.
  - intros Hc Hcfg' Hst'.
    assert (Hoc : on_click w ss = ss) by (unfold on_click; rewrite Hc; reflexivity).
    unfold interact, settle. rewrite Hoc, (main_at_step1 shuffle e w ss Hcfg Hstep), Hrun.
    rewrite (pressed_same w ResetStyles Hc).
    destruct (reset_styles_unselected ss) as (ss0 & -> & Hu & Hag).
    assert (Hstep0 : ss0 !! "step" = Some (VInt 1))
      by (rewrite (Hag "step") by off_keys; exact Hstep).
    destruct (init_selection_fresh shuffle e' ss0 Hu) as (ss1 & Hinit & Hs1 & Hag1).
    assert (Hstep1 : ss1 !! "step" = Some (VInt 1))
      by (rewrite (Hag1 "step") by off_keys; exact Hstep0).
    rewrite (main_at_step1 shuffle e' (no_click w) ss0 Hcfg' Hstep0).
    rewrite (step1_after_init shuffle e' (no_click w) ss0 ss1 _ Hst' Hinit (proj1 Hs1)).
    rewrite <- (main_at_step1 shuffle e' (no_click w) ss1 Hcfg' Hstep1).
    destruct (main_idle_step1 shuffle e' (no_click w) ss1 _ _ _ _ _ Hstep1 Hs1)
      as (o & -> & -> & _); try (apply pressed_no_click, no_click_clicked).
    split; [exact Hs1|]. eapply agree_off_trans; eassumption.
  - intros Hc ->.
    assert (Hoc : on_click w ss = ss) by (unfold on_click; rewrite Hc; reflexivity).
    unfold interact, settle. rewrite Hoc, (main_at_step1 shuffle e w ss Hcfg Hstep), Hrun.
    rewrite (pressed_other w ResetStyles ContinueToUpload Hc) by discriminate.
    rewrite (pressed_same w ContinueToUpload Hc). reflexivity.
Qed.

Lemma summary_buttons_witness :
  Samples.act (Samples.press ContinueToUpload) Samples.all_disliked = Samples.all_disliked.
Proof.
  refine (proj2 (summary_buttons Samples.in_order Samples.all_disliked
                   Samples.session_env Samples.session_env
                   (Samples.press ContinueToUpload)
                   (select_random_images Samples.in_order Samples.styles 5 tt).1.1
                   (select_random_images Samples.in_order Samples.styles 5 tt).1.2
                   []
                   (select_random_images Samples.in_order Samples.styles 5 tt).1.1
                   _ _ _ _) eq_refl eq_refl).
  - vm_compute. reflexivity.
  - exists "s"%char, "k-test". reflexivity.
  - discriminate.
  - unfold selected.
    split; [vm_compute; reflexivity|]. split; [vm_compute; reflexivity|].
    split; [vm_compute; reflexivity|]. split; [vm_compute; reflexivity|].
    split; [vm_compute; reflexivity|]. split; [lia|].
    split; [apply select_random_images_covered|].
    vm_compute. reflexivity.
Defined.

(** X30.  The one exception of a session.  At step 2, in every state a
    session can reach, a file in the uploader that cannot be opened as
    an image ends every run with the exception of [Image.open], the
    state left as it was, whichever button is pressed except Back to
    Style Preferences. *)
Theorem upload_that_is_no_image_ends_the_run {rng : Type}
    (shuffle : forall A : Type, rng -> list A -> list A * rng)
    (ss : session_state) (e : env (rng := rng)) (w : widgets) data :
  reachable shuffle ss -> step_of ss = Some 2 -> configured e ->
  uploaded_file w = Some data -> image_opens e data = false ->
  clicked w <> Some BackToPreferences ->
  main shuffle e w (on_click w ss) = Error "cannot identify image file" ss.
Proof.
  intros Hr Hstep Hcfg Hup Hopen Hc. apply step_of_lookup in Hstep.
  destruct (reachable_sound shuffle ss Hr) as [[_ Hinv] Hok].
  rewrite Hstep in Hinv.
  assert (Hoc : on_click w ss = ss).
  { unfold on_click. rewrite Hstep. destruct (clicked w) as [[]|]; congruence. }
  rewrite Hoc, (main_at_step2 shuffle e w ss Hcfg Hstep).
  destruct (prefs_selected ss Hinv Hok) as (imgs & info & ci & l & d & Hs).
  pose proof Hs as (H1 & H2 & H3 & H4 & H5 & H6 & H7 & H8).
  destruct (voted_within _ _ _ _ H8) as [Hl Hd].
  unfold step2. rewrite bind_unfold, get_list_unfold, H4.
  rewrite bind_unfold, (style_names_covered l info ss H2) by auto.
  rewrite Hup, Hopen. reflexivity.
Qed.

Lemma upload_that_is_no_image_ends_the_run_witness :
  main Samples.in_order
    (Env (Some "sk-test") Samples.styles tt (fun _ => false) Samples.designer)
    Samples.upload_and_generate
    (on_click Samples.upload_and_generate Samples.at_upload)
  = Error "cannot identify image file" Samples.at_upload.
Proof.
  apply (upload_that_is_no_image_ends_the_run Samples.in_order Samples.at_upload
           (Env (Some "sk-test") Samples.styles tt (fun _ => false) Samples.designer)
           Samples.upload_and_generate [Byte.xff; Byte.xd8; Byte.xff]).
  - exact (proj1 (proj2 SessionProps.samples_reachable)).
  - vm_compute. reflexivity.
  - exists "s"%char, "k-test". reflexivity.
  - reflexivity.
  - reflexivity.
  - discriminate.
Defined.

End SessionMore.

(** ** The styles on disk *)

Module CatalogProps.
Import App Catalog Supply.

(** *** What is loaded *)

Lemma load_style_read_from d dirs style_dir st :
  style_dirs d = Returns dirs -> style_dir ∈ dirs ->
  load_style d style_dir = Returns (Some st) -> read_from d st.
Proof.
  intros Hdirs Hin. unfold load_style.
  destruct (listdir d style_dir) as [files|e] eqn:Hfiles;
    [|destruct (description_txt d style_dir) as [[|]|]; discriminate].
  destruct (map (image_path style_dir) (filter (fun f => is_image_file f = true) files))
    as [|p0 paths] eqn:Hpaths;
    [destruct (description_txt d style_dir) as [[|]|]; discriminate|].
  intros H. exists dirs, style_dir, files.
  assert (Hst : name st = display_name style_dir /\ image_paths st = p0 :: paths).
  { destruct (description_txt d style_dir) as [[text|e]|]; try discriminate;
      injection H as <-; split; reflexivity. }
  destruct Hst as [Hname Himgs]. rewrite Himgs.
  repeat split; try assumption; [symmetry; exact Hpaths|discriminate].
Qed.

Lemma load_loop_read_from d dirs0 dirs : forall styles,
  style_dirs d = Returns dirs0 -> dirs ⊆ dirs0 ->
  load_loop d dirs = Returns styles -> Forall (read_from d) styles.
Proof.
  induction dirs as [|style_dir dirs IH]; intros styles Hdirs Hsub; cbn [load_loop].
  - intros [= <-]. constructor.
  - destruct (load_style d style_dir) as [found|e] eqn:Hone; [|discriminate].
    destruct (load_loop d dirs) as [rest|e] eqn:Hrest; [|discriminate].
    intros [= <-].
    assert (Hall : Forall (read_from d) rest).
    { apply IH; [exact Hdirs| |reflexivity].
      intros x Hx. apply Hsub. right. exact Hx. }
    destruct found as [st|]; [|exact Hall].
    constructor; [|exact Hall].
    eapply load_style_read_from; [exact Hdirs| |exact Hone]. apply Hsub. left.
Qed.

Lemma load_styles_read_from d : Forall (read_from d) (load_styles d).
Proof.
  unfold load_styles. destruct (negb (base_dir_exists d)); [constructor|].
  destruct (style_dirs d) as [dirs|e] eqn:Hdirs; [|constructor].
  destruct (load_loop d dirs) as [styles|e] eqn:Hloop; [|constructor].
  eapply load_loop_read_from; [exact Hdirs|reflexivity|exact Hloop].
Qed.

(** X26.  Every style that [load_styles] returns was read from a
    directory of [room_styles]: its name is the name of the directory
    with underscores as spaces, in title case; its images are the
    files of the directory that pass the test on the file name, each
    as [room_styles/<directory>/<file>]; and it has at least one
    image.  A directory without images gives no style. *)
Theorem loaded_styles_have_images d :
  Forall (read_from d) (load_styles d)
  /\ (base_dir_exists d = false -> load_styles d = [])
  /\ (forall e, style_dirs d = Raised e -> load_styles d = []).
Proof.
  split; [apply load_styles_read_from|]. unfold load_styles. split.
  - intros ->. reflexivity.
  - intros e ->. destruct (negb (base_dir_exists d)); reflexivity.
Qed.

Lemma loaded_styles_have_images_witness :
  load_styles (Disk false (Returns ["mid_century"]) (fun _ => None)
                 (fun _ => Returns ["sofa_1.jpg"])) = [].
Proof.
  apply (proj1 (proj2 (loaded_styles_have_images
                         (Disk false (Returns ["mid_century"]) (fun _ => None)
                            (fun _ => Returns ["sofa_1.jpg"]))))).
  reflexivity.
Defined.

(** *** The first selection *)

Lemma supply_of_read d styles :
  Forall (read_from d) styles -> (length styles <= supply styles)%nat.
Proof.
  unfold supply. induction 1 as [|st styles Hst _ IH]; [cbn; lia|].
  cbn [length sum_list_with].
  destruct Hst as (? & ? & ? & _ & _ & _ & _ & _ & Hne).
  destruct (image_paths st); [congruence|]. cbn [length]. lia.
Qed.

(** X27.  The selection of the first run, from the styles that
    [load_styles] returns and with a shuffle that permutes its list:
    at least one image for each style, up to five; so with styles on
    disk there is always a first image to show, and with five styles
    or more the selection is full. *)
Theorem loaded_styles_fill_the_selection {rng : Type}
    (shuffle : forall A : Type, rng -> list A -> list A * rng) d (g : rng) :
  (forall A g (l : list A), (shuffle A g l).1 ≡ₚ l) ->
  Z.min 5 (Z.of_nat (length (load_styles d)))
  <= Z.of_nat (length (select_random_images shuffle (load_styles d) 5 g).1.1)
  <= 5.
Proof.
  intros Hperm.
  rewrite (SelectionMore.select_random_images_length shuffle Hperm) by lia.
  pose proof (supply_of_read d _ (load_styles_read_from d)). lia.
Qed.

Lemma loaded_styles_fill_the_selection_witness :
  1 <= Z.of_nat (length (select_random_images Samples.in_order
                           (load_styles MoreSamples.two_directories) 5 tt).1.1).
Proof.
  pose proof (loaded_styles_fill_the_selection Samples.in_order
                MoreSamples.two_directories tt SelectionMore.in_order_permutes) as H.
  change (Z.min 5 (Z.of_nat (length (load_styles MoreSamples.two_directories))))
    with 1 in H.
  exact (proj1 H).
Defined.

(** *** Directories and the names that are shown *)







End CatalogProps.
